(** * qmt_weight_sync: rebalance engine, trading calendar and status store

    A shallow embedding of the parts of the repository that the specification
    describes:

    - [core/trader.py]: [_round_to_hundred], [_is_star_market],
      [_split_order_volume], [calculate_target_volume], [execute_rebalance],
      [wait_for_orders_completion], and the session methods [connect],
      [get_account_info] and [get_current_position] with their calls to the
      broker;
    - [utils/trading_calendar.py]: [is_trading_day] with its helpers
      [_fetch_and_cache_month], [_is_cache_expired], [_is_trading_day_fallback],
      the cache file ([_save_cache_to_file], [_load_cache_from_file],
      [refresh_calendar]) and the searches [get_next_trading_day] and
      [get_trading_days];
    - [utils/status_manager.py]: [read_status], [write_status],
      [update_next_run], [mark_running], [mark_completed], first on a status
      file that holds a JSON object or nothing readable ([StatusManager]),
      then on any file and with writes that fail midway ([StatusStore]);
    - [core/data_handler.py]: [get_target_position];
    - [core/scheduler_runner.py]: [execute_trading], [_wait_until_open] and
      [is_trading_day_today].

    Python floats are the kernel's binary64 floats, Python ints are [Z], dicts
    are [gmap]s, sets are [gset]s.  Code that talks to the broker gateway, the
    clock, the exchange web service or the file system runs in a small
    state-and-exception monad; the answers of the outside world are given by an
    oracle that may depend on everything that happened so far. *)

From Stdlib Require Import ZArith QArith Lia.
From Stdlib Require Import Floats.PrimFloat Floats.SpecFloat Floats.FloatOps.
From stdpp Require Import gmap strings list fin_maps pretty sorting.

#[local] Open Scope Z_scope.

(** ** Python runtime: exceptions, outcomes and the state monad *)

Module Py.

(** The exception classes that the modelled code can meet. *)
Inductive exn : Type :=
| ValueError
| OverflowError
| ZeroDivisionError
| IndexError
| TypeError
| AttributeError
| RequestTimeout   (* requests.Timeout *)
| RuntimeError.    (* anything else raised by a collaborator *)

(** What running a piece of code leads to: a value, a raised exception, or
    a loop that has not finished within the fuel it was given. *)
Inductive outcome (A : Type) : Type :=
| Ret (a : A)
| Raise (e : exn)
| Diverge.
Arguments Ret {A} a.
Arguments Raise {A} e.
Arguments Diverge {A}.

Definition outcome_bind {A B} (o : outcome A) (k : A -> outcome B) : outcome B :=
  match o with
  | Ret a => k a
  | Raise e => Raise e
  | Diverge => Diverge
  end.

(** Stateful code: a state [S] is threaded through, also when an exception
    is raised (mutations made before the [raise] stay). *)
Definition M (S A : Type) : Type := S -> outcome A * S.

Definition ret {S A} (a : A) : M S A := fun s => (Ret a, s).
Definition raise {S A} (e : exn) : M S A := fun s => (Raise e, s).
Definition bind {S A B} (m : M S A) (k : A -> M S B) : M S B :=
  fun s =>
    match m s with
    | (Ret a, s') => k a s'
    | (Raise e, s') => (Raise e, s')
    | (Diverge, s') => (Diverge, s')
    end.
Definition lift {S A} (o : outcome A) : M S A := fun s => (o, s).
Definition get {S} : M S S := fun s => (Ret s, s).
Definition modify {S} (f : S -> S) : M S unit := fun s => (Ret tt, f s).

(** [try: body except Exception as e: handler e]. *)
Definition try_except {S A} (body : M S A) (handler : exn -> M S A) : M S A :=
  fun s =>
    match body s with
    | (Raise e, s') => handler e s'
    | r => r
    end.

(** [for x in xs: body x], a body without [return]. *)
Fixpoint iter {S A} (xs : list A) (body : A -> M S unit) : M S unit :=
  match xs with
  | [] => ret tt
  | x :: rest => bind (body x) (fun _ => iter rest body)
  end.

(** [for x in xs: acc = body acc x]. *)
Fixpoint fold_each {S A B} (xs : list A) (acc : B) (body : B -> A -> M S B) : M S B :=
  match xs with
  | [] => ret acc
  | x :: rest => bind (body acc x) (fun acc' => fold_each rest acc' body)
  end.

(** [xs[i]] on a Python list, for a non-negative literal index. *)
Definition index {A} (xs : list A) (i : nat) : outcome A :=
  match xs !! i with
  | Some x => Ret x
  | None => Raise IndexError
  end.

(** *** Floats *)

(** The exact value of a finite float as a rational in lowest terms. *)
Definition float_value (f : float) : option Q :=
  match Prim2SF f with
  | S754_zero _ => Some (0 # 1)%Q
  | S754_infinity _ => None
  | S754_nan => None
  | S754_finite s m e =>
      let n := if s then Z.neg m else Z.pos m in
      Some (Qred (match e with
                  | Z0 => n # 1
                  | Z.pos p => (n * 2 ^ Z.pos p) # 1
                  | Z.neg p => n # (2 ^ p)%positive
                  end))%Q
  end.

(** Rounding a rational to the nearest integer, ties to the even
    neighbour: what Python 3's one-argument [round] computes. *)
Definition round_half_even (x : Q) : Z :=
  let d := Z.pos (Qden x) in
  let q := Qnum x / d in
  let r := Qnum x mod d in
  match 2 * r ?= d with
  | Lt => q
  | Gt => q + 1
  | Eq => if Z.even q then q else q + 1
  end.

(** [round(f)] with one argument: an int; [ValueError] on NaN and
    [OverflowError] on an infinity. *)
Definition round (f : float) : outcome Z :=
  match float_value f with
  | Some x => Ret (round_half_even x)
  | None => if PrimFloat.is_nan f then Raise ValueError else Raise OverflowError
  end.

(** Truth value of a string ([if message:]). *)
Definition truthy (s : string) : bool := negb (String.eqb s "").

Definition startswith (s p : string) : bool := String.prefix p s.
Definition endswith (s p : string) : bool :=
  let n := String.length s in
  let m := String.length p in
  (m <=? n)%nat && String.eqb (String.substring (n - m) m s) p.

End Py.

Declare Scope py_scope.
Delimit Scope py_scope with py.
Notation "x <- m ;; k" := (Py.bind m (fun x => k))
  (at level 100, m at next level, right associativity) : py_scope.
Notation "m ;; k" := (Py.bind m (fun _ => k))
  (at level 100, right associativity) : py_scope.

(** ** core/trader.py *)

Module Trader.
Import Py.
#[local] Open Scope py_scope.

(** Module constants. *)
Definition MAX_WAIT_TIME : Z := 300.
Definition CHECK_INTERVAL : Z := 2.

(** *** The broker gateway and the clock *)

(** [xtconstant.STOCK_BUY] and [xtconstant.STOCK_SELL]. *)
Inductive Side : Type := STOCK_BUY | STOCK_SELL.

(** One entry of [xtdata.get_full_tick]: the two five-level price ladders. *)
Record Tick : Type := { askPrice : list float; bidPrice : list float }.

(** One entry of [query_stock_orders]. *)
Record XtOrder : Type :=
  { stock_code : string; order_volume : Z; traded_volume : Z }.

(** One entry of the current-position dict. *)
Record Position : Type :=
  { volume : Z; can_use_volume : Z; market_value : float; avg_price : float }.

(** Calls that leave the process, in the order they happen.  A query
    carries the answer it got ([None]: the call raised).  [EvCancelOrder]
    is the gateway's cancel call; the modelled code never issues it.  The
    last four are the session calls of the broker: [xt_trader.start()],
    [xt_trader.connect()], [query_stock_asset] and [query_stock_positions]. *)
Inductive Event : Type :=
| EvFullTick (stock_list : list string)
| EvOrderStock (code : string) (side : Side) (vol : Z) (price : float) (remark : string)
| EvQueryOrders (answer : option (list XtOrder))
| EvSleep (seconds : Z)
| EvCancelOrder (order_id : Z)
| EvStart
| EvConnect
| EvQueryAsset
| EvQueryPositions.

Inductive LogLevel : Type := LogInfo | LogWarning | LogError.

(** The outside world as an oracle: every answer may depend on the calls
    made so far.  [None] stands for a raised exception. *)
Record Gateway : Type :=
  { gw_get_full_tick : list Event -> list string -> option (gmap string Tick);
    gw_order_stock : list Event -> option Z;
    gw_query_stock_orders : list Event -> option (list XtOrder);
    (* seconds that the order query itself takes *)
    gw_query_seconds : list Event -> N }.

(** The state threaded through the trader: the clock, the calls made and
    the log records written (levels only).  The clock counts whole seconds,
    the unit of [max_wait_time] and [check_interval]; a sleep moves it by its
    length, a status query or a session call by what the gateway or the
    broker says, nothing else moves it. *)
Record World : Type :=
  { clock : Z; trace : list Event; logs : list LogLevel }.

Definition log (l : LogLevel) : M World unit :=
  modify (fun w => {| clock := clock w; trace := trace w; logs := logs w ++ [l] |}).

Definition time_time : M World Z := fun w => (Ret (clock w), w).

(** [time.sleep] refuses a negative length. *)
Definition time_sleep (seconds : Z) : M World unit :=
  if seconds <? 0 then raise ValueError
  else fun w =>
    (Ret tt, {| clock := clock w + seconds;
                trace := trace w ++ [EvSleep seconds];
                logs := logs w |}).

Definition get_full_tick (gw : Gateway) (stock_list : list string)
  : M World (gmap string Tick) :=
  fun w =>
    let w' := {| clock := clock w; trace := trace w ++ [EvFullTick stock_list];
                 logs := logs w |} in
    match gw_get_full_tick gw (trace w) stock_list with
    | Some d => (Ret d, w')
    | None => (Raise RuntimeError, w')
    end.

Definition order_stock (gw : Gateway) (code : string) (side : Side) (vol : Z)
    (price : float) (remark : string) : M World Z :=
  fun w =>
    let w' := {| clock := clock w;
                 trace := trace w ++ [EvOrderStock code side vol price remark];
                 logs := logs w |} in
    match gw_order_stock gw (trace w) with
    | Some order_id => (Ret order_id, w')
    | None => (Raise RuntimeError, w')
    end.

Definition query_stock_orders (gw : Gateway) : M World (list XtOrder) :=
  fun w =>
    let answer := gw_query_stock_orders gw (trace w) in
    let w' := {| clock := clock w + Z.of_N (gw_query_seconds gw (trace w));
                 trace := trace w ++ [EvQueryOrders answer];
                 logs := logs w |} in
    match answer with
    | Some orders => (Ret orders, w')
    | None => (Raise RuntimeError, w')
    end.

(** *** Static helpers *)

(** [int(round(volume / 100) * 100)]. *)
Definition _round_to_hundred (volume : float) : outcome Z :=
  outcome_bind (Py.round (volume / 100)%float) (fun n => Ret (n * 100)).

Definition _is_star_market (stock_code : string) : bool :=
  startswith stock_code "688" && endswith stock_code ".SH".

(** The [while remaining > 0] loop of [_split_order_volume]. *)
Fixpoint split_loop (fuel : nat) (max_per_order remaining : Z) (splits : list Z)
  : outcome (list Z) :=
  if 0 <? remaining then
    match fuel with
    | O => Diverge
    | S fuel' =>
        if max_per_order <? remaining
        then split_loop fuel' max_per_order (remaining - max_per_order)
               (splits ++ [max_per_order])
        else split_loop fuel' max_per_order 0 (splits ++ [remaining])
    end
  else Ret splits.

Definition _split_order_volume (fuel : nat) (volume max_per_order : Z)
  : outcome (list Z) :=
  if volume <=? max_per_order then Ret [volume]
  else split_loop fuel max_per_order volume [].

(** *** calculate_target_volume *)

Definition calculate_target_volume (gw : Gateway)
    (target_position : list (string * float)) (total_asset : float)
  : M World (gmap string Z) :=
  log LogInfo ;;
  let stock_list := target_position.*1 in
  fetched <- try_except
               (d <- get_full_tick gw stock_list ;; ret (Some d))
               (fun _ => log LogError ;; ret None) ;;
  match fetched with
  | None => ret ∅
  | Some realtime_data =>
      fold_each target_position (∅ : gmap string Z)
        (fun target_volumes row =>
           let stock_code := row.1 in
           let weight := row.2 in
           let target_value := (total_asset * weight)%float in
           match realtime_data !! stock_code with
           | None => log LogWarning ;; ret target_volumes
           | Some tick =>
               price <- lift (index (askPrice tick) 2) ;;
               if (price =? 0)%float
               then log LogWarning ;; ret target_volumes
               else
                 target_volume <- lift (_round_to_hundred (target_value / price)%float) ;;
                 log LogInfo ;;
                 ret (<[stock_code := target_volume]> target_volumes)
           end)
  end.

(** *** wait_for_orders_completion *)

(** One turn of the polling loop: [Some b] when the function returns [b],
    [None] when the loop goes round again. *)
Definition poll (gw : Gateway) (check_interval : Z) : M World (option bool) :=
  try_except
    (orders <- query_stock_orders gw ;;
     match orders with
     | [] => log LogInfo ;; ret (Some true)
     | _ =>
         let pending_orders :=
           List.filter (fun order => traded_volume order <? order_volume order) orders in
         match pending_orders with
         | [] => log LogInfo ;; ret (Some true)
         | _ =>
             iter pending_orders
               (fun order =>
                  (* progress = traded_volume / order_volume * 100 *)
                  if order_volume order =? 0 then raise ZeroDivisionError
                  else log LogInfo) ;;
             time_sleep check_interval ;;
             ret None
         end
     end)
    (fun _ => log LogError ;; time_sleep check_interval ;; ret None).

Fixpoint wait_loop (gw : Gateway) (fuel : nat)
    (start_time max_wait_time check_interval : Z) : M World bool :=
  now <- time_time ;;
  if now - start_time <? max_wait_time then
    match fuel with
    | O => lift Diverge
    | S fuel' =>
        r <- poll gw check_interval ;;
        match r with
        | Some b => ret b
        | None => wait_loop gw fuel' start_time max_wait_time check_interval
        end
    end
  else log LogWarning ;; ret false.

Definition wait_for_orders_completion (gw : Gateway) (fuel : nat)
    (max_wait_time check_interval : Z) : M World bool :=
  start_time <- time_time ;;
  log LogInfo ;;
  wait_loop gw fuel start_time max_wait_time check_interval.

(** *** execute_rebalance *)

(** Step 1: the difference between holdings and plan.  A dict is walked in
    the order of [map_to_list]; the insertion order of the Python dict is not
    kept, and no statement below depends on it. *)
Definition sell_list (target_volumes : gmap string Z)
    (current_position : gmap string Position) : list (string * Z) :=
  omap (fun item : string * Position =>
          let current_volume := can_use_volume item.2 in
          let target_volume := default 0 (target_volumes !! item.1) in
          if target_volume <? current_volume
          then Some (item.1, current_volume - target_volume)
          else None)
       (map_to_list current_position).

Definition buy_list (target_volumes : gmap string Z)
    (current_position : gmap string Position) : list (string * Z) :=
  omap (fun item : string * Z =>
          let target_volume := item.2 in
          let current_volume :=
            default 0 (can_use_volume <$> current_position !! item.1) in
          if current_volume <? target_volume
          then Some (item.1, target_volume - current_volume)
          else None)
       (map_to_list target_volumes).

(** The price level a phase quotes at: sells at [bidPrice[4]], buys at
    [askPrice[4]]. *)
Definition ladder (side : Side) (tick : Tick) : list float :=
  match side with
  | STOCK_SELL => bidPrice tick
  | STOCK_BUY => askPrice tick
  end.

Definition remark_of (side : Side) : string :=
  match side with
  | STOCK_SELL => "sell_stock"
  | STOCK_BUY => "buy_stock"
  end.

(** Placing the order(s) for one stock: split into lots for the STAR
    market, one order otherwise. *)
Definition place (gw : Gateway) (fuel : nat) (side : Side)
    (code : string) (vol : Z) (price : float) : M World unit :=
  if _is_star_market code then
    splits <- lift (_split_order_volume fuel vol 100000) ;;
    log LogInfo ;;
    iter (imap (fun i split_volume => (S i, split_volume)) splits)
      (fun numbered =>
         order_stock gw code side numbered.2 price
           (remark_of side +:+ "_split_" +:+ pretty numbered.1) ;;
         log LogInfo)
  else
    order_stock gw code side vol price (remark_of side) ;;
    log LogInfo.

(** Steps 2-3 (sell) and 4-5 (buy) have the same shape.  [Some false] is
    [return False]; [None] lets [execute_rebalance] go on. *)
Definition phase (gw : Gateway) (fuel : nat) (side : Side)
    (orders : list (string * Z)) : M World (option bool) :=
  log LogInfo ;; log LogInfo ;; log LogInfo ;;
  let stock_list := orders.*1 in
  fetched <- try_except
               (d <- get_full_tick gw stock_list ;; ret (Some d))
               (fun _ => log LogError ;; ret None) ;;
  match fetched with
  | None => ret (Some false)
  | Some realtime_data =>
      iter orders
        (fun item =>
           match realtime_data !! item.1 with
           | None => log LogWarning
           | Some tick =>
               price <- lift (index (ladder side tick) 4) ;;
               if (price =? 0)%float then log LogWarning
               else place gw fuel side item.1 item.2 price
           end) ;;
      log LogInfo ;;
      filled <- wait_for_orders_completion gw fuel MAX_WAIT_TIME CHECK_INTERVAL ;;
      if filled then ret None else log LogError ;; ret (Some false)
  end.

Definition execute_rebalance (gw : Gateway) (fuel : nat)
    (target_volumes : gmap string Z) (current_position : gmap string Position)
  : M World bool :=
  log LogInfo ;; log LogInfo ;; log LogInfo ;;
  let sells := sell_list target_volumes current_position in
  let buys := buy_list target_volumes current_position in
  iter sells (fun _ => log LogInfo) ;;
  iter buys (fun _ => log LogInfo) ;;
  sold <- match sells with
          | [] => ret None
          | _ => phase gw fuel STOCK_SELL sells
          end ;;
  match sold with
  | Some r => ret r
  | None =>
      bought <- match buys with
                | [] => ret None
                | _ => phase gw fuel STOCK_BUY buys
                end ;;
      match bought with
      | Some r => ret r
      | None => log LogInfo ;; log LogInfo ;; log LogInfo ;; ret true
      end
  end.

(** *** The session: connect, get_account_info, get_current_position *)

(** The answer of [query_stock_asset]. *)
Record Asset : Type :=
  { total_asset : float; cash : float; asset_market_value : float;
    frozen_cash : float }.

(** One entry of [query_stock_positions]. *)
Record XtPosition : Type :=
  { pos_stock_code : string; pos_volume : Z; pos_can_use_volume : Z;
    pos_market_value : float; pos_avg_price : float }.

(** The session calls of [xt_trader] as an oracle on the calls made so far.
    A call may answer, raise, or never come back; the two queries answer
    [None] when the broker has nothing to give.  [xt_seconds] is the time a
    session call takes. *)
Record Broker : Type :=
  { xt_start : list Event -> outcome unit;
    xt_connect : list Event -> outcome Z;
    xt_query_stock_asset : list Event -> outcome (option Asset);
    xt_query_stock_positions : list Event -> outcome (option (list XtPosition));
    xt_seconds : list Event -> N }.

(** A session call: it is recorded, takes its time and ends as the broker
    says. *)
Definition session_call {A} (br : Broker) (ev : Event)
    (answer : list Event -> outcome A) : M World A :=
  fun w =>
    (answer (trace w),
     {| clock := clock w + Z.of_N (xt_seconds br (trace w));
        trace := trace w ++ [ev];
        logs := logs w |}).

Definition connect (br : Broker) : M World bool :=
  log LogInfo ;;
  session_call br EvStart (xt_start br) ;;
  connect_result <- session_call br EvConnect (xt_connect br) ;;
  if connect_result =? 0 then log LogInfo ;; ret true
  else log LogError ;; ret false.

(** [res.total_asset] on [None] is an [AttributeError]. *)
Definition get_account_info (br : Broker) : M World Asset :=
  res <- session_call br EvQueryAsset (xt_query_stock_asset br) ;;
  asset <- match res with
           | Some res => ret res
           | None => raise AttributeError
           end ;;
  log LogInfo ;;
  ret asset.

(** The dict entry that [get_current_position] builds from a position. *)
Definition position_entry (pos : XtPosition) : Position :=
  {| volume := pos_volume pos;
     can_use_volume := pos_can_use_volume pos;
     market_value := pos_market_value pos;
     avg_price := pos_avg_price pos |}.

(** The query is made outside any [try]; [for pos in None] is a
    [TypeError].  The accumulator of the loop is the dict built so far with
    the count of the positions filtered out. *)
Definition get_current_position (br : Broker) : M World (gmap string Position) :=
  positions <- session_call br EvQueryPositions (xt_query_stock_positions br) ;;
  positions <- match positions with
               | Some positions => ret positions
               | None => raise TypeError
               end ;;
  built <- fold_each positions ((∅ : gmap string Position), 0)
             (fun acc pos =>
                if pos_volume pos <=? 0
                then log LogWarning ;; ret (acc.1, acc.2 + 1)
                else ret (<[pos_stock_code pos := position_entry pos]> acc.1, acc.2)) ;;
  (if 0 <? built.2 then log LogInfo else ret tt) ;;
  log LogInfo ;;
  ret built.1.

End Trader.

(** ** utils/trading_calendar.py *)

Module Calendar.
Import Py.
#[local] Open Scope py_scope.

(** *** datetime.date and datetime.datetime *)

Record date : Type := { year : Z; month : Z; day : Z }.

#[export] Instance date_eq_dec : EqDecision date.
Proof. solve_decision. Defined.

#[export] Instance date_countable : Countable date.
Proof.
  apply (inj_countable' (fun d => (year d, month d, day d))
                        (fun t => {| year := t.1.1; month := t.1.2; day := t.2 |})).
  by intros [].
Defined.

Definition _is_leap (y : Z) : bool :=
  (y mod 4 =? 0) && (negb (y mod 100 =? 0) || (y mod 400 =? 0)).

Definition _days_before_year (y : Z) : Z :=
  let y' := y - 1 in
  y' * 365 + y' / 4 - y' / 100 + y' / 400.

Definition _DAYS_IN_MONTH : list Z :=
  [-1; 31; 28; 31; 30; 31; 30; 31; 31; 30; 31; 30; 31].

Definition _DAYS_BEFORE_MONTH : list Z :=
  [-1; 0; 31; 59; 90; 120; 151; 181; 212; 243; 273; 304; 334].

Definition _days_in_month (y m : Z) : Z :=
  if (m =? 2) && _is_leap y then 29
  else nth (Z.to_nat m) _DAYS_IN_MONTH 0.

Definition _days_before_month (y m : Z) : Z :=
  nth (Z.to_nat m) _DAYS_BEFORE_MONTH 0
  + (if (2 <? m) && _is_leap y then 1 else 0).

Definition toordinal (d : date) : Z :=
  _days_before_year (year d) + _days_before_month (year d) (month d) + day d.

(** Monday is 0, Sunday is 6. *)
Definition weekday (d : date) : Z := (toordinal d + 6) mod 7.

(** A date with the time of day in seconds. *)
Record datetime : Type := { dt_date : date; dt_seconds : Z }.

(** [a >= b] on datetimes. *)
Definition datetime_ge (a b : datetime) : bool :=
  let oa := toordinal (dt_date a) in
  let ob := toordinal (dt_date b) in
  (ob <? oa) || ((oa =? ob) && (dt_seconds b <=? dt_seconds a)).

(** The constructor [datetime(y, m, d)] checks its fields. *)
Definition mk_datetime (y m d : Z) : outcome datetime :=
  if (1 <=? y) && (y <=? 9999) && (1 <=? m) && (m <=? 12)
     && (1 <=? d) && (d <=? _days_in_month y m)
  then Ret {| dt_date := {| year := y; month := m; day := d |}; dt_seconds := 0 |}
  else Raise ValueError.

(** [f"{z:0{width}d}"]. *)
Fixpoint zeros (n : nat) : string :=
  match n with
  | O => ""
  | S n' => "0" +:+ zeros n'
  end.

Definition format_0d (width : nat) (z : Z) : string :=
  if z <? 0
  then let digits := pretty (- z) in
       "-" +:+ zeros (width - 1 - String.length digits) +:+ digits
  else let digits := pretty z in
       zeros (width - String.length digits) +:+ digits.

(** *** The state of the service and its surroundings *)

(** One month of the monthly cache; a record loaded from the cache file
    may lack its [expires_at]. *)
Record MonthEntry : Type :=
  { trading_days : list string; fetched_at : string; expires_at : option string }.

Record CacheFile : Type :=
  { cache_version : string; last_update : string;
    months : gmap string MonthEntry }.

Record State : Type :=
  { _trading_days_cache : gset date;
    _monthly_cache : gmap string MonthEntry;
    cache_file : option CacheFile }.

(** One day of the exchange's answer: [day_data.get("jybz")] and
    [day_data.get("jyrq")]. *)
Record DayData : Type := { jybz : option string; jyrq : option string }.

(** What [requests.get] leads to.  In a response, [json] is [None] when
    [response.json()] raises and otherwise [data.get("data", [])]. *)
Inductive HttpAnswer : Type :=
| HttpTimeout
| HttpFailure
| HttpResponse (status_code : Z) (json : option (list DayData)).

(** The membership test [check_date in table] on a table of
    [utils/holiday_constants.py]; that module is not part of the sources at
    hand, so a table is any object with a membership test, and the test may
    raise ([None]). *)
Definition Table : Type := date -> option bool.

Definition table_of_list (l : list date) : Table :=
  fun d => Some (bool_decide (d ∈ l)).

(** Everything outside the service: the two static tables, the clock, the
    exchange's web service, the file system, and the library routines that
    format and parse dates. *)
Record Env : Type :=
  { holidays : Table;
    workdays : Table;
    datetime_now : datetime;
    requests_get : string -> HttpAnswer;
    file_writable : bool;
    strftime_Ym : date -> string;            (* d.strftime("%Y-%m") *)
    strftime_Ymd : date -> string;           (* d.strftime("%Y-%m-%d") *)
    strptime_Ymd : string -> option date;    (* datetime.strptime(s, "%Y-%m-%d").date() *)
    isoformat : datetime -> string;
    fromisoformat : string -> option datetime }.

Definition of_option {S A} (e : exn) (o : option A) : M S A :=
  match o with
  | Some a => ret a
  | None => raise e
  end.

(** *** Methods *)

Definition _save_cache_to_file (env : Env) : M State unit :=
  try_except
    (fun s =>
       if file_writable env
       then (Ret tt,
             {| _trading_days_cache := _trading_days_cache s;
                _monthly_cache := _monthly_cache s;
                cache_file :=
                  Some {| cache_version := "1.0";
                          last_update := isoformat env (datetime_now env);
                          months := _monthly_cache s |} |})
       else (Raise RuntimeError, s))
    (fun _ => ret tt).

Definition http_get (env : Env) (month_str : string)
  : M State (Z * option (list DayData)) :=
  match requests_get env month_str with
  | HttpTimeout => raise RequestTimeout
  | HttpFailure => raise RuntimeError
  | HttpResponse status_code json => ret (status_code, json)
  end.

Definition add_trading_day (d : date) : M State unit :=
  modify (fun s => {| _trading_days_cache := {[ d ]} ∪ _trading_days_cache s;
                      _monthly_cache := _monthly_cache s;
                      cache_file := cache_file s |}).

Definition set_month (month_str : string) (entry : MonthEntry) : M State unit :=
  modify (fun s => {| _trading_days_cache := _trading_days_cache s;
                      _monthly_cache := <[month_str := entry]> (_monthly_cache s);
                      cache_file := cache_file s |}).

Definition _fetch_and_cache_month (env : Env) (y m : Z) : M State bool :=
  try_except
    (let month_str := format_0d 4 y +:+ "-" +:+ format_0d 2 m in
     response <- http_get env month_str ;;
     if negb (response.1 =? 200) then ret false
     else
       data <- of_option ValueError response.2 ;;
       days <- fold_each data []
                 (fun days day_data =>
                    if bool_decide (jybz day_data = Some "1") then
                      match jyrq day_data with
                      | Some date_str =>
                          if truthy date_str then
                            trading_day <- of_option ValueError (strptime_Ymd env date_str) ;;
                            add_trading_day trading_day ;;
                            ret (days ++ [trading_day])
                          else ret days
                      | None => ret days
                      end
                    else ret days) ;;
       next_month <- lift (if m =? 12 then mk_datetime (y + 1) 1 1
                           else mk_datetime y (m + 1) 1) ;;
       set_month month_str
         {| trading_days := strftime_Ymd env <$> days;
            fetched_at := isoformat env (datetime_now env);
            expires_at := Some (isoformat env next_month) |} ;;
       _save_cache_to_file env ;;
       ret true)
    (fun _ => ret false).

Definition _is_cache_expired (env : Env) (year_month : string) : M State bool :=
  try_except
    (s <- get ;;
     match _monthly_cache s !! year_month with
     | None => ret true
     | Some entry =>
         match expires_at entry with
         | None => ret true
         | Some expires_at_str =>
             if negb (truthy expires_at_str) then ret true
             else
               expires <- of_option ValueError (fromisoformat env expires_at_str) ;;
               ret (datetime_ge (datetime_now env) expires)
         end
     end)
    (fun _ => ret true).

Definition _is_trading_day_fallback (env : Env) (check_date : date) : M State bool :=
  try_except
    (if 5 <=? weekday check_date then ret false
     else
       is_holiday <- of_option RuntimeError (holidays env check_date) ;;
       if is_holiday then ret false
       else
         is_workday <- of_option RuntimeError (workdays env check_date) ;;
         if is_workday then ret true
         else ret true)
    (fun _ => ret false).

(** The body of the [try] in [is_trading_day]. *)
Definition is_trading_day_body (env : Env) (check_date : date) : M State bool :=
  s <- get ;;
  if bool_decide (check_date ∈ _trading_days_cache s) then ret true
  else
    let year_month := strftime_Ym env check_date in
    stale <- (if bool_decide (_monthly_cache s !! year_month = None) then ret true
              else _is_cache_expired env year_month) ;;
    (if stale : bool
     then _fetch_and_cache_month env (year check_date) (month check_date) ;; ret tt
     else ret tt) ;;
    s' <- get ;;
    if bool_decide (check_date ∈ _trading_days_cache s') then ret true
    else _is_trading_day_fallback env check_date.

Definition is_trading_day (env : Env) (check_date : date) : M State bool :=
  try_except (is_trading_day_body env check_date) (fun _ => ret false).

Definition clear_caches : M State unit :=
  modify (fun s => {| _trading_days_cache := ∅;
                      _monthly_cache := ∅;
                      cache_file := cache_file s |}).

Definition _preload_current_and_next_month (env : Env) : M State unit :=
  try_except
    (let now := dt_date (datetime_now env) in
     _fetch_and_cache_month env (year now) (month now) ;;
     let next := if month now =? 12 then (year now + 1, 1)
                 else (year now, month now + 1) in
     _fetch_and_cache_month env next.1 next.2 ;;
     ret tt)
    (fun _ => ret tt).

Definition refresh_calendar (env : Env) : M State bool :=
  try_except
    (clear_caches ;;
     _preload_current_and_next_month env ;;
     _save_cache_to_file env ;;
     ret true)
    (fun _ => ret false).

(** The cache file, when it exists, holds what [_save_cache_to_file] writes:
    an object with its [months]. *)
Definition _load_cache_from_file (env : Env) : M State unit :=
  try_except
    (s <- get ;;
     match cache_file s with
     | None => ret tt
     | Some cache_data =>
         modify (fun s => {| _trading_days_cache := ∅;
                             _monthly_cache := months cache_data;
                             cache_file := cache_file s |}) ;;
         iter (map_to_list (months cache_data))
           (fun month =>
              iter (trading_days month.2)
                (fun date_str =>
                   trading_day <- of_option ValueError (strptime_Ymd env date_str) ;;
                   add_trading_day trading_day))
     end)
    (fun _ => ret tt).

(** *** Date arithmetic and comparison *)

Definition _MAXORDINAL : Z := 3652059.
Definition _DI400Y : Z := 146097.
Definition _DI100Y : Z := 36524.
Definition _DI4Y : Z := 1461.

Definition _ord2ymd (n : Z) : date :=
  let n := n - 1 in
  let n400 := n / _DI400Y in
  let n := n mod _DI400Y in
  let y := n400 * 400 + 1 in
  let n100 := n / _DI100Y in
  let n := n mod _DI100Y in
  let n4 := n / _DI4Y in
  let n := n mod _DI4Y in
  let n1 := n / 365 in
  let n := n mod 365 in
  let y := y + (n100 * 100 + n4 * 4 + n1) in
  if (n1 =? 4) || (n100 =? 4)
  then {| year := y - 1; month := 12; day := 31 |}
  else
    let leapyear := (n1 =? 3) && (negb (n4 =? 24) || (n100 =? 3)) in
    let m := Z.shiftr (n + 50) 5 in
    let preceding := nth (Z.to_nat m) _DAYS_BEFORE_MONTH 0
                     + (if (2 <? m) && leapyear then 1 else 0) in
    if n <? preceding
    then
      let m := m - 1 in
      let preceding := preceding
                       - (nth (Z.to_nat m) _DAYS_IN_MONTH 0
                          + (if (m =? 2) && leapyear then 1 else 0)) in
      {| year := y; month := m; day := n - preceding + 1 |}
    else {| year := y; month := m; day := n - preceding + 1 |}.

(** [d + timedelta(days=days)]. *)
Definition date_add (d : date) (days : Z) : outcome date :=
  let o := toordinal d + days in
  if (0 <? o) && (o <=? _MAXORDINAL) then Ret (_ord2ymd o)
  else Raise OverflowError.

(** [a <= b] on dates: the comparison of [(year, month, day)]. *)
Definition date_le (a b : date) : bool :=
  (year a <? year b)
  || ((year a =? year b)
      && ((month a <? month b)
          || ((month a =? month b) && (day a <=? day b)))).

(** *** Searching the calendar *)

(** The [for _ in range(...)] loop of [get_next_trading_day]. *)
Fixpoint next_trading_day_loop (env : Env) (rounds : nat) (current_date : date)
    (found_count skip_days : Z) : M State (option date) :=
  match rounds with
  | O => ret None
  | S rounds' =>
      current_date <- lift (date_add current_date 1) ;;
      is_trading <- is_trading_day env current_date ;;
      if is_trading : bool then
        let found_count := found_count + 1 in
        if skip_days <=? found_count then ret (Some current_date)
        else next_trading_day_loop env rounds' current_date found_count skip_days
      else next_trading_day_loop env rounds' current_date found_count skip_days
  end.

Definition get_next_trading_day (env : Env) (from_date : date) (skip_days : Z)
  : M State (option date) :=
  try_except
    (let max_search_days := 30%nat in
     next_trading_day_loop env max_search_days from_date 0 skip_days)
    (fun _ => ret None).

(** The [while] loop of [get_trading_days]. *)
Fixpoint trading_days_loop (env : Env) (fuel : nat) (current_date end_date : date)
    (trading_days : list date) : M State (list date) :=
  match fuel with
  | O => lift Diverge
  | S fuel' =>
      if date_le current_date end_date then
        is_trading <- is_trading_day env current_date ;;
        let trading_days := if is_trading : bool
                            then trading_days ++ [current_date]
                            else trading_days in
        current_date <- lift (date_add current_date 1) ;;
        trading_days_loop env fuel' current_date end_date trading_days
      else ret trading_days
  end.

Definition get_trading_days (env : Env) (fuel : nat) (start_date end_date : date)
  : M State (list date) :=
  try_except (trading_days_loop env fuel start_date end_date [])
             (fun _ => ret []).

End Calendar.

(** ** utils/status_manager.py *)

(** The store on a file that is absent, unreadable, or holds a JSON object,
    which is what the store itself writes.  [StatusStore] below takes any
    file content. *)
Module StatusManager.
Import Py.
#[local] Open Scope py_scope.

(** The values that the status dict holds. *)
Inductive JsonValue : Type :=
| JBool (b : bool)
| JString (s : string)
| JNull.

(** The status file: absent, present but not readable as JSON, or holding
    a JSON object. *)
Inductive StatusFile : Type :=
| Missing
| Unreadable
| Stored (status : gmap string JsonValue).

Record Disk : Type := { status_file : StatusFile; writable : bool }.

Definition read_status : M Disk (option (gmap string JsonValue)) :=
  d <- get ;;
  match status_file d with
  | Missing => ret None
  | Unreadable =>
      try_except (raise ValueError) (fun _ => ret None)
  | Stored status => ret (Some status)
  end.

Definition write_status (status : gmap string JsonValue) : M Disk unit :=
  try_except
    (fun d =>
       if writable d
       then (Ret tt, {| status_file := Stored status; writable := writable d |})
       else (Raise RuntimeError, d))
    (fun _ => ret tt).

(** [read_status() or {}]. *)
Definition or_empty (r : option (gmap string JsonValue)) : gmap string JsonValue :=
  match r with
  | Some status => if bool_decide (status = ∅) then ∅ else status
  | None => ∅
  end.

Definition mark_completed (success : bool) (message : string) : M Disk unit :=
  r <- read_status ;;
  let status := or_empty r in
  let status := <["is_running" := JBool false]> status in
  let status := <["last_status" := JString (if success then "success" else "failed")]> status in
  let status := if truthy message
                then <["error_message" := JString message]> status
                else status in
  write_status status.

Definition update_next_run (next_run_time : string) : M Disk unit :=
  r <- read_status ;;
  let status := or_empty r in
  let status := <["next_run_time" := JString next_run_time]> status in
  write_status status.

(** [now] stands for [datetime.now().strftime("%Y-%m-%d %H:%M:%S")]. *)
Definition mark_running (now : string) : M Disk unit :=
  r <- read_status ;;
  let status := or_empty r in
  let status := <["is_running" := JBool true]> status in
  let status := <["last_run_time" := JString now]> status in
  write_status status.

End StatusManager.

(** ** utils/status_manager.py on any file *)

(** [StatusManager] above is the store on a file that holds what the store
    itself writes, a JSON object, or nothing that can be read, and on a disk
    that takes a write or refuses it as a whole.  Here the file may hold any
    JSON document, and a write may also fail after the file has been opened,
    which leaves the file truncated. *)
Module StatusStore.
Import Py StatusManager.
#[local] Open Scope py_scope.

(** A Python value as [json.load] builds it; [VNone] is also what
    [read_status] answers for a file that it cannot read.  A list is kept by
    its length: only its truth value matters below. *)
Inductive Value : Type :=
| VDict (status : gmap string JsonValue)
| VList (length : nat)
| VStr (s : string)
| VInt (n : Z)
| VFloat (x : float)
| VBool (b : bool)
| VNone.

(** [bool(value)]. *)
Definition value_truthy (v : Value) : bool :=
  match v with
  | VDict status => negb (bool_decide (status = ∅))
  | VList length => negb (length =? 0)%nat
  | VStr s => truthy s
  | VInt n => negb (n =? 0)
  | VFloat x => negb (x =? 0)%float
  | VBool b => b
  | VNone => false
  end.

(** The status file: absent, present but not readable as JSON (also: empty
    or cut short), or holding a JSON document. *)
Inductive Content : Type :=
| Absent
| Garbled
| Holds (document : Value).

(** How a write ends: the document is stored; [open] fails and the file is
    left as it was; or [json.dump] fails after [open(..., "w")] has truncated
    the file. *)
Inductive Fate : Type := Succeeds | OpenFails | DumpFails.

(** The file, the fate of each write by its number, and the number of writes
    made so far. *)
Record Store : Type :=
  { content : Content; fate : nat -> Fate; writes : nat }.

Definition read_status : M Store Value :=
  d <- get ;;
  match content d with
  | Absent => ret VNone
  | Garbled => try_except (raise ValueError) (fun _ => ret VNone)
  | Holds document => try_except (ret document) (fun _ => ret VNone)
  end.

Definition write_status (status : Value) : M Store unit :=
  try_except
    (fun d =>
       match fate d (writes d) with
       | Succeeds =>
           (Ret tt, {| content := Holds status; fate := fate d; writes := S (writes d) |})
       | OpenFails =>
           (Raise RuntimeError,
            {| content := content d; fate := fate d; writes := S (writes d) |})
       | DumpFails =>
           (Raise RuntimeError,
            {| content := Garbled; fate := fate d; writes := S (writes d) |})
       end)
    (fun _ => ret tt).

(** [read_status() or {}]. *)
Definition or_empty (r : Value) : Value :=
  if value_truthy r then r else VDict ∅.

(** [status[key] = value]: a dict takes it; a list, a string, a number and
    a boolean raise [TypeError]. *)
Definition set_item (status : Value) (key : string) (value : JsonValue) : outcome Value :=
  match status with
  | VDict fields => Ret (VDict (<[key := value]> fields))
  | _ => Raise TypeError
  end.

Definition update_next_run (next_run_time : string) : M Store unit :=
  r <- read_status ;;
  let status := or_empty r in
  status <- lift (set_item status "next_run_time" (JString next_run_time)) ;;
  write_status status.

(** [now] stands for [datetime.now().strftime("%Y-%m-%d %H:%M:%S")]. *)
Definition mark_running (now : string) : M Store unit :=
  r <- read_status ;;
  let status := or_empty r in
  status <- lift (set_item status "is_running" (JBool true)) ;;
  status <- lift (set_item status "last_run_time" (JString now)) ;;
  write_status status.

Definition mark_completed (success : bool) (message : string) : M Store unit :=
  r <- read_status ;;
  let status := or_empty r in
  status <- lift (set_item status "is_running" (JBool false)) ;;
  status <- lift (set_item status "last_status"
                    (JString (if success then "success" else "failed"))) ;;
  status <- (if truthy message
             then lift (set_item status "error_message" (JString message))
             else ret status) ;;
  write_status status.

(** A disk of [StatusManager] as a store. *)
Definition store_of (d : Disk) : Store :=
  {| content := match status_file d with
                | Missing => Absent
                | Unreadable => Garbled
                | Stored status => Holds (VDict status)
                end;
     fate := fun _ => if writable d then Succeeds else OpenFails;
     writes := 0 |}.

End StatusStore.

(** ** core/data_handler.py and core/scheduler_runner.py *)

Module Runner.
Import Py Trader.
#[local] Open Scope py_scope.

(** *** get_target_position *)

(** One row of the position table; the [date] column holds [YYYYMMDD]
    strings. *)
Record Row : Type :=
  { row_date : string; row_stock_code : string; row_weight : float }.

(** The order of Python strings. *)
Definition str_le (a b : string) : Prop := String.leb a b = true.

#[export] Instance str_le_dec (a b : string) : Decision (str_le a b).
Proof. unfold str_le. apply _. Defined.

(** [df[df['date'] == target_date]]. *)
Definition rows_of (target_date : string) (df : list Row) : list Row :=
  filter (fun row => row_date row = target_date) df.

(** [sorted(df['date'].unique())]. *)
Definition available_dates (df : list Row) : list string :=
  merge_sort str_le (remove_dups (row_date <$> df)).

(** [xs[-1]]. *)
Definition last_item {A} (xs : list A) : outcome A :=
  match last xs with
  | Some x => Ret x
  | None => Raise IndexError
  end.

(** [today] stands for [datetime.now().strftime('%Y%m%d')]. *)
Definition get_target_position (today : string) (df : list Row) : M World (list Row) :=
  let target_date := today in
  log LogInfo ;;
  let target_df := rows_of target_date df in
  if (length target_df =? 0)%nat then
    let available_dates := available_dates df in
    if (0 <? length available_dates)%nat then
      target_date <- lift (last_item available_dates) ;;
      log LogWarning ;;
      let target_df := rows_of target_date df in
      log LogInfo ;;
      ret target_df
    else
      log LogError ;;
      ret []
  else
    log LogInfo ;;
    ret target_df.

(** *** The trading session *)

(** What a run meets besides the calendar, the status file and the order
    calls of the gateway: the time stamps it reads, the position file, the
    broker of the trader, and the text of an exception. *)
Record Session : Type :=
  { today : string;                           (* datetime.now().strftime('%Y%m%d') *)
    started : string;                         (* the time stamp of mark_running *)
    load_latest_position : outcome (option (list Row));
    xt_trader : Broker;
    str_of : exn -> string }.                 (* f"{e}" *)

(** *** _wait_until_open *)

(** [now.replace(hour=hour, minute=minute, second=0, microsecond=0)], the
    clock counting the seconds since some midnight. *)
Definition replace_time (now hour minute : Z) : outcome Z :=
  if (0 <=? hour) && (hour <=? 23) && (0 <=? minute) && (minute <=? 59)
  then Ret (now - now mod 86400 + hour * 3600 + minute * 60)
  else Raise ValueError.

(** The runner writes its progress to a log of its own, which is left out
    here, as is [_log_trade_plan], which only writes to that log. *)
Fixpoint _wait_until_open (fuel : nat) (target_hour target_minute : Z) : M World unit :=
  match fuel with
  | O => lift Diverge
  | S fuel' =>
      now <- time_time ;;
      target_time <- lift (replace_time now target_hour target_minute) ;;
      if target_time <=? now then ret tt
      else
        let remaining := target_time - now in
        if 60 <? remaining then
          time_sleep 30 ;;
          _wait_until_open fuel' target_hour target_minute
        else if 0 <? remaining then
          time_sleep remaining
        else ret tt
  end.

(** *** execute_trading *)

(** The three stores that a run works on. *)
Record System : Type :=
  { calendar : Calendar.State; disk : StatusStore.Store; world : World }.

Definition on_calendar {A} (m : M Calendar.State A) : M System A :=
  fun sys =>
    let r := m (calendar sys) in
    (r.1, {| calendar := r.2; disk := disk sys; world := world sys |}).

Definition on_disk {A} (m : M StatusStore.Store A) : M System A :=
  fun sys =>
    let r := m (disk sys) in
    (r.1, {| calendar := calendar sys; disk := r.2; world := world sys |}).

Definition on_world {A} (m : M World A) : M System A :=
  fun sys =>
    let r := m (world sys) in
    (r.1, {| calendar := calendar sys; disk := disk sys; world := r.2 |}).

Definition is_trading_day_today (env : Calendar.Env) : M System bool :=
  try_except
    (let today := Calendar.dt_date (Calendar.datetime_now env) in
     is_trading <- on_calendar (Calendar.is_trading_day env today) ;;
     ret is_trading)
    (fun _ => ret false).

(** The rows as [calculate_target_volume] reads them. *)
Definition weights (target_df : list Row) : list (string * float) :=
  (fun row => (row_stock_code row, row_weight row)) <$> target_df.

(** Stages 1 and 2 of [execute_trading]: the preparation, with the session
    calls of the broker, and the wait for 09:30.  [ConnectionError] is raised
    as [RuntimeError]; the handler treats all exceptions alike. *)
Definition prepare (ses : Session) (wait_fuel : nat)
  : M World (list Row * Asset * gmap string Position) :=
  df <- lift (load_latest_position ses) ;;
  df <- match df with
        | None => raise ValueError
        | Some df => if (length df =? 0)%nat then raise ValueError else ret df
        end ;;
  target_df <- get_target_position (today ses) df ;;
  (if (length target_df =? 0)%nat then raise ValueError else ret tt) ;;
  connected <- connect (xt_trader ses) ;;
  (if negb connected then raise RuntimeError else ret tt) ;;
  account_info <- get_account_info (xt_trader ses) ;;
  current_position <- get_current_position (xt_trader ses) ;;
  _wait_until_open wait_fuel 9 30 ;;
  ret (target_df, account_info, current_position).

(** Stage 3: the plan, the orders and the verdict. *)
Definition trade (gw : Gateway) (fuel : nat)
    (prepared : list Row * Asset * gmap string Position) : M System bool :=
  let target_df := prepared.1.1 in
  let account_info := prepared.1.2 in
  let current_position := prepared.2 in
  target_volumes <- on_world (calculate_target_volume gw (weights target_df)
                                (total_asset account_info)) ;;
  if bool_decide (target_volumes = ∅) then
    on_disk (StatusStore.mark_completed false "计算目标股数失败") ;;
    ret false
  else
    success <- on_world (execute_rebalance gw fuel target_volumes current_position) ;;
    if success : bool then
      on_disk (StatusStore.mark_completed true "调仓执行成功") ;;
      ret true
    else
      on_disk (StatusStore.mark_completed false "调仓执行失败") ;;
      ret false.

Definition execute_trading (env : Calendar.Env) (gw : Gateway) (ses : Session)
    (wait_fuel fuel : nat) : M System bool :=
  is_trading <- is_trading_day_today env ;;
  if negb is_trading then ret true
  else
    on_disk (StatusStore.mark_running (started ses)) ;;
    try_except
      (prepared <- on_world (prepare ses wait_fuel) ;;
       trade gw fuel prepared)
      (fun e =>
         let error_msg := "执行调仓时发生错误: " +:+ str_of ses e in
         on_disk (StatusStore.mark_completed false error_msg) ;;
         ret false).

End Runner.

(** ** Vocabulary of the statements *)

Module Reference.
Import Py Trader.

(** Rounding to the nearest integer with ties away from zero, the
    convention that the specification names. *)
Definition round_half_away (x : Q) : Z :=
  let d := Z.pos (Qden x) in
  if Qnum x <? 0
  then - ((2 * - Qnum x + d) / (2 * d))
  else (2 * Qnum x + d) / (2 * d).

(** The specification's [round(x/100)*100] under that convention. *)
Definition round_to_hundred (x : Q) : Z :=
  round_half_away (x / (100 # 1))%Q * 100.

(** [x] lies exactly half-way between two integers. *)
Definition is_tie (x : Q) : Prop := 2 * (Qnum x mod Z.pos (Qden x)) = Z.pos (Qden x).

Definition total (parts : list Z) : Z := foldr Z.add 0 parts.

(** Holdings and targets with Python's [dict.get(key, 0)] default. *)
Definition current_of (current_position : gmap string Position) (code : string) : Z :=
  default 0 (can_use_volume <$> current_position !! code).
Definition target_of (target_volumes : gmap string Z) (code : string) : Z :=
  default 0 (target_volumes !! code).

(** Classification of the calls in a trace. *)
Definition is_order (side : Side) (e : Event) : bool :=
  match e, side with
  | EvOrderStock _ STOCK_BUY _ _ _, STOCK_BUY => true
  | EvOrderStock _ STOCK_SELL _ _ _, STOCK_SELL => true
  | _, _ => false
  end.

Definition is_any_order (e : Event) : bool :=
  match e with EvOrderStock _ _ _ _ _ => true | _ => false end.

Definition is_cancel (e : Event) : bool :=
  match e with EvCancelOrder _ => true | _ => false end.

Definition is_query (e : Event) : bool :=
  match e with EvQueryOrders _ => true | _ => false end.

Definition is_sleep (e : Event) : bool :=
  match e with EvSleep _ => true | _ => false end.

(** An order that still waits for shares. *)
Definition pending (order : XtOrder) : bool :=
  traded_volume order <? order_volume order.

(** An order list on which the fill-wait succeeds: empty, or nothing
    pending. *)
Definition all_filled (orders : list XtOrder) : bool :=
  forallb (fun order => negb (pending order)) orders.

(** A status query that came back with every order filled. *)
Definition filled_poll (e : Event) : bool :=
  match e with
  | EvQueryOrders (Some orders) => all_filled orders
  | _ => false
  end.

Definition polls (tr : list Event) : Z :=
  Z.of_nat (length (List.filter is_query tr)).

(** A gateway on which orders never fill: every status query raises or
    shows something pending. *)
Definition never_filled (gw : Gateway) : Prop :=
  forall history,
    match gw_query_stock_orders gw history with
    | Some orders => all_filled orders = false
    | None => True
    end.

(** What one turn of the polling loop does, by the answer of the
    gateway: it returns true on a filled list; otherwise it sleeps one
    interval and lets the loop go on, or fails on a negative interval. *)
Inductive poll_step (gw : Gateway) (check_interval : Z) (w : World)
  : outcome (option bool) -> World -> Prop :=
| poll_filled w' :
    filled_poll (EvQueryOrders (gw_query_stock_orders gw (trace w))) = true ->
    trace w' = trace w ++ [EvQueryOrders (gw_query_stock_orders gw (trace w))] ->
    clock w' = clock w + Z.of_N (gw_query_seconds gw (trace w)) ->
    logs w' = logs w ++ [LogInfo] ->
    poll_step gw check_interval w (Ret (Some true)) w'
| poll_again w' :
    filled_poll (EvQueryOrders (gw_query_stock_orders gw (trace w))) = false ->
    0 <= check_interval ->
    trace w' = trace w ++ [EvQueryOrders (gw_query_stock_orders gw (trace w));
                           EvSleep check_interval] ->
    clock w' = clock w + Z.of_N (gw_query_seconds gw (trace w)) + check_interval ->
    (gw_query_stock_orders gw (trace w) = None -> logs w' = logs w ++ [LogError]) ->
    poll_step gw check_interval w (Ret None) w'
| poll_bad_interval w' :
    filled_poll (EvQueryOrders (gw_query_stock_orders gw (trace w))) = false ->
    check_interval < 0 ->
    trace w' = trace w ++ [EvQueryOrders (gw_query_stock_orders gw (trace w))] ->
    poll_step gw check_interval w (Raise ValueError) w'.

(** Code all of whose calls satisfy [P], however it ends. *)
Definition emits {A} (P : Event -> Prop) (m : M World A) : Prop :=
  forall w r w', m w = (r, w') ->
    exists new, trace w' = trace w ++ new /\ Forall P new.

(** A row that [calculate_target_volume] skips: no quote for the stock,
    or a third-level ask price of zero. *)
Definition is_skipped (realtime_data : gmap string Tick) (code : string) : bool :=
  match realtime_data !! code with
  | None => true
  | Some tick =>
      match askPrice tick !! 2%nat with
      | Some price => (price =? 0)%float
      | None => false
      end
  end.

(** Code that comes back: with a value or with an exception. *)
Definition comes_back {S A} (m : M S A) : Prop :=
  forall s, (m s).1 <> Diverge.

(** The verdict of the static tier of the calendar: a weekday that the
    holiday table does not list, both membership tests having answered. *)
Definition fallback_verdict (env : Calendar.Env) (d : Calendar.date) : bool :=
  (Calendar.weekday d <? 5)
  && bool_decide (Calendar.holidays env d = Some false)
  && bool_decide (is_Some (Calendar.workdays env d)).

(** The fields that the status file holds before a call. *)
Definition persisted (d : StatusManager.Disk) : gmap string StatusManager.JsonValue :=
  match StatusManager.status_file d with
  | StatusManager.Stored status => status
  | _ => ∅
  end.

(** An order that a phase may place for one of its list's entries: of the
    phase's side, for a listed stock, with a positive volume no larger than
    the listed one, at a price that is not zero; for the STAR market no more
    than 100000 shares. *)
Definition order_within (side : Side) (orders : list (string * Z)) (e : Event) : Prop :=
  match e with
  | EvOrderStock code s vol price _ =>
      s = side
      /\ (exists listed, (code, listed) ∈ orders /\ 0 < vol <= listed)
      /\ (price =? 0)%float = false
      /\ (_is_star_market code = true -> vol <= 100000)
  | _ => True
  end.

(** The key of a month in the monthly cache: [f"{year:04d}-{month:02d}"]. *)
Definition month_key (y m : Z) : string :=
  Calendar.format_0d 4 y +:+ "-" +:+ Calendar.format_0d 2 m.

(** The date strings that an answer of the exchange lists as trading days. *)
Definition listed_days (data : list Calendar.DayData) : list string :=
  omap (fun day_data =>
          if bool_decide (Calendar.jybz day_data = Some "1") then
            match Calendar.jyrq day_data with
            | Some date_str => if Py.truthy date_str then Some date_str else None
            | None => None
            end
          else None) data.

(** The trading days of a month as the exchange gives them now: none unless
    the request is answered with status 200, the body is JSON and every
    listed date parses. *)
Definition fetched_days (env : Calendar.Env) (y m : Z) : option (list Calendar.date) :=
  match Calendar.requests_get env (month_key y m) with
  | Calendar.HttpResponse status_code (Some data) =>
      if status_code =? 200 then mapM (Calendar.strptime_Ymd env) (listed_days data)
      else None
  | _ => None
  end.

(** Midnight of the first day of the following month. *)
Definition next_month_start (y m : Z) : Py.outcome Calendar.datetime :=
  if m =? 12 then Calendar.mk_datetime (y + 1) 1 1 else Calendar.mk_datetime y (m + 1) 1.

(** The entry and the file that a successful fetch leaves. *)
Definition month_entry (env : Calendar.Env) (days : list Calendar.date)
    (expires : Calendar.datetime) : Calendar.MonthEntry :=
  {| Calendar.trading_days := Calendar.strftime_Ymd env <$> days;
     Calendar.fetched_at := Calendar.isoformat env (Calendar.datetime_now env);
     Calendar.expires_at := Some (Calendar.isoformat env expires) |}.

Definition saved (env : Calendar.Env) (monthly : gmap string Calendar.MonthEntry)
    (before : option Calendar.CacheFile) : option Calendar.CacheFile :=
  if Calendar.file_writable env
  then Some {| Calendar.cache_version := "1.0";
               Calendar.last_update := Calendar.isoformat env (Calendar.datetime_now env);
               Calendar.months := monthly |}
  else before.

(** No trading day and no month is lost from one state to the next. *)
Definition extends (s s' : Calendar.State) : Prop :=
  Calendar._trading_days_cache s ⊆ Calendar._trading_days_cache s'
  /\ dom (Calendar._monthly_cache s) ⊆ dom (Calendar._monthly_cache s').

(** A date that [datetime.date] accepts. *)
Definition valid_date (d : Calendar.date) : Prop :=
  1 <= Calendar.year d <= 9999
  /\ 1 <= Calendar.month d <= 12
  /\ 1 <= Calendar.day d <= Calendar._days_in_month (Calendar.year d) (Calendar.month d).

(** 09:30 of the day of a clock reading, in seconds. *)
Definition opening (now : Z) : Z := now - now mod 86400 + 34200.

(** The seconds slept in a stretch of calls. *)
Definition slept (events : list Trader.Event) : Z :=
  foldr (fun e total => match e with
                        | Trader.EvSleep seconds => seconds + total
                        | _ => total
                        end) 0 events.

(** Code that makes no call and takes no time, apart from its log lines. *)
Definition quiet {A} (m : Py.M Trader.World A) : Prop :=
  forall w r w', m w = (r, w') ->
    Trader.trace w' = Trader.trace w /\ Trader.clock w' = Trader.clock w.

(** The session calls of the broker, in the order [execute_trading] makes
    them. *)
Definition session_calls : list Event :=
  [EvStart; EvConnect; EvQueryAsset; EvQueryPositions].

Definition is_session (e : Event) : bool :=
  match e with
  | EvStart | EvConnect | EvQueryAsset | EvQueryPositions => true
  | _ => false
  end.

(** The time that a stretch of session calls takes when it starts after
    the calls [history]. *)
Fixpoint session_time (br : Broker) (history made : list Event) : Z :=
  match made with
  | [] => 0
  | e :: rest => Z.of_N (xt_seconds br history) + session_time br (history ++ [e]) rest
  end.

(** Code that makes the session calls [calls] in this order and nothing
    else: all of them when it returns, the first few when it raises or hangs;
    the clock moves by the time that the calls made take. *)
Definition makes {A} (br : Broker) (calls : list Event) (m : Py.M World A) : Prop :=
  forall w r w', m w = (r, w') ->
    exists made,
      trace w' = trace w ++ made
      /\ made `prefix_of` calls
      /\ clock w' = clock w + session_time br (trace w) made
      /\ (forall a, r = Py.Ret a -> made = calls).

(** A broker whose calls all come back, with an answer or an exception. *)
Definition answering (br : Broker) : Prop :=
  forall history,
    xt_start br history <> Py.Diverge
    /\ xt_connect br history <> Py.Diverge
    /\ xt_query_stock_asset br history <> Py.Diverge
    /\ xt_query_stock_positions br history <> Py.Diverge.

(** A session whose calls all come back. *)
Definition responsive (ses : Runner.Session) : Prop :=
  Runner.load_latest_position ses <> Py.Diverge
  /\ answering (Runner.xt_trader ses).

(** The status object as [mark_running] and [mark_completed] rewrite it,
    and the disk after a write. *)
Definition running (now : string) (status : gmap string StatusManager.JsonValue)
  : gmap string StatusManager.JsonValue :=
  <["last_run_time" := StatusManager.JString now]>
    (<["is_running" := StatusManager.JBool true]> status).

Definition completed (success : bool) (message : string)
    (status : gmap string StatusManager.JsonValue)
  : gmap string StatusManager.JsonValue :=
  let status :=
    <["last_status" := StatusManager.JString (if success then "success" else "failed")]>
      (<["is_running" := StatusManager.JBool false]> status) in
  if Py.truthy message
  then <["error_message" := StatusManager.JString message]> status
  else status.

(** What a read of the store answers: the document, or [None]. *)
Definition document_of (d : StatusStore.Store) : StatusStore.Value :=
  match StatusStore.content d with
  | StatusStore.Holds document => document
  | _ => StatusStore.VNone
  end.

(** The status dict that an update of the store starts from: the object
    in the file, or the empty dict. *)
Definition recorded (d : StatusStore.Store) : gmap string StatusManager.JsonValue :=
  match StatusStore.content d with
  | StatusStore.Holds (StatusStore.VDict status) => status
  | _ => ∅
  end.

(** A file whose document no update can take: it is readable, true as a
    Python value, and not an object. *)
Definition foreign (d : StatusStore.Store) : bool :=
  match StatusStore.content d with
  | StatusStore.Holds (StatusStore.VDict _) => false
  | StatusStore.Holds document => StatusStore.value_truthy document
  | _ => false
  end.

(** The store after a write of a status dict, by the fate of that write. *)
Definition written (d : StatusStore.Store)
    (status : gmap string StatusManager.JsonValue) : StatusStore.Store :=
  {| StatusStore.content :=
       match StatusStore.fate d (StatusStore.writes d) with
       | StatusStore.Succeeds => StatusStore.Holds (StatusStore.VDict status)
       | StatusStore.OpenFails => StatusStore.content d
       | StatusStore.DumpFails => StatusStore.Garbled
       end;
     StatusStore.fate := StatusStore.fate d;
     StatusStore.writes := S (StatusStore.writes d) |}.

(** What a run trades on: the plan that [calculate_target_volume] answers
    after the preparation, with the holdings that the preparation read. *)
Definition planned (gw : Gateway) (ses : Runner.Session) (wait_fuel : nat) (w : World)
  : option (gmap string Z * gmap string Position) :=
  match Runner.prepare ses wait_fuel w with
  | (Py.Ret prepared, w1) =>
      match calculate_target_volume gw (Runner.weights prepared.1.1)
              (total_asset prepared.1.2) w1 with
      | (Py.Ret plan, _) => Some (plan, prepared.2)
      | _ => None
      end
  | _ => None
  end.

End Reference.

(** ** Concrete inputs used in examples *)

Module Scenario.
Import Py Trader Calendar StatusManager.

(** The end-to-end scenario of the specification: plan {A: 300, B: 0},
    holdings {A: 100, B: 200}. *)
Definition scenario_plan : gmap string Z := <["A" := 300]> (<["B" := 0]> ∅).
Definition scenario_holdings : gmap string Position :=
  <["A" := {| volume := 100; can_use_volume := 100; market_value := 0; avg_price := 0 |}]>
    (<["B" := {| volume := 200; can_use_volume := 200; market_value := 0; avg_price := 0 |}]> ∅).

Definition idle_world : World := {| clock := 0; trace := []; logs := [] |}.

Definition two_rows : list (string * float) :=
  [("600000.SH", 0.5%float); ("688022.SH", 0.5%float)].

(** A gateway whose quote call raises. *)
Definition quote_outage : Gateway :=
  {| gw_get_full_tick := fun _ _ => None;
     gw_order_stock := fun _ => Some 1;
     gw_query_stock_orders := fun _ => Some [];
     gw_query_seconds := fun _ => 0%N |}.

(** A gateway that quotes the first stock without liquidity at the third
    ask level and has no quote for the second. *)
Definition no_liquidity : Gateway :=
  {| gw_get_full_tick := fun _ _ =>
       Some (<["600000.SH" := {| askPrice := [10; 10; 0; 0; 0]%float;
                                  bidPrice := [9; 9; 9; 0; 0]%float |}]> ∅);
     gw_order_stock := fun _ => Some 1;
     gw_query_stock_orders := fun _ => Some [];
     gw_query_seconds := fun _ => 0%N |}.

(** A gateway on which one order of 100 shares never trades. *)
Definition stuck : Gateway :=
  {| gw_get_full_tick := fun _ _ => Some ∅;
     gw_order_stock := fun _ => Some 1;
     gw_query_stock_orders := fun _ =>
       Some [ {| stock_code := "600000.SH"; order_volume := 100; traded_volume := 0 |} ];
     gw_query_seconds := fun _ => 0%N |}.

(** A gateway on which the one order is filled at once. *)
Definition prompt : Gateway :=
  {| gw_get_full_tick := fun _ _ => Some ∅;
     gw_order_stock := fun _ => Some 1;
     gw_query_stock_orders := fun _ =>
       Some [ {| stock_code := "600000.SH"; order_volume := 100; traded_volume := 100 |} ];
     gw_query_seconds := fun _ => 0%N |}.

(** A gateway that quotes every stock of the scenario at 9 (bid) and 10
    (ask) on all levels, and on which the orders placed never trade. *)
Definition quoted_but_stuck : Gateway :=
  {| gw_get_full_tick := fun _ _ =>
       Some (<["A" := {| askPrice := [10; 10; 10; 10; 10]%float;
                         bidPrice := [9; 9; 9; 9; 9]%float |}]>
               (<["B" := {| askPrice := [10; 10; 10; 10; 10]%float;
                            bidPrice := [9; 9; 9; 9; 9]%float |}]> ∅));
     gw_order_stock := fun _ => Some 1;
     gw_query_stock_orders := fun _ =>
       Some [ {| stock_code := "B"; order_volume := 200; traded_volume := 0 |} ];
     gw_query_seconds := fun _ => 0%N |}.

(** The same quotes, with every order filled at the first look. *)
Definition quoted_and_filled : Gateway :=
  {| gw_get_full_tick := gw_get_full_tick quoted_but_stuck;
     gw_order_stock := fun _ => Some 1;
     gw_query_stock_orders := fun _ => Some [];
     gw_query_seconds := fun _ => 0%N |}.

Definition ymd (y m d : Z) : date := {| year := y; month := m; day := d |}.

(** A calendar whose remote source cannot be reached, with New Year's Day
    2024 as a holiday and Sunday 2024-02-04 as a compensatory workday. *)
Definition offline_env : Env :=
  {| holidays := table_of_list [ymd 2024 1 1];
     workdays := table_of_list [ymd 2024 2 4];
     datetime_now := {| dt_date := ymd 2024 1 15; dt_seconds := 0 |};
     requests_get := fun _ => HttpTimeout;
     file_writable := true;
     strftime_Ym := fun d => format_0d 4 (year d) +:+ "-" +:+ format_0d 2 (month d);
     strftime_Ymd := fun d =>
       format_0d 4 (year d) +:+ "-" +:+ format_0d 2 (month d)
       +:+ "-" +:+ format_0d 2 (day d);
     strptime_Ymd := fun _ => None;
     isoformat := fun _ => "";
     fromisoformat := fun _ => None |}.

Definition fresh_state : State :=
  {| _trading_days_cache := ∅; _monthly_cache := ∅; cache_file := None |}.

(** A status file left by a failed run. *)
Definition failed_status : gmap string JsonValue :=
  <["is_running" := JBool true]>
    (<["last_status" := JString "failed"]>
       (<["error_message" := JString "boom"]>
          (<["next_run_time" := JString "2024-01-16 09:25:00"]> ∅))).

Definition failed_disk : Disk :=
  {| status_file := Stored failed_status; writable := true |}.

(** A gateway whose quote for the first stock has only two ask levels. *)
Definition short_ladder : Gateway :=
  {| gw_get_full_tick := fun _ _ =>
       Some (<["600000.SH" := {| askPrice := [10; 10]%float;
                                  bidPrice := [9; 9; 9; 9; 9]%float |}]> ∅);
     gw_order_stock := fun _ => Some 1;
     gw_query_stock_orders := fun _ => Some [];
     gw_query_seconds := fun _ => 0%N |}.

(** The exchange's answer for January 2024, cut short: New Year's Day is
    closed, the two days after it are trading days. *)
Definition january : list DayData :=
  [ {| jybz := Some "0"; jyrq := Some "2024-01-01" |};
    {| jybz := Some "1"; jyrq := Some "2024-01-02" |};
    {| jybz := Some "1"; jyrq := Some "2024-01-03" |} ].

(** A calendar whose exchange answers for January 2024 only, and whose
    static tables list no holiday at all. *)
Definition exchange_env : Env :=
  {| holidays := table_of_list [];
     workdays := table_of_list [];
     datetime_now := {| dt_date := ymd 2024 1 15; dt_seconds := 33900 |};
     requests_get := fun month_str =>
       if String.eqb month_str "2024-01" then HttpResponse 200 (Some january)
       else HttpResponse 404 None;
     file_writable := true;
     strftime_Ym := strftime_Ym offline_env;
     strftime_Ymd := strftime_Ymd offline_env;
     strptime_Ymd := fun date_str =>
       if String.eqb date_str "2024-01-02" then Some (ymd 2024 1 2)
       else if String.eqb date_str "2024-01-03" then Some (ymd 2024 1 3)
       else None;
     isoformat := fun t => strftime_Ymd offline_env (dt_date t) +:+ "T" +:+ pretty (dt_seconds t);
     fromisoformat := fun s =>
       if String.eqb s "2024-02-01T0"
       then Some {| dt_date := ymd 2024 2 1; dt_seconds := 0 |}
       else None |}.

(** The state after January 2024 has been fetched from that exchange. *)
Definition january_cached : State :=
  (_fetch_and_cache_month exchange_env 2024 1 fresh_state).2.

(** The exchange of [exchange_env] seen on Saturday 2024-01-13. *)
Definition saturday_env : Env :=
  {| holidays := holidays exchange_env;
     workdays := workdays exchange_env;
     datetime_now := {| dt_date := ymd 2024 1 13; dt_seconds := 33900 |};
     requests_get := requests_get exchange_env;
     file_writable := true;
     strftime_Ym := strftime_Ym exchange_env;
     strftime_Ymd := strftime_Ymd exchange_env;
     strptime_Ymd := strptime_Ymd exchange_env;
     isoformat := isoformat exchange_env;
     fromisoformat := fromisoformat exchange_env |}.

(** A broker that connects at once to an account worth 6000 that holds
    nothing. *)
Definition cash_account : Broker :=
  {| xt_start := fun _ => Ret tt;
     xt_connect := fun _ => Ret 0;
     xt_query_stock_asset := fun _ =>
       Ret (Some {| total_asset := 6000%float; cash := 6000%float;
                    asset_market_value := 0%float; frozen_cash := 0%float |});
     xt_query_stock_positions := fun _ => Ret (Some []);
     xt_seconds := fun _ => 1%N |}.

(** A broker that reports one holding and one position without shares. *)
Definition two_positions : Broker :=
  {| xt_start := fun _ => Ret tt;
     xt_connect := fun _ => Ret 0;
     xt_query_stock_asset := fun _ => Ret None;
     xt_query_stock_positions := fun _ =>
       Ret (Some [ {| pos_stock_code := "A"; pos_volume := 100; pos_can_use_volume := 100;
                      pos_market_value := 0; pos_avg_price := 0 |};
                   {| pos_stock_code := "B"; pos_volume := 0; pos_can_use_volume := 0;
                      pos_market_value := 0; pos_avg_price := 0 |} ]);
     xt_seconds := fun _ => 0%N |}.

(** A session of Monday 2024-01-15: the position file holds the plan of the
    day, half in each of two stocks, the account is worth 6000 and holds
    nothing. *)
Definition monday_session : Runner.Session :=
  {| Runner.today := "20240115";
     Runner.started := "2024-01-15 09:25:00";
     Runner.load_latest_position :=
       Ret (Some [ {| Runner.row_date := "20240112"; Runner.row_stock_code := "B";
                      Runner.row_weight := 1%float |};
                   {| Runner.row_date := "20240115"; Runner.row_stock_code := "A";
                      Runner.row_weight := 0.5%float |};
                   {| Runner.row_date := "20240115"; Runner.row_stock_code := "B";
                      Runner.row_weight := 0.5%float |} ]);
     Runner.xt_trader := cash_account;
     Runner.str_of := fun _ => "error" |}.

(** 09:25:00 of a day, nothing having happened yet. *)
Definition nine_twenty_five : World := {| clock := 33900; trace := []; logs := [] |}.

(** The system at that time, nothing cached, the status file left by a
    failed run. *)
Definition at_nine_twenty_five : Runner.System :=
  {| Runner.calendar := fresh_state;
     Runner.disk := StatusStore.store_of failed_disk;
     Runner.world := nine_twenty_five |}.

End Scenario.

(** * Properties *)

(** ** The monad *)

Section Monad.
Import Py Reference.
Context {S : Type}.

Lemma comes_back_ret {A} (a : A) : comes_back (ret a : M S A).
Proof. by intros s. Qed.

Lemma comes_back_raise {A} (e : exn) : comes_back (raise e : M S A).
Proof. by intros s. Qed.

Lemma comes_back_get : comes_back (get : M S S).
Proof. by intros s. Qed.

Lemma comes_back_modify (f : S -> S) : comes_back (modify f).
Proof. by intros s. Qed.

Lemma comes_back_bind {A B} (m : M S A) (k : A -> M S B) :
  comes_back m -> (forall a, comes_back (k a)) -> comes_back (bind m k).
Proof.
  intros Hm Hk s. unfold bind. specialize (Hm s).
  destruct (m s) as [[a|e|] s']; simpl in *; [apply Hk | done | done].
Qed.

Lemma comes_back_try_except {A} (body : M S A) (handler : exn -> M S A) :
  comes_back body -> (forall e, comes_back (handler e)) ->
  comes_back (try_except body handler).
Proof.
  intros Hb Hh s. unfold try_except. specialize (Hb s).
  destruct (body s) as [[a|e|] s']; simpl in *; [done | apply Hh | done].
Qed.

Lemma comes_back_fold_each {A B} (xs : list A) (acc : B) (body : B -> A -> M S B) :
  (forall acc' x, comes_back (body acc' x)) -> comes_back (fold_each xs acc body).
Proof.
  intros Hbody. revert acc.
  induction xs as [|x xs IH]; intros acc; simpl.
  - apply comes_back_ret.
  - apply comes_back_bind; [apply Hbody | intros; apply IH].
Qed.

Lemma comes_back_iter {A} (xs : list A) (body : A -> M S unit) :
  (forall x, comes_back (body x)) -> comes_back (iter xs body).
Proof.
  intros Hbody. induction xs as [|x xs IH]; simpl.
  - apply comes_back_ret.
  - apply comes_back_bind; [apply Hbody | intros; apply IH].
Qed.

(** A [try] whose handler returns a value swallows every exception. *)
Lemma try_except_returns {A} (body : M S A) (fallback : A) (s : S) :
  comes_back body ->
  exists a s', try_except body (fun _ => ret fallback) s = (Ret a, s').
Proof.
  intros Hb. unfold try_except. specialize (Hb s).
  destruct (body s) as [[a|e|] s']; simpl in *; [eauto | eauto | done].
Qed.

End Monad.

Create HintDb comes_back.
#[local] Hint Resolve comes_back_ret comes_back_raise comes_back_get comes_back_modify
  comes_back_bind comes_back_try_except comes_back_fold_each comes_back_iter : comes_back.

(** ** Rounding to a hundred shares *)

Section Rounding.
Import Py Trader Reference.

(** [round_half_even] is a nearest integer: it is at most one half away. *)
Lemma round_half_even_nearest (x : Q) :
  let d := Z.pos (Qden x) in
  2 * Z.abs (Qnum x - round_half_even x * d) <= d.
Proof.
  intros d. unfold round_half_even. fold d.
  assert (Hd : 0 < d) by (unfold d; lia).
  pose proof (Z.div_mod (Qnum x) d ltac:(lia)) as Hdm.
  pose proof (Z.mod_pos_bound (Qnum x) d Hd) as Hr.
  destruct (Z.compare_spec (2 * (Qnum x mod d)) d) as [He|Hl|Hg].
  - destruct (Z.even (Qnum x / d)); nia.
  - nia.
  - nia.
Qed.

(** Away from a tie the two conventions agree; on a tie the code keeps the
    even neighbour, which for a non-negative [x] is the lower one exactly
    when the integer part is even. *)
Lemma round_half_even_vs_half_away (x : Q) :
  0 <= Qnum x ->
  (round_half_even x = round_half_away x
   /\ (is_tie x -> Z.even (Qnum x / Z.pos (Qden x)) = false))
  \/ (is_tie x /\ Z.even (Qnum x / Z.pos (Qden x)) = true
      /\ round_half_away x = round_half_even x + 1).
Proof.
  intros Hn. unfold round_half_even, round_half_away, is_tie.
  set (d := Z.pos (Qden x)). set (n := Qnum x) in *.
  assert (Hd : 0 < d) by (unfold d; lia).
  pose proof (Z.div_mod n d ltac:(lia)) as Hdm.
  pose proof (Z.mod_pos_bound n d Hd) as Hr.
  destruct (Z.ltb_spec n 0) as [?|_]; [lia|].
  set (q := n / d) in *. set (r := n mod d) in *.
  destruct (Z.compare_spec (2 * r) d) as [He|Hl|Hg].
  - assert (Hup : (2 * n + d) / (2 * d) = q + 1).
    { symmetry. apply (Z.div_unique _ _ _ 0); nia. }
    destruct (Z.even q) eqn:Hq.
    + right. repeat split; [done | lia].
    + left. split; [lia | done].
  - left. split; [|lia].
    apply (Z.div_unique _ _ _ (2 * r + d)); nia.
  - left. split; [|lia].
    apply (Z.div_unique _ _ _ (2 * r - d)); nia.
Qed.

(** C1.  The specification asks for ties at the 50-share boundary to go
    away from zero, and the docstring of [_round_to_hundred] promises the
    same.  The code calls Python's [round], which sends a tie to the even
    neighbour: a quotient of exactly 50 shares (and of 250) is rounded down,
    where the reference rounds up. *)
Theorem round_to_hundred_tie_rounds_down :
  float_value 50 = Some (50 # 1)%Q
  /\ _round_to_hundred 50 = Ret 0
  /\ Reference.round_to_hundred (50 # 1) = 100
  /\ float_value 250 = Some (250 # 1)%Q
  /\ _round_to_hundred 250 = Ret 200
  /\ Reference.round_to_hundred (250 # 1) = 300.
Proof. repeat split; vm_compute; reflexivity. Qed.

(** On the neighbouring tie the two agree: 150 goes up to 200 either way. *)
Example round_to_hundred_150 :
  _round_to_hundred 150 = Ret 200 /\ Reference.round_to_hundred (150 # 1) = 200.
Proof. split; vm_compute; reflexivity. Qed.

End Rounding.

(** ** Splitting a large order *)

Section Splitting.
Import Py Trader Reference.

Lemma total_app (l1 l2 : list Z) : total (l1 ++ l2) = total l1 + total l2.
Proof. unfold total. induction l1 as [|a l1 IH]; simpl; lia. Qed.

Lemma total_replicate (k : nat) (m : Z) : total (replicate k m) = Z.of_nat k * m.
Proof. unfold total. induction k as [|k IH]; simpl; lia. Qed.

(** The loop peels [k] full lots off and ends with the remainder. *)
Lemma split_loop_unroll (max_per_order r : Z) (k fuel : nat) (splits : list Z) :
  0 < r <= max_per_order ->
  (k < fuel)%nat ->
  split_loop fuel max_per_order (r + Z.of_nat k * max_per_order) splits
  = Ret (splits ++ replicate k max_per_order ++ [r]).
Proof.
  intros Hr. revert fuel splits.
  induction k as [|k IH]; intros fuel splits Hfuel.
  - replace (r + Z.of_nat 0 * max_per_order) with r by lia.
    destruct fuel as [|fuel]; [lia|]. cbn [split_loop].
    destruct (Z.ltb_spec 0 r); [|lia].
    destruct (Z.ltb_spec max_per_order r); [lia|].
    by destruct fuel.
  - destruct fuel as [|fuel]; [lia|]. cbn [split_loop].
    destruct (Z.ltb_spec 0 (r + Z.of_nat (S k) * max_per_order)); [|nia].
    destruct (Z.ltb_spec max_per_order (r + Z.of_nat (S k) * max_per_order)); [|nia].
    replace (r + Z.of_nat (S k) * max_per_order - max_per_order)
      with (r + Z.of_nat k * max_per_order) by lia.
    rewrite IH by lia. cbn [replicate]. by rewrite <- app_assoc.
Qed.

(** The closed form of the result for a positive volume. *)
Lemma split_order_volume_closed_form (v max_per_order : Z) (fuel : nat) :
  0 < v -> 0 < max_per_order ->
  v <= max_per_order * Z.of_nat fuel ->
  let k := Z.to_nat ((v - 1) / max_per_order) in
  _split_order_volume fuel v max_per_order
  = Ret (replicate k max_per_order ++ [v - Z.of_nat k * max_per_order]).
Proof.
  intros Hv Hmax Hfuel k. unfold _split_order_volume.
  pose proof (Z.div_mod (v - 1) max_per_order ltac:(lia)) as Hdm.
  pose proof (Z.mod_pos_bound (v - 1) max_per_order Hmax) as Hmod.
  assert (Hq : 0 <= (v - 1) / max_per_order) by (apply Z.div_pos; lia).
  assert (Hk : Z.of_nat k = (v - 1) / max_per_order) by (unfold k; lia).
  destruct (Z.leb_spec v max_per_order) as [Hle|Hgt].
  - assert ((v - 1) / max_per_order = 0) as H0 by (apply Z.div_small; lia).
    assert (k = 0%nat) as -> by lia. simpl. do 3 f_equal. lia.
  - set (r := v - Z.of_nat k * max_per_order).
    replace v with (r + Z.of_nat k * max_per_order) at 1 by (unfold r; lia).
    rewrite split_loop_unroll; [done | unfold r; nia | nia].
Qed.

(** C4.  For a positive volume the split returns (given fuel for the loop)
    parts that add up to the volume, none above 100000, all but the last
    equal to 100000; and the three examples of the specification. *)
Theorem split_order_volume_spec (v : Z) :
  0 < v ->
  exists parts,
    (forall fuel, v <= 100000 * Z.of_nat fuel ->
                  _split_order_volume fuel v 100000 = Ret parts)
    /\ total parts = v
    /\ Forall (fun p => 0 < p <= 100000) parts
    /\ (forall (i : nat) p, parts !! i = Some p -> (S i < length parts)%nat -> p = 100000)
    /\ _split_order_volume 3 250000 100000 = Ret [100000; 100000; 50000]
    /\ _split_order_volume 1 80000 100000 = Ret [80000]
    /\ _split_order_volume 1 100000 100000 = Ret [100000].
Proof.
  intros Hv.
  set (k := Z.to_nat ((v - 1) / 100000)).
  exists (replicate k 100000 ++ [v - Z.of_nat k * 100000]).
  pose proof (Z.div_mod (v - 1) 100000 ltac:(lia)) as Hdm.
  pose proof (Z.mod_pos_bound (v - 1) 100000 ltac:(lia)) as Hmod.
  assert (Hq : 0 <= (v - 1) / 100000) by (apply Z.div_pos; lia).
  assert (Hk : Z.of_nat k = (v - 1) / 100000) by (unfold k; lia).
  split; [|split; [|split; [|split]]].
  - intros fuel Hfuel. by apply split_order_volume_closed_form.
  - rewrite total_app, total_replicate. unfold total. simpl. lia.
  - apply Forall_app. split.
    + apply Forall_replicate. lia.
    + apply Forall_singleton. lia.
  - intros i p Hi Hlen. rewrite length_app, length_replicate in Hlen. simpl in Hlen.
    rewrite lookup_app_l in Hi by (rewrite length_replicate; lia).
    apply lookup_replicate in Hi. by destruct Hi.
  - repeat split; reflexivity.
Qed.

Lemma split_order_volume_spec_witness :
  0 < 250000
  /\ exists parts,
    (forall fuel, 250000 <= 100000 * Z.of_nat fuel ->
                  _split_order_volume fuel 250000 100000 = Ret parts)
    /\ total parts = 250000
    /\ Forall (fun p => 0 < p <= 100000) parts
    /\ (forall (i : nat) p, parts !! i = Some p -> (S i < length parts)%nat -> p = 100000)
    /\ _split_order_volume 3 250000 100000 = Ret [100000; 100000; 50000]
    /\ _split_order_volume 1 80000 100000 = Ret [80000]
    /\ _split_order_volume 1 100000 100000 = Ret [100000].
Proof. split; [lia | apply (split_order_volume_spec 250000); lia]. Defined.

End Splitting.


(** ** The diff step of execute_rebalance *)

Section Diff.
Import Py Trader Reference Scenario.
Implicit Types (tv : gmap string Z) (cp : gmap string Position).

Lemma elem_of_sell_list tv cp code vol :
  (code, vol) ∈ sell_list tv cp <->
  exists pos, cp !! code = Some pos
              /\ target_of tv code < can_use_volume pos
              /\ vol = can_use_volume pos - target_of tv code.
Proof.
  unfold sell_list, target_of. rewrite list_elem_of_omap. split.
  - intros [[c pos] [Hin Hf]]. apply elem_of_map_to_list in Hin. simpl in Hf.
    destruct (Z.ltb_spec (default 0 (tv !! c)) (can_use_volume pos)); simplify_eq.
    eauto.
  - intros (pos & Hc & Hlt & ->). exists (code, pos).
    split; [by apply elem_of_map_to_list|]. simpl.
    by destruct (Z.ltb_spec (default 0 (tv !! code)) (can_use_volume pos)); [|lia].
Qed.

Lemma elem_of_buy_list tv cp code vol :
  (code, vol) ∈ buy_list tv cp <->
  exists target, tv !! code = Some target
                 /\ current_of cp code < target
                 /\ vol = target - current_of cp code.
Proof.
  unfold buy_list, current_of. rewrite list_elem_of_omap. split.
  - intros [[c target] [Hin Hf]]. apply elem_of_map_to_list in Hin. simpl in Hf.
    destruct (Z.ltb_spec (default 0 (can_use_volume <$> cp !! c)) target); simplify_eq.
    eauto.
  - intros (target & Hc & Hlt & ->). exists (code, target).
    split; [by apply elem_of_map_to_list|]. simpl.
    by destruct (Z.ltb_spec (default 0 (can_use_volume <$> cp !! code)) target); [|lia].
Qed.

Lemma sell_codes tv cp code :
  code ∈ (sell_list tv cp).*1 <->
  exists pos, cp !! code = Some pos /\ target_of tv code < can_use_volume pos.
Proof.
  rewrite list_elem_of_fmap. split.
  - intros [[c vol] [-> Hin]]. apply elem_of_sell_list in Hin as (pos & ? & ? & _).
    simpl. eauto.
  - intros (pos & Hc & Hlt). exists (code, can_use_volume pos - target_of tv code).
    split; [done|]. apply elem_of_sell_list. eauto.
Qed.

Lemma buy_codes tv cp code :
  code ∈ (buy_list tv cp).*1 <->
  exists target, tv !! code = Some target /\ current_of cp code < target.
Proof.
  rewrite list_elem_of_fmap. split.
  - intros [[c vol] [-> Hin]]. apply elem_of_buy_list in Hin as (target & ? & ? & _).
    simpl. eauto.
  - intros (target & Hc & Hlt). exists (code, target - current_of cp code).
    split; [done|]. apply elem_of_buy_list. eauto.
Qed.

(** No stock is both sold and bought, whatever the two dicts hold. *)
Lemma sell_buy_disjoint tv cp code :
  code ∈ (sell_list tv cp).*1 -> code ∈ (buy_list tv cp).*1 -> False.
Proof.
  rewrite sell_codes, buy_codes. unfold target_of, current_of.
  intros (pos & Hc & Hs) (target & Ht & Hb).
  rewrite Hc in Hb. rewrite Ht in Hs. simpl in *. lia.
Qed.

(** C5.  The sell list and the buy list never share a stock code.  With
    the volumes of the data model (no negative target, no negative
    can_use_volume), a stock is sold iff its current can_use_volume exceeds
    its target and bought iff its target exceeds its current can_use_volume,
    absent keys counting as 0. *)
Theorem diff_is_a_partition tv cp :
  (forall code target, tv !! code = Some target -> 0 <= target) ->
  (forall code pos, cp !! code = Some pos -> 0 <= can_use_volume pos) ->
  forall code,
    ~ (code ∈ (sell_list tv cp).*1 /\ code ∈ (buy_list tv cp).*1)
    /\ (code ∈ (sell_list tv cp).*1 <-> target_of tv code < current_of cp code)
    /\ (code ∈ (buy_list tv cp).*1 <-> current_of cp code < target_of tv code).
Proof.
  intros Htv Hcp code. split; [|split].
  - intros [Hs Hb]. by eapply sell_buy_disjoint.
  - rewrite sell_codes. unfold current_of, target_of. split.
    + intros (pos & -> & Hlt). done.
    + destruct (cp !! code) as [pos|] eqn:Hc; simpl.
      * intros Hlt. eauto.
      * destruct (tv !! code) as [target|] eqn:Ht; simpl; [|lia].
        specialize (Htv _ _ Ht). lia.
  - rewrite buy_codes. unfold current_of, target_of. split.
    + intros (target & -> & Hlt). done.
    + destruct (tv !! code) as [target|] eqn:Ht; simpl.
      * intros Hlt. eauto.
      * destruct (cp !! code) as [pos|] eqn:Hc; simpl; [|lia].
        specialize (Hcp _ _ Hc). lia.
Qed.

(** The end-to-end scenario of the specification. *)
Example scenario_diff :
  sell_list scenario_plan scenario_holdings = [("B", 200)]
  /\ buy_list scenario_plan scenario_holdings = [("A", 200)].
Proof. split; vm_compute; reflexivity. Qed.

Lemma diff_is_a_partition_witness :
  ~ ("B" ∈ (sell_list scenario_plan scenario_holdings).*1
     /\ "B" ∈ (buy_list scenario_plan scenario_holdings).*1)
  /\ ("B" ∈ (sell_list scenario_plan scenario_holdings).*1
      <-> target_of scenario_plan "B" < current_of scenario_holdings "B")
  /\ ("B" ∈ (buy_list scenario_plan scenario_holdings).*1
      <-> current_of scenario_holdings "B" < target_of scenario_plan "B").
Proof.
  apply (diff_is_a_partition scenario_plan scenario_holdings).
  - intros code target. unfold scenario_plan.
    rewrite !lookup_insert, lookup_empty. repeat case_decide; intros; simplify_eq; lia.
  - intros code pos. unfold scenario_holdings.
    rewrite !lookup_insert, lookup_empty.
    repeat case_decide; intros; simplify_eq; simpl; lia.
Defined.

End Diff.


(** ** Target volumes *)

Section TargetVolumes.
Import Py Trader Reference Scenario.
Implicit Types (gw : Gateway) (w : World).

(** A skipped row leaves the plan as it is. *)
Lemma skipped_rows_add_nothing (realtime_data : gmap string Tick)
    (rows : list (string * float))
    (body : gmap string Z -> string * float -> M World (gmap string Z)) :
  (forall acc row w,
      is_skipped realtime_data row.1 = true ->
      exists w', body acc row w = (Ret acc, w') /\ trace w' = trace w) ->
  Forall (fun row => is_skipped realtime_data row.1 = true) rows ->
  forall acc w,
    exists w', fold_each rows acc body w = (Ret acc, w') /\ trace w' = trace w.
Proof.
  intros Hbody. induction 1 as [|row rows Hrow _ IH]; intros acc w; simpl.
  - by exists w.
  - unfold bind. destruct (Hbody acc row w Hrow) as (w1 & -> & Ht1).
    destruct (IH acc w1) as (w2 & -> & Ht2). exists w2. split; [done | congruence].
Qed.

(** C3, as the code has it.  A failed batch quote call and a pass in which
    every stock is skipped both end in the same return value, the empty
    plan; no error is raised or returned in either case. *)
Theorem empty_plan_is_ambiguous gw (rows : list (string * float))
    (total_asset : float) w :
  (gw_get_full_tick gw (trace w) rows.*1 = None ->
   (calculate_target_volume gw rows total_asset w).1 = Ret ∅)
  /\ (forall realtime_data,
         gw_get_full_tick gw (trace w) rows.*1 = Some realtime_data ->
         Forall (fun row => is_skipped realtime_data row.1 = true) rows ->
         (calculate_target_volume gw rows total_asset w).1 = Ret ∅).
Proof.
  split.
  - intros Hq. unfold calculate_target_volume, bind, try_except, get_full_tick, log, modify.
    simpl. by rewrite Hq.
  - intros realtime_data Hq Hskip.
    unfold calculate_target_volume.
    unfold bind at 1. unfold log at 1, modify at 1.
    unfold bind at 1. unfold try_except at 1, bind at 1, get_full_tick at 1.
    cbn [trace]. rewrite Hq. cbn [ret].
    match goal with
    | |- (fold_each _ _ ?body ?w0).1 = _ =>
        destruct (skipped_rows_add_nothing realtime_data rows body)
          with (acc := (∅ : gmap string Z)) (w := w0) as (w' & -> & _); [|done|done]
    end.
    intros acc row w0 Hrow. unfold is_skipped in Hrow.
    destruct (realtime_data !! row.1) as [tick|].
    + unfold bind, lift, index. destruct (askPrice tick !! 2%nat) as [price|]; [|done].
      rewrite Hrow. by eexists.
    + by eexists.
Qed.

Lemma empty_plan_is_ambiguous_witness :
  (calculate_target_volume quote_outage two_rows 1000000 idle_world).1 = Ret ∅
  /\ (calculate_target_volume no_liquidity two_rows 1000000 idle_world).1 = Ret ∅.
Proof.
  split.
  - apply (proj1 (empty_plan_is_ambiguous quote_outage two_rows 1000000 idle_world)).
    reflexivity.
  - eapply (proj2 (empty_plan_is_ambiguous no_liquidity two_rows 1000000 idle_world)).
    + reflexivity.
    + repeat constructor.
Defined.

(** C3 as the specification words it fails: the outage and the
    all-skipped pass hand the caller the very same value. *)
Lemma outage_and_skips_look_alike :
  gw_get_full_tick quote_outage [] two_rows.*1 = None
  /\ (exists realtime_data,
         gw_get_full_tick no_liquidity [] two_rows.*1 = Some realtime_data
         /\ forallb (fun row => is_skipped realtime_data row.1) two_rows = true)
  /\ (calculate_target_volume quote_outage two_rows 1000000 idle_world).1 = Ret ∅
  /\ (calculate_target_volume no_liquidity two_rows 1000000 idle_world).1 = Ret ∅.
Proof.
  split; [reflexivity|]. split; [|split; vm_compute; reflexivity].
  eexists. split; [reflexivity|]. vm_compute. reflexivity.
Qed.

End TargetVolumes.

(** ** Nothing to trade *)

Section NothingToTrade.
Import Py Trader Reference Scenario.
Implicit Types (gw : Gateway) (w : World) (tv : gmap string Z) (cp : gmap string Position).

(** Equal volumes on both sides give an empty diff. *)
Lemma equal_volumes_empty_diff tv cp :
  (forall code, target_of tv code = current_of cp code) ->
  sell_list tv cp = [] /\ buy_list tv cp = [].
Proof.
  intros Heq. split; apply elem_of_nil_inv; intros [code vol] Hin.
  - apply elem_of_sell_list in Hin as (pos & Hc & Hlt & _).
    specialize (Heq code). unfold current_of in Heq. rewrite Hc in Heq. simpl in Heq. lia.
  - apply elem_of_buy_list in Hin as (target & Ht & Hlt & _).
    specialize (Heq code). unfold target_of in Heq. rewrite Ht in Heq. simpl in Heq. lia.
Qed.

(** C9.  With an empty sell list and an empty buy list, [execute_rebalance]
    returns true and has made no call at all: no quote is fetched, no order
    is placed, and the clock has not moved. *)
Theorem nothing_to_trade gw (fuel : nat) tv cp w :
  sell_list tv cp = [] ->
  buy_list tv cp = [] ->
  exists w',
    execute_rebalance gw fuel tv cp w = (Ret true, w')
    /\ trace w' = trace w
    /\ clock w' = clock w.
Proof.
  intros Hs Hb. unfold execute_rebalance. rewrite Hs, Hb.
  eexists. split; [reflexivity|]. split; reflexivity.
Qed.

Lemma nothing_to_trade_witness :
  sell_list ∅ ∅ = []
  /\ buy_list ∅ ∅ = []
  /\ exists w',
    execute_rebalance quote_outage 0 ∅ ∅ idle_world = (Ret true, w')
    /\ trace w' = trace idle_world
    /\ clock w' = clock idle_world.
Proof.
  split; [reflexivity|]. split; [reflexivity|].
  apply (nothing_to_trade quote_outage 0 ∅ ∅ idle_world); reflexivity.
Defined.

End NothingToTrade.


(** ** Waiting for fills *)

Section FillWait.
Import Py Trader Reference Scenario.
Implicit Types (gw : Gateway) (w : World) (tr : list Event).

Lemma filter_pending_nil (orders : list XtOrder) :
  List.filter (fun order => traded_volume order <? order_volume order) orders = []
  <-> all_filled orders = true.
Proof.
  unfold all_filled, pending. induction orders as [|order orders IH]; simpl; [done|].
  destruct (traded_volume order <? order_volume order); simpl; [|done].
  split; discriminate.
Qed.

(** Writing the progress lines makes no call and takes no time; it can
    only stop on the division by an ordered quantity of zero. *)
Lemma progress_lines (pending_orders : list XtOrder) w :
  exists r w',
    iter pending_orders
      (fun order => if order_volume order =? 0 then raise ZeroDivisionError
                    else log LogInfo) w = (r, w')
    /\ trace w' = trace w /\ clock w' = clock w
    /\ (r = Ret tt \/ r = Raise ZeroDivisionError).
Proof.
  revert w. induction pending_orders as [|order rest IH]; intros w; simpl.
  - exists (Ret tt), w. auto.
  - unfold bind. destruct (order_volume order =? 0).
    + exists (Raise ZeroDivisionError), w. auto.
    + unfold log at 1, modify at 1.
      match goal with |- context [iter rest _ ?w0] => destruct (IH w0) as (r & w' & -> & Ht & Hc & Hr) end.
      exists r, w'. simpl in *. auto.
Qed.

#[local] Arguments all_filled : simpl never.

Lemma poll_spec gw (check_interval : Z) w :
  poll_step gw check_interval w (poll gw check_interval w).1 (poll gw check_interval w).2.
Proof.
  destruct (poll gw check_interval w) as [r w'] eqn:Hpoll. simpl.
  revert Hpoll. unfold poll, try_except, query_stock_orders.
  unfold bind at 1.
  destruct (gw_query_stock_orders gw (trace w)) as [orders|] eqn:Hans.
  - destruct orders as [|order orders].
    { simpl. intros [= <- <-]. apply poll_filled; rewrite ?Hans; done. }
    destruct (List.filter _ (order :: orders)) as [|p ps] eqn:Hpend.
    { simpl. intros [= <- <-]. apply poll_filled; rewrite ?Hans; simpl; try done.
      by apply filter_pending_nil. }
    assert (all_filled (order :: orders) = false) as Hnot.
    { destruct (all_filled (order :: orders)) eqn:Hall; [|done].
      apply filter_pending_nil in Hall. congruence. }
    unfold bind at 1.
    match goal with
    | |- context [iter (p :: ps) ?body ?w0] =>
        destruct (progress_lines (p :: ps) w0) as (r0 & w1 & -> & Ht & Hc & Hr)
    end.
    simpl in Ht, Hc.
    destruct Hr as [-> | ->].
    + unfold bind, time_sleep.
      destruct (Z.ltb_spec check_interval 0) as [Hneg|Hpos]; simpl.
      * unfold bind, log, modify, raise. simpl.
        destruct (Z.ltb_spec check_interval 0); [|lia]. simpl.
        intros [= <- <-]. apply poll_bad_interval; rewrite ?Hans; simpl; done.
      * intros [= <- <-]. apply poll_again; rewrite ?Hans; simpl; try done.
        -- by rewrite Ht, <- app_assoc.
        -- lia.
    + unfold bind, log, modify, time_sleep. simpl.
      destruct (Z.ltb_spec check_interval 0) as [Hneg|Hpos]; simpl.
      * intros [= <- <-]. apply poll_bad_interval; rewrite ?Hans; simpl; done.
      * intros [= <- <-]. apply poll_again; rewrite ?Hans; simpl; try done.
        -- by rewrite Ht, <- app_assoc.
        -- lia.
  - unfold bind, log, modify, time_sleep. simpl.
    destruct (Z.ltb_spec check_interval 0) as [Hneg|Hpos]; simpl.
    + intros [= <- <-]. apply poll_bad_interval; rewrite ?Hans; simpl; done.
    + intros [= <- <-]. apply poll_again; rewrite ?Hans; simpl; try done.
      by rewrite <- app_assoc.
Qed.

(** The events of a fill-wait are status queries and sleeps; the wait
    returns true exactly on a query that shows every order filled, which is
    then its last event, and no earlier query showed that. *)
Lemma wait_loop_shape gw (fuel : nat) (start_time max_wait_time check_interval : Z)
    w r w' :
  wait_loop gw fuel start_time max_wait_time check_interval w = (r, w') ->
  exists new,
    trace w' = trace w ++ new
    /\ Forall (fun e => is_query e || is_sleep e = true) new
    /\ (r = Ret true -> exists ws q, new = ws ++ [q] /\ filled_poll q = true)
    /\ (r <> Ret true -> Forall (fun e => filled_poll e = false) new).
Proof.
  assert (forall (w0 w1 : World) (r0 : outcome bool),
            trace w1 = trace w0 -> r0 <> Ret true ->
            exists new, trace w1 = trace w0 ++ new
              /\ Forall (fun e => is_query e || is_sleep e = true) new
              /\ (r0 = Ret true -> exists ws q, new = ws ++ [q] /\ filled_poll q = true)
              /\ (r0 <> Ret true -> Forall (fun e => filled_poll e = false) new)) as Hstop.
  { intros w0 w1 r0 Ht Hr0. exists []. rewrite app_nil_r.
    repeat split; [done | constructor | done | constructor]. }
  revert w r w'. induction fuel as [|fuel IH]; intros w r w'.
  - simpl. unfold bind, time_time.
    destruct (clock w - start_time <? max_wait_time); simpl;
      intros [= <- <-]; by apply Hstop.
  - cbn [wait_loop]. unfold bind at 1, time_time at 1.
    destruct (clock w - start_time <? max_wait_time); simpl.
    2:{ intros [= <- <-]. by apply Hstop. }
    unfold bind at 1.
    pose proof (poll_spec gw check_interval w) as Hstep.
    destruct (poll gw check_interval w) as [r1 w1]. simpl in Hstep.
    inversion Hstep as [w0 Hf Ht Hc Hl | w0 Hf Hci Ht Hc Hl | w0 Hf Hci Ht]; subst; simpl.
    + intros [= <- <-].
      eexists. split; [exact Ht|]. split; [repeat constructor|]. split.
      * intros _. by exists [], (EvQueryOrders (gw_query_stock_orders gw (trace w))).
      * done.
    + intros Hrun. destruct (IH w1 r w' Hrun) as (new & Hnew & Hkind & Htrue & Hfalse).
      exists ([EvQueryOrders (gw_query_stock_orders gw (trace w)); EvSleep check_interval] ++ new).
      split; [by rewrite Hnew, Ht, <- app_assoc|].
      split; [apply Forall_app; split; [repeat constructor | done]|]. split.
      * intros Hr. destruct (Htrue Hr) as (ws & q & -> & Hq).
        eexists (_ ++ ws), q. by rewrite <- app_assoc.
      * intros Hr. apply Forall_app. split; [|by apply Hfalse].
        repeat constructor. exact Hf.
    + intros [= <- <-].
      eexists. split; [exact Ht|]. split; [repeat constructor|]. split; [done|].
      intros _. repeat constructor. exact Hf.
Qed.

(** With a positive interval the loop ends once the clock has covered the
    ceiling: fuel for one turn per interval is enough. *)
Lemma wait_loop_comes_back gw (fuel : nat) (start_time max_wait_time check_interval : Z) w :
  0 < check_interval ->
  max_wait_time - (clock w - start_time) <= check_interval * Z.of_nat fuel ->
  (wait_loop gw fuel start_time max_wait_time check_interval w).1 <> Diverge.
Proof.
  intros Hci. revert w. induction fuel as [|fuel IH]; intros w Hfuel.
  - simpl. unfold bind, time_time.
    by destruct (Z.ltb_spec (clock w - start_time) max_wait_time); [lia|].
  - cbn [wait_loop]. unfold bind at 1, time_time at 1.
    destruct (Z.ltb_spec (clock w - start_time) max_wait_time); [|done].
    unfold bind at 1.
    pose proof (poll_spec gw check_interval w) as Hstep.
    destruct (poll gw check_interval w) as [r w1]. simpl in Hstep.
    inversion Hstep as [w' Hf Ht Hc Hl | w' Hf Hci' Ht Hc Hl | w' Hf Hci' Ht]; subst;
      simpl; [done | | done].
    apply IH. lia.
Qed.

(** On a gateway whose orders never fill the wait times out. *)
Lemma wait_loop_times_out gw (fuel : nat) (start_time max_wait_time check_interval : Z) w :
  never_filled gw ->
  0 < check_interval ->
  max_wait_time - (clock w - start_time) <= check_interval * Z.of_nat fuel ->
  exists w' new,
    wait_loop gw fuel start_time max_wait_time check_interval w = (Ret false, w')
    /\ trace w' = trace w ++ new
    /\ max_wait_time <= clock w' - start_time
    /\ clock w <= clock w'
    /\ polls new * check_interval
       < Z.max (max_wait_time - (clock w - start_time)) 0 + check_interval.
Proof.
  intros Hnever Hci. revert w. induction fuel as [|fuel IH]; intros w Hfuel.
  - simpl. unfold bind, time_time.
    destruct (Z.ltb_spec (clock w - start_time) max_wait_time); [lia|].
    eexists _, []. simpl. rewrite app_nil_r. repeat split; try done; try lia.
    unfold polls. simpl. lia.
  - cbn [wait_loop]. unfold bind at 1, time_time at 1.
    destruct (Z.ltb_spec (clock w - start_time) max_wait_time) as [Hin|Hout].
    2:{ eexists _, []. simpl. rewrite app_nil_r. repeat split; try done; try lia.
        unfold polls. simpl. lia. }
    unfold bind at 1.
    pose proof (poll_spec gw check_interval w) as Hstep.
    destruct (poll gw check_interval w) as [r w1]. simpl in Hstep.
    assert (filled_poll (EvQueryOrders (gw_query_stock_orders gw (trace w))) = false) as Hnf.
    { specialize (Hnever (trace w)). simpl.
      by destruct (gw_query_stock_orders gw (trace w)). }
    inversion Hstep as [w' Hf Ht Hc Hl | w' Hf Hci' Ht Hc Hl | w' Hf Hci' Ht]; subst;
      [congruence | | lia].
    destruct (IH w1) as (w2 & new & Hrun & Ht2 & Hmax & Hmono & Hpolls); [lia|].
    exists w2,
      ([EvQueryOrders (gw_query_stock_orders gw (trace w)); EvSleep check_interval] ++ new).
    split; [exact Hrun|]. split; [by rewrite Ht2, Ht, <- app_assoc|].
    split; [done|]. split; [lia|].
    assert (polls ([EvQueryOrders (gw_query_stock_orders gw (trace w));
                    EvSleep check_interval] ++ new) = 1 + polls new) as ->.
    { unfold polls. cbn [app List.filter is_query length]. lia. }
    assert (0 <= polls new) by (unfold polls; lia).
    assert (polls new = 0 \/ check_interval <= polls new * check_interval) as [Hz|Hp]
      by nia; lia.
Qed.


Lemma equal_volumes_all_filled (orders : list XtOrder) :
  Forall (fun order => traded_volume order = order_volume order) orders ->
  all_filled orders = true.
Proof.
  unfold all_filled, pending. induction 1 as [|order orders Heq _ IH]; simpl; [done|].
  rewrite IH, andb_true_r. destruct (Z.ltb_spec (traded_volume order) (order_volume order)); [lia|done].
Qed.

(** C7, as the code has it.  For a positive ceiling and a positive
    interval:
    - when the first status query shows no order, or only orders whose
      traded quantity equals the ordered quantity, the wait returns true
      after that one query, without a sleep;
    - when a status query raises, the error is logged, one interval is
      slept and the loop goes on;
    - when the orders never fill, the wait returns false once the ceiling
      has passed, after at most ceiling/interval polls rounded up. *)
Theorem fill_wait_spec gw (max_wait_time check_interval : Z) w :
  0 < max_wait_time ->
  0 < check_interval ->
  (forall orders (fuel : nat),
      gw_query_stock_orders gw (trace w) = Some orders ->
      Forall (fun order => traded_volume order = order_volume order) orders ->
      exists w',
        wait_for_orders_completion gw (S fuel) max_wait_time check_interval w
        = (Ret true, w')
        /\ trace w' = trace w ++ [EvQueryOrders (Some orders)])
  /\ (forall fuel : nat,
         gw_query_stock_orders gw (trace w) = None ->
         exists w',
           wait_for_orders_completion gw (S fuel) max_wait_time check_interval w
           = wait_loop gw fuel (clock w) max_wait_time check_interval w'
           /\ trace w' = trace w ++ [EvQueryOrders None; EvSleep check_interval]
           /\ logs w' = logs w ++ [LogInfo; LogError])
  /\ (forall fuel : nat,
         never_filled gw ->
         max_wait_time <= check_interval * Z.of_nat fuel ->
         exists w' new,
           wait_for_orders_completion gw fuel max_wait_time check_interval w
           = (Ret false, w')
           /\ trace w' = trace w ++ new
           /\ max_wait_time <= clock w' - clock w
           /\ polls new <= (max_wait_time + check_interval - 1) / check_interval).
Proof.
  intros Hmax Hci.
  set (w0 := {| clock := clock w; trace := trace w; logs := logs w ++ [LogInfo] |}).
  assert (forall fuel,
             wait_for_orders_completion gw fuel max_wait_time check_interval w
             = wait_loop gw fuel (clock w) max_wait_time check_interval w0) as Hstart.
  { reflexivity. }
  split; [|split].
  - intros orders fuel Hans Heq. rewrite Hstart. cbn [wait_loop].
    unfold bind at 1, time_time at 1. cbn [clock w0].
    destruct (Z.ltb_spec (clock w - clock w) max_wait_time); [|lia].
    unfold bind at 1.
    pose proof (poll_spec gw check_interval w0) as Hstep.
    destruct (poll gw check_interval w0) as [r w1]. cbn [fst snd] in Hstep.
    inversion Hstep as [w' Hf Ht Hc Hl | w' Hf _ Ht Hc Hl | w' Hf _ Ht]; subst;
      unfold w0 in *; cbn [trace clock logs] in *; rewrite Hans in *.
    + by exists w1.
    + simpl in Hf. by rewrite equal_volumes_all_filled in Hf.
    + simpl in Hf. by rewrite equal_volumes_all_filled in Hf.
  - intros fuel Hans. rewrite Hstart. cbn [wait_loop].
    unfold bind at 1, time_time at 1. cbn [clock w0].
    destruct (Z.ltb_spec (clock w - clock w) max_wait_time); [|lia].
    unfold bind at 1.
    pose proof (poll_spec gw check_interval w0) as Hstep.
    destruct (poll gw check_interval w0) as [r w1]. cbn [fst snd] in Hstep.
    inversion Hstep as [w' Hf Ht Hc Hl | w' Hf _ Ht Hc Hl | w' Hf ? Ht]; subst;
      unfold w0 in *; cbn [trace clock logs] in *; rewrite Hans in *;
      [done | | lia].
    exists w1. split; [done|]. split; [done|].
    rewrite Hl by done. by rewrite <- app_assoc.
  - intros fuel Hnever Hfuel. rewrite Hstart.
    destruct (wait_loop_times_out gw fuel (clock w) max_wait_time check_interval w0)
      as (w' & new & Hrun & Ht & Hpassed & _ & Hpolls); [done | done | simpl; lia |].
    exists w', new. split; [done|]. split; [done|]. split; [done|].
    simpl in Hpolls. apply Z.div_le_lower_bound; lia.
Qed.

Lemma fill_wait_spec_witness :
  0 < 10 /\ 0 < 2
  /\ (forall orders (fuel : nat),
      gw_query_stock_orders stuck (trace idle_world) = Some orders ->
      Forall (fun order => traded_volume order = order_volume order) orders ->
      exists w',
        wait_for_orders_completion stuck (S fuel) 10 2 idle_world = (Ret true, w')
        /\ trace w' = trace idle_world ++ [EvQueryOrders (Some orders)])
  /\ (forall fuel : nat,
         gw_query_stock_orders stuck (trace idle_world) = None ->
         exists w',
           wait_for_orders_completion stuck (S fuel) 10 2 idle_world
           = wait_loop stuck fuel (clock idle_world) 10 2 w'
           /\ trace w' = trace idle_world ++ [EvQueryOrders None; EvSleep 2]
           /\ logs w' = logs idle_world ++ [LogInfo; LogError])
  /\ (forall fuel : nat,
         never_filled stuck ->
         10 <= 2 * Z.of_nat fuel ->
         exists w' new,
           wait_for_orders_completion stuck fuel 10 2 idle_world = (Ret false, w')
           /\ trace w' = trace idle_world ++ new
           /\ 10 <= clock w' - clock idle_world
           /\ polls new <= (10 + 2 - 1) / 2).
Proof.
  split; [lia|]. split; [lia|].
  apply (fill_wait_spec stuck 10 2 idle_world); lia.
Defined.

(** Ceiling 10 and interval 2 on orders that never fill: five polls, then
    the timeout. *)
Example five_polls :
  (wait_for_orders_completion stuck 5 10 2 idle_world).1 = Ret false
  /\ polls (trace (wait_for_orders_completion stuck 5 10 2 idle_world).2) = 5.
Proof. split; vm_compute; reflexivity. Qed.

(** All orders filled: one poll, no sleep. *)
Example one_poll :
  (wait_for_orders_completion prompt 1 10 2 idle_world).1 = Ret true
  /\ List.filter is_sleep (trace (wait_for_orders_completion prompt 1 10 2 idle_world).2) = []
  /\ polls (trace (wait_for_orders_completion prompt 1 10 2 idle_world).2) = 1.
Proof. repeat split; vm_compute; reflexivity. Qed.

(** Without a positive ceiling there is no first poll: the wait returns
    false at once, also when every order is filled. *)
Example zero_ceiling_never_polls :
  (wait_for_orders_completion prompt 1 0 2 idle_world).1 = Ret false
  /\ trace (wait_for_orders_completion prompt 1 0 2 idle_world).2 = [].
Proof. split; vm_compute; reflexivity. Qed.

(** C7 as the specification words it fails when the interval does not
    divide the ceiling: ceiling 10 and interval 3 give four polls, more than
    10/3. *)
Lemma four_polls_in_ten_by_three :
  (wait_for_orders_completion stuck 4 10 3 idle_world).1 = Ret false
  /\ polls (trace (wait_for_orders_completion stuck 4 10 3 idle_world).2) = 4
  /\ ~ (4 <= 10 / 3).
Proof.
  split; [|split]; [vm_compute; reflexivity | vm_compute; reflexivity |].
  vm_compute. intros H. by apply H.
Qed.

End FillWait.


(** ** Selling before buying *)

Section SellBeforeBuy.
Import Py Trader Reference Scenario.
Implicit Types (gw : Gateway) (w : World) (tv : gmap string Z) (cp : gmap string Position).

(** *** Stepping through the monad *)

Lemma bind_inv {S A B} (m : M S A) (k : A -> M S B) (s s' : S) (r : outcome B) :
  bind m k s = (r, s') ->
  (exists a s1, m s = (Ret a, s1) /\ k a s1 = (r, s'))
  \/ (exists e, m s = (Raise e, s') /\ r = Raise e)
  \/ (m s = (Diverge, s') /\ r = Diverge).
Proof.
  unfold bind. destruct (m s) as [[a|e|] s1]; intros Hrun.
  - left. eauto.
  - right. left. injection Hrun as <- <-. eauto.
  - right. right. by injection Hrun as <- <-.
Qed.

Lemma bind_log {A} (l : LogLevel) (k : M World A) w :
  bind (log l) (fun _ => k) w
  = k {| clock := clock w; trace := trace w; logs := logs w ++ [l] |}.
Proof. reflexivity. Qed.

Lemma iter_log {A} (xs : list A) (l : LogLevel) w :
  exists w', iter xs (fun _ => log l) w = (Ret tt, w')
             /\ trace w' = trace w /\ clock w' = clock w.
Proof.
  revert w. induction xs as [|x xs IH]; intros w; simpl.
  - by exists w.
  - rewrite bind_log.
    match goal with |- context [iter xs _ ?w0] => destruct (IH w0) as (w' & -> & Ht & Hc) end.
    by exists w'.
Qed.

(** *** What each piece emits *)

Lemma emits_ret {A} (P : Event -> Prop) (a : A) : emits P (ret a).
Proof. intros w r w' [= <- <-]. exists []. by rewrite app_nil_r. Qed.

Lemma emits_lift {A} (P : Event -> Prop) (o : outcome A) : emits P (lift o).
Proof. intros w r w' [= <- <-]. exists []. by rewrite app_nil_r. Qed.

Lemma emits_log (P : Event -> Prop) (l : LogLevel) : emits P (log l).
Proof. intros w r w' [= <- <-]. exists []. simpl. by rewrite app_nil_r. Qed.

Lemma emits_bind {A B} (P : Event -> Prop) (m : M World A) (k : A -> M World B) :
  emits P m -> (forall a, emits P (k a)) -> emits P (bind m k).
Proof.
  intros Hm Hk w r w' Hrun.
  apply bind_inv in Hrun as [(a & w1 & Hm1 & Hk1) | [(e & Hm1 & ->) | (Hm1 & ->)]].
  - destruct (Hm _ _ _ Hm1) as (new1 & Ht1 & HP1).
    destruct (Hk a _ _ _ Hk1) as (new2 & Ht2 & HP2).
    exists (new1 ++ new2). split; [by rewrite Ht2, Ht1, <- app_assoc|].
    by apply Forall_app.
  - by apply (Hm _ _ _ Hm1).
  - by apply (Hm _ _ _ Hm1).
Qed.

Lemma emits_iter {A} (P : Event -> Prop) (xs : list A) (body : A -> M World unit) :
  (forall x, emits P (body x)) -> emits P (iter xs body).
Proof.
  intros Hbody. induction xs as [|x xs IH]; simpl.
  - apply emits_ret.
  - apply emits_bind; [apply Hbody | intros _; apply IH].
Qed.

Lemma emits_order_stock gw (code : string) (side : Side) (vol : Z) (price : float)
    (remark : string) :
  emits (fun e => is_order side e = true) (order_stock gw code side vol price remark).
Proof.
  intros w r w'. unfold order_stock.
  destruct (gw_order_stock gw (trace w)); intros [= <- <-]; simpl;
    eexists; (split; [reflexivity|]); repeat constructor; by destruct side.
Qed.

(** Placing the orders of one stock only issues orders of that side. *)
Lemma emits_place gw (fuel : nat) (side : Side) (code : string) (vol : Z) (price : float) :
  emits (fun e => is_order side e = true) (place gw fuel side code vol price).
Proof.
  unfold place. destruct (_is_star_market code).
  - apply emits_bind; [apply emits_lift|]. intros splits.
    apply emits_bind; [apply emits_log|]. intros _.
    apply emits_iter. intros numbered.
    apply emits_bind; [apply emits_order_stock | intros _; apply emits_log].
  - apply emits_bind; [apply emits_order_stock | intros _; apply emits_log].
Qed.

(** The batch quote call is made once, and its failure is turned into
    [None]. *)
Lemma fetch_quotes gw (stock_list : list string) w :
  exists w',
    try_except (bind (get_full_tick gw stock_list) (fun d => ret (Some d)))
      (fun _ => bind (log LogError) (fun _ => ret None)) w
    = (Ret (gw_get_full_tick gw (trace w) stock_list), w')
    /\ trace w' = trace w ++ [EvFullTick stock_list]
    /\ clock w' = clock w.
Proof.
  unfold try_except, bind, get_full_tick.
  destruct (gw_get_full_tick gw (trace w) stock_list); simpl; by eexists.
Qed.

Lemma wait_shape gw (fuel : nat) (max_wait_time check_interval : Z) w r w' :
  wait_for_orders_completion gw fuel max_wait_time check_interval w = (r, w') ->
  exists new,
    trace w' = trace w ++ new
    /\ Forall (fun e => is_query e || is_sleep e = true) new
    /\ (r = Ret true -> exists ws q, new = ws ++ [q] /\ filled_poll q = true)
    /\ (r <> Ret true -> Forall (fun e => filled_poll e = false) new).
Proof.
  unfold wait_for_orders_completion. unfold bind at 1, time_time at 1.
  rewrite bind_log. intros Hrun. by apply wait_loop_shape in Hrun.
Qed.

(** *** One phase *)

(** A phase fetches its quotes, places orders of its own side only, and
    then waits; it lets [execute_rebalance] go on exactly when the wait
    ended on a query that showed every order filled. *)
Lemma phase_shape gw (fuel : nat) (side : Side) (orders : list (string * Z)) w r w' :
  phase gw fuel side orders w = (r, w') ->
  exists placed waited,
    trace w' = trace w ++ EvFullTick orders.*1 :: placed ++ waited
    /\ Forall (fun e => is_order side e = true) placed
    /\ Forall (fun e => is_query e || is_sleep e = true) waited
    /\ (r = Ret None -> exists ws q, waited = ws ++ [q] /\ filled_poll q = true)
    /\ (r <> Ret None -> Forall (fun e => filled_poll e = false) waited)
    /\ r <> Ret (Some true).
Proof.
  unfold phase. rewrite !bind_log. intros Hrun.
  apply bind_inv in Hrun as [(fetched & w1 & Hq & Hrun) | [(e & Hq & _) | (Hq & _)]].
  2,3: match type of Hq with
       | try_except _ _ ?w0 = _ =>
           destruct (fetch_quotes gw orders.*1 w0) as (? & Hq' & _); congruence
       end.
  match type of Hq with
  | try_except _ _ ?w0 = _ =>
      destruct (fetch_quotes gw orders.*1 w0) as (w1' & Hq' & Ht1 & _)
  end.
  rewrite Hq' in Hq. injection Hq as <- <-. simpl in Ht1.
  destruct (gw_get_full_tick gw (trace w) orders.*1) as [realtime_data|].
  2:{ injection Hrun as <- <-. exists [], []. rewrite Ht1. simpl.
      repeat split; try done; constructor. }
  assert (emits (fun e => is_order side e = true)
            (iter orders
               (fun item =>
                  match realtime_data !! item.1 with
                  | Some tick =>
                      bind (lift (index (ladder side tick) 4))
                        (fun price =>
                           if (price =? 0)%float then log LogWarning
                           else place gw fuel side item.1 item.2 price)
                  | None => log LogWarning
                  end))) as Hplace.
  { apply emits_iter. intros item.
    destruct (realtime_data !! item.1) as [tick|]; [|apply emits_log].
    apply emits_bind; [apply emits_lift|]. intros price.
    destruct (price =? 0)%float; [apply emits_log | apply emits_place]. }
  apply bind_inv in Hrun as [([] & w2 & Hit & Hrun) | [(e & Hit & ->) | (Hit & ->)]].
  2,3: destruct (Hplace _ _ _ Hit) as (placed & Ht2 & HP);
       exists placed, []; rewrite Ht2, Ht1, app_nil_r, <- app_assoc;
       repeat split; try done; constructor.
  destruct (Hplace _ _ _ Hit) as (placed & Ht2 & HP).
  rewrite bind_log in Hrun.
  apply bind_inv in Hrun as [(filled & w3 & Hw & Hrun) | [(e & Hw & ->) | (Hw & ->)]].
  - destruct (wait_shape _ _ _ _ _ _ _ Hw) as (waited & Ht3 & HQ & Htrue & Hfalse).
    simpl in Ht3.
    destruct filled.
    + injection Hrun as <- <-. exists placed, waited.
      rewrite Ht3, Ht2, Ht1, <- !app_assoc. repeat split; try done.
      intros _. by apply Htrue.
    + rewrite bind_log in Hrun. injection Hrun as <- <-. exists placed, waited.
      simpl. rewrite Ht3, Ht2, Ht1, <- !app_assoc. repeat split; try done.
      intros _. by apply Hfalse.
  - destruct (wait_shape _ _ _ _ _ _ _ Hw) as (waited & Ht3 & HQ & Htrue & Hfalse).
    simpl in Ht3. exists placed, waited.
    rewrite Ht3, Ht2, Ht1, <- !app_assoc. repeat split; try done.
    intros _. by apply Hfalse.
  - destruct (wait_shape _ _ _ _ _ _ _ Hw) as (waited & Ht3 & HQ & Htrue & Hfalse).
    simpl in Ht3. exists placed, waited.
    rewrite Ht3, Ht2, Ht1, <- !app_assoc. repeat split; try done.
    intros _. by apply Hfalse.
Qed.


(** *** Kinds of events *)

Lemma order_is_plain (side : Side) (e : Event) :
  is_order side e = true ->
  is_cancel e = false /\ filled_poll e = false
  /\ forall other, other <> side -> is_order other e = false.
Proof.
  destruct e as [| code s vol price remark | | | | | | |]; try done.
  destruct side, s; try done; repeat split; try done; by intros [].
Qed.

Lemma wait_event_is_plain (e : Event) :
  is_query e || is_sleep e = true ->
  is_cancel e = false /\ forall side, is_order side e = false.
Proof. by destruct e. Qed.

(** The events of a phase, seen from the outside. *)
Lemma phase_events (side : Side) (stock_list : list string) (placed waited : list Event) :
  Forall (fun e => is_order side e = true) placed ->
  Forall (fun e => is_query e || is_sleep e = true) waited ->
  Forall (fun e => is_cancel e = false
                   /\ forall other, other <> side -> is_order other e = false)
         (EvFullTick stock_list :: placed ++ waited).
Proof.
  intros HP HQ. constructor; [split; [done | by intros []]|].
  apply Forall_app. split.
  - eapply Forall_impl; [exact HP|]. intros e He.
    destruct (order_is_plain _ _ He) as (? & _ & ?). done.
  - eapply Forall_impl; [exact HQ|]. intros e He.
    destruct (wait_event_is_plain _ He) as [? Hno]. split; [done | intros; apply Hno].
Qed.

(** *** The two phases in sequence *)

(** The calls of [execute_rebalance] fall into those of the sell phase
    followed by those of the buy phase, and the buy phase is entered, or
    true returned, only after the sell phase ended on a filled query. *)
Lemma execute_two_phases gw (fuel : nat) tv cp w r w' :
  sell_list tv cp <> [] ->
  execute_rebalance gw fuel tv cp w = (r, w') ->
  exists sold bought,
    trace w' = trace w ++ sold ++ bought
    /\ Forall (fun e => is_cancel e = false /\ is_order STOCK_BUY e = false) sold
    /\ Forall (fun e => is_cancel e = false /\ is_order STOCK_SELL e = false) bought
    /\ (bought <> [] \/ r = Ret true ->
        exists ws q, sold = ws ++ [q] /\ filled_poll q = true).
Proof.
  intros Hsells. unfold execute_rebalance. rewrite !bind_log.
  unfold bind at 1.
  match goal with
  | |- context [iter (sell_list tv cp) _ ?w0] =>
      destruct (iter_log (sell_list tv cp) LogInfo w0) as (w1 & -> & Ht1 & _)
  end.
  unfold bind at 1.
  destruct (iter_log (buy_list tv cp) LogInfo w1) as (w2 & -> & Ht2 & _).
  simpl in Ht1. rewrite Ht1 in Ht2. clear Ht1 w1.
  destruct (sell_list tv cp) as [|s sells] eqn:Hs; [done|]. clear Hsells.
  intros Hrun.
  assert (forall r1 w3,
             phase gw fuel STOCK_SELL (s :: sells) w2 = (r1, w3) ->
             exists sold,
               trace w3 = trace w ++ sold
               /\ Forall (fun e => is_cancel e = false /\ is_order STOCK_BUY e = false) sold
               /\ (r1 = Ret None -> exists ws q, sold = ws ++ [q] /\ filled_poll q = true)
               /\ r1 <> Ret (Some true)) as Hsold.
  { intros r1 w3 Hsell.
    apply phase_shape in Hsell
      as (placed & waited & Ht3 & HP & HQ & Htrue & _ & Hnot).
    exists (EvFullTick (s :: sells).*1 :: placed ++ waited).
    split; [by rewrite Ht3, Ht2|]. split.
    { eapply Forall_impl; [by apply (phase_events STOCK_SELL)|].
      intros ? [? Hno]. split; [done | by apply Hno]. }
    split; [|done]. intros Hr. destruct (Htrue Hr) as (ws & q & -> & Hq).
    exists (EvFullTick (s :: sells).*1 :: placed ++ ws), q.
    split; [simpl; by rewrite app_assoc | done]. }
  assert (forall sold r0 w0,
             trace w0 = trace w ++ sold ->
             Forall (fun e => is_cancel e = false /\ is_order STOCK_BUY e = false) sold ->
             r0 <> Ret true ->
             exists sold' bought,
               trace w0 = trace w ++ sold' ++ bought
               /\ Forall (fun e => is_cancel e = false /\ is_order STOCK_BUY e = false) sold'
               /\ Forall (fun e => is_cancel e = false /\ is_order STOCK_SELL e = false) bought
               /\ (bought <> [] \/ r0 = Ret true ->
                   exists ws q, sold' = ws ++ [q] /\ filled_poll q = true)) as Hstop.
  { intros sold r0 w0 Ht Hs0 Hr0. exists sold, []. rewrite app_nil_r.
    split; [done|]. split; [done|]. split; [constructor|]. by intros [?|?]. }
  apply bind_inv in Hrun as [(r1 & w3 & Hsell & Hrun) | [(e & Hsell & ->) | (Hsell & ->)]].
  2:{ destruct (Hsold _ _ Hsell) as (sold & Ht3 & Hno & _). by eapply Hstop. }
  2:{ destruct (Hsold _ _ Hsell) as (sold & Ht3 & Hno & _). by eapply Hstop. }
  destruct (Hsold _ _ Hsell) as (sold & Ht3 & Hno & Htrue & Hnot).
  destruct r1 as [b|].
  { injection Hrun as <- <-. eapply Hstop; [done | done |].
    destruct b; [done | discriminate]. }
  destruct (Htrue eq_refl) as (ws & q & Hw & Hq).
  destruct (buy_list tv cp) as [|b buys] eqn:Hb.
  { unfold bind, ret, log, modify in Hrun. simpl in Hrun. injection Hrun as <- <-.
    exists sold, []. simpl. rewrite app_nil_r.
    split; [done|]. split; [done|]. split; [constructor|]. intros _. eauto. }
  assert (forall r2 w4,
             phase gw fuel STOCK_BUY (b :: buys) w3 = (r2, w4) ->
             exists bought,
               trace w4 = trace w ++ sold ++ bought
               /\ Forall (fun e => is_cancel e = false /\ is_order STOCK_SELL e = false)
                         bought) as Hbuy.
  { intros r2 w4 Hbuy.
    apply phase_shape in Hbuy as (placed' & waited' & Ht4 & HP' & HQ' & _).
    exists (EvFullTick (b :: buys).*1 :: placed' ++ waited').
    split; [by rewrite Ht4, Ht3, <- app_assoc|].
    eapply Forall_impl; [by apply (phase_events STOCK_BUY)|].
    intros ? [? Hno']. split; [done | by apply Hno']. }
  apply bind_inv in Hrun as [(r2 & w4 & Hphase & Hrun) | [(e & Hphase & ->) | (Hphase & ->)]].
  - destruct (Hbuy _ _ Hphase) as (bought & Ht4 & Hbought).
    destruct r2 as [b2|].
    + injection Hrun as <- <-. exists sold, bought. eauto 10.
    + rewrite !bind_log in Hrun. injection Hrun as <- <-. exists sold, bought.
      simpl. eauto 10.
  - destruct (Hbuy _ _ Hphase) as (bought & Ht4 & Hbought).
    exists sold, bought. eauto 10.
  - destruct (Hbuy _ _ Hphase) as (bought & Ht4 & Hbought).
    exists sold, bought. eauto 10.
Qed.


(** *** Enough fuel *)

Lemma comes_back_lift {S A} (o : outcome A) : o <> Diverge -> comes_back (lift o : M S A).
Proof. by intros Ho s. Qed.

Lemma comes_back_iter_in {S A} (xs : list A) (body : A -> M S unit) :
  (forall x, x ∈ xs -> comes_back (body x)) -> comes_back (iter xs body).
Proof.
  induction xs as [|x xs IH]; intros Hbody; simpl.
  - apply comes_back_ret.
  - apply comes_back_bind.
    + apply Hbody. by left.
    + intros _. apply IH. intros y Hy. apply Hbody. by right.
Qed.

Lemma comes_back_log (l : LogLevel) : comes_back (log l).
Proof. by intros w. Qed.

Lemma comes_back_order_stock gw (code : string) (side : Side) (vol : Z)
    (price : float) (remark : string) :
  comes_back (order_stock gw code side vol price remark).
Proof. intros w. unfold order_stock. by destruct (gw_order_stock gw (trace w)). Qed.

Lemma split_comes_back (fuel : nat) (vol : Z) :
  vol <= 100000 * Z.of_nat fuel -> _split_order_volume fuel vol 100000 <> Diverge.
Proof.
  intros Hfuel. destruct (Z.leb_spec vol 100000) as [Hle|Hgt].
  - unfold _split_order_volume. by destruct (Z.leb_spec vol 100000); [|lia].
  - by rewrite split_order_volume_closed_form by lia.
Qed.

Lemma place_comes_back gw (fuel : nat) (side : Side) (code : string) (vol : Z)
    (price : float) :
  vol <= 100000 * Z.of_nat fuel -> comes_back (place gw fuel side code vol price).
Proof.
  intros Hfuel. unfold place. destruct (_is_star_market code).
  - apply comes_back_bind; [by apply comes_back_lift, split_comes_back|]. intros splits.
    apply comes_back_bind; [apply comes_back_log|]. intros _.
    apply comes_back_iter. intros numbered.
    apply comes_back_bind; [apply comes_back_order_stock | intros; apply comes_back_log].
  - apply comes_back_bind; [apply comes_back_order_stock | intros; apply comes_back_log].
Qed.

(** With the module's ceiling of 300 s and interval of 2 s, 150 turns of
    the loop are enough. *)
Lemma wait_comes_back gw (fuel : nat) :
  (150 <= fuel)%nat ->
  comes_back (wait_for_orders_completion gw fuel MAX_WAIT_TIME CHECK_INTERVAL).
Proof.
  intros Hfuel w. unfold wait_for_orders_completion. unfold bind at 1, time_time at 1.
  rewrite bind_log. apply wait_loop_comes_back; [done|].
  unfold MAX_WAIT_TIME, CHECK_INTERVAL. simpl. lia.
Qed.

Lemma phase_comes_back gw (fuel : nat) (side : Side) (orders : list (string * Z)) :
  (150 <= fuel)%nat ->
  (forall item, item ∈ orders -> item.2 <= 100000 * Z.of_nat fuel) ->
  comes_back (phase gw fuel side orders).
Proof.
  intros Hfuel Hvol. unfold phase.
  do 3 (apply comes_back_bind; [apply comes_back_log | intros _]).
  apply comes_back_bind.
  { intros w. destruct (fetch_quotes gw orders.*1 w) as (w' & -> & _). done. }
  intros [realtime_data|]; [|apply comes_back_ret].
  apply comes_back_bind.
  { apply comes_back_iter_in. intros item Hitem.
    destruct (realtime_data !! item.1) as [tick|]; [|apply comes_back_log].
    apply comes_back_bind.
    { apply comes_back_lift. unfold index. by destruct (ladder side tick !! 4%nat). }
    intros price. destruct (price =? 0)%float; [apply comes_back_log|].
    apply place_comes_back. by apply Hvol. }
  intros _. apply comes_back_bind; [apply comes_back_log | intros _].
  apply comes_back_bind; [by apply wait_comes_back|].
  intros [|]; [apply comes_back_ret|].
  apply comes_back_bind; [apply comes_back_log | intros; apply comes_back_ret].
Qed.

Lemma execute_rebalance_comes_back gw (fuel : nat) tv cp :
  (150 <= fuel)%nat ->
  (forall item, item ∈ sell_list tv cp ++ buy_list tv cp ->
                item.2 <= 100000 * Z.of_nat fuel) ->
  comes_back (execute_rebalance gw fuel tv cp).
Proof.
  intros Hfuel Hvol. unfold execute_rebalance.
  do 3 (apply comes_back_bind; [apply comes_back_log | intros _]).
  apply comes_back_bind; [apply comes_back_iter; intros; apply comes_back_log | intros _].
  apply comes_back_bind; [apply comes_back_iter; intros; apply comes_back_log | intros _].
  apply comes_back_bind.
  { destruct (sell_list tv cp) as [|s sells] eqn:Hs; [apply comes_back_ret|].
    apply phase_comes_back; [done|]. intros item Hitem. apply Hvol.
    apply elem_of_app. by left. }
  intros [r|]; [apply comes_back_ret|].
  apply comes_back_bind.
  { destruct (buy_list tv cp) as [|b buys] eqn:Hb; [apply comes_back_ret|].
    apply phase_comes_back; [done|]. intros item Hitem. apply Hvol.
    apply elem_of_app. by right. }
  intros [r|]; [apply comes_back_ret|].
  do 3 (apply comes_back_bind; [apply comes_back_log | intros _]).
  apply comes_back_ret.
Qed.

(** With an interval that is not negative one turn of the polling loop
    does not raise: whatever the query or the progress log raises is caught
    by the handler. *)
Lemma poll_never_raises gw (check_interval : Z) w e :
  0 <= check_interval -> (poll gw check_interval w).1 <> Raise e.
Proof.
  intros Hci Hr. pose proof (poll_spec gw check_interval w) as Hstep.
  rewrite Hr in Hstep. inversion Hstep. lia.
Qed.

Lemma wait_loop_never_raises gw (fuel : nat) (start_time max_wait_time check_interval : Z)
    w e :
  0 <= check_interval ->
  (wait_loop gw fuel start_time max_wait_time check_interval w).1 <> Raise e.
Proof.
  intros Hci. revert w. induction fuel as [|fuel IH]; intros w.
  - simpl. unfold bind at 1, time_time at 1.
    destruct (clock w - start_time <? max_wait_time); [done|].
    rewrite bind_log. done.
  - simpl. unfold bind at 1, time_time at 1.
    destruct (clock w - start_time <? max_wait_time); [|by rewrite bind_log].
    pose proof (poll_never_raises gw check_interval w) as Hpoll.
    unfold bind.
    destruct (poll gw check_interval w) as [[[b|]| e' |] w1]; simpl in *.
    + done.
    + apply IH.
    + intros [= <-]. by apply (Hpoll e').
    + done.
Qed.

Lemma wait_never_raises gw (fuel : nat) (max_wait_time check_interval : Z) w e :
  0 <= check_interval ->
  (wait_for_orders_completion gw fuel max_wait_time check_interval w).1 <> Raise e.
Proof.
  intros Hci. unfold wait_for_orders_completion. unfold bind at 1, time_time at 1.
  rewrite bind_log. by apply wait_loop_never_raises.
Qed.

(** A phase raises only while it places its orders: the quote call is
    guarded, and the wait does not raise.  So a phase that raised made no
    status query. *)
Lemma phase_raises_before_wait gw (fuel : nat) (side : Side) (orders : list (string * Z))
    w e w' :
  phase gw fuel side orders w = (Raise e, w') ->
  exists placed,
    trace w' = trace w ++ EvFullTick orders.*1 :: placed
    /\ Forall (fun e => is_order side e = true) placed.
Proof.
  unfold phase. rewrite !bind_log. intros Hrun.
  apply bind_inv in Hrun as [(fetched & w1 & Hq & Hrun) | [(e' & Hq & _) | (Hq & ?)]].
  2,3: match type of Hq with
       | try_except _ _ ?w0 = _ =>
           destruct (fetch_quotes gw orders.*1 w0) as (? & Hq' & _); congruence
       end.
  match type of Hq with
  | try_except _ _ ?w0 = _ =>
      destruct (fetch_quotes gw orders.*1 w0) as (w1' & Hq' & Ht1 & _)
  end.
  rewrite Hq' in Hq. injection Hq as <- <-. simpl in Ht1.
  destruct (gw_get_full_tick gw (trace w) orders.*1) as [realtime_data|]; [|done].
  assert (emits (fun e => is_order side e = true)
            (iter orders
               (fun item =>
                  match realtime_data !! item.1 with
                  | Some tick =>
                      bind (lift (index (ladder side tick) 4))
                        (fun price =>
                           if (price =? 0)%float then log LogWarning
                           else place gw fuel side item.1 item.2 price)
                  | None => log LogWarning
                  end))) as Hplace.
  { apply emits_iter. intros item.
    destruct (realtime_data !! item.1) as [tick|]; [|apply emits_log].
    apply emits_bind; [apply emits_lift|]. intros price.
    destruct (price =? 0)%float; [apply emits_log | apply emits_place]. }
  apply bind_inv in Hrun as [([] & w2 & Hit & Hrun) | [(e' & Hit & He) | (Hit & ?)]];
    [| |done].
  2:{ destruct (Hplace _ _ _ Hit) as (placed & Ht2 & HP).
      exists placed. by rewrite Ht2, Ht1, <- app_assoc. }
  exfalso. rewrite bind_log in Hrun.
  apply bind_inv in Hrun as [(filled & w3 & Hw & Hrun) | [(e' & Hw & _) | (Hw & ?)]];
    [| |done].
  - destruct filled; [done|]. by rewrite bind_log in Hrun.
  - eapply (wait_never_raises gw fuel MAX_WAIT_TIME CHECK_INTERVAL); [done|].
    by rewrite Hw.
Qed.

(** When the wait of the sell phase was entered and no status query showed
    every order filled, [execute_rebalance] returns false, unless it runs out
    of fuel. *)
Lemma execute_rebalance_timeout gw (fuel : nat) tv cp w r w' new :
  sell_list tv cp <> [] ->
  execute_rebalance gw fuel tv cp w = (r, w') ->
  trace w' = trace w ++ new ->
  Forall (fun e => filled_poll e = false) new ->
  Exists (fun e => is_query e = true) new ->
  r = Ret false \/ r = Diverge.
Proof.
  intros Hsells. unfold execute_rebalance. rewrite !bind_log.
  unfold bind at 1.
  match goal with
  | |- context [iter (sell_list tv cp) _ ?w0] =>
      destruct (iter_log (sell_list tv cp) LogInfo w0) as (w1 & -> & Ht1 & _)
  end.
  unfold bind at 1.
  destruct (iter_log (buy_list tv cp) LogInfo w1) as (w2 & -> & Ht2 & _).
  simpl in Ht1. rewrite Ht1 in Ht2. clear Ht1 w1.
  destruct (sell_list tv cp) as [|s sells] eqn:Hs; [done|]. clear Hsells.
  intros Hrun Ht Hnone Hquery.
  apply bind_inv in Hrun as [(r1 & w3 & Hsell & Hrun) | [(e & Hsell & ->) | (Hsell & ->)]];
    [| |by right].
  - pose proof Hsell as Hshape.
    apply phase_shape in Hshape
      as (placed & waited & Ht3 & HP & HQ & Htrue & _ & Hnot).
    destruct r1 as [b|].
    { injection Hrun as <- <-. left. destruct b; [done | reflexivity]. }
    exfalso. destruct (Htrue eq_refl) as (ws & q & -> & Hq).
    assert (extends_trace : exists more, trace w' = trace w3 ++ more).
    { destruct (buy_list tv cp) as [|b buys].
      - unfold bind, ret, log, modify in Hrun. simpl in Hrun.
        injection Hrun as <- <-. exists []. simpl. by rewrite app_nil_r.
      - apply bind_inv in Hrun
          as [(r2 & w4 & Hbuy & Hrun) | [(e & Hbuy & ->) | (Hbuy & ->)]].
        + apply phase_shape in Hbuy as (placed' & waited' & Ht4 & _).
          destruct r2 as [b2|].
          * injection Hrun as <- <-. eauto.
          * rewrite !bind_log in Hrun. injection Hrun as <- <-. simpl. eauto.
        + apply phase_shape in Hbuy as (placed' & waited' & Ht4 & _). eauto.
        + apply phase_shape in Hbuy as (placed' & waited' & Ht4 & _). eauto. }
    destruct extends_trace as (more & Hmore).
    rewrite Hmore, Ht3, Ht2, <- !app_assoc in Ht. apply app_inv_head in Ht.
    subst new. simpl in Hnone.
    assert (q ∈ EvFullTick (s :: sells).*1 :: placed ++ ws ++ [q] ++ more) as Hin
      by set_solver.
    rewrite Forall_forall in Hnone. specialize (Hnone q). simpl in Hnone.
    rewrite <- !app_assoc in Hnone. specialize (Hnone Hin). congruence.
  - exfalso. apply phase_raises_before_wait in Hsell as (placed & Ht3 & HP).
    rewrite Ht3, Ht2 in Ht. apply app_inv_head in Ht. subst new.
    apply Exists_cons in Hquery as [Hquery | Hquery]; [done|].
    apply Exists_exists in Hquery as (x & Hx & Hqx).
    rewrite Forall_forall in HP. specialize (HP x Hx).
    destruct x; simpl in *; congruence.
Qed.

(** C6.  When there is something to sell, whatever the gateway answers and
    however the call ends:
    - no order is ever cancelled;
    - every buy order comes after a status query that showed every order
      filled, and no sell order comes after that query;
    - if no status query ever showed every order filled (the wait of the
      sell phase did not succeed), true is not returned and no buy order has
      been placed;
    - if moreover a status query was made (the wait of the sell phase was
      entered, so it ended on its timeout), the call does not raise: it
      returns false, unless it runs out of fuel;
    - with fuel for the loops the call comes back, so that a sell phase
      that timed out makes it return false. *)
Theorem sells_fill_before_buys gw (fuel : nat) tv cp w r w' :
  sell_list tv cp <> [] ->
  execute_rebalance gw fuel tv cp w = (r, w') ->
  exists new,
    trace w' = trace w ++ new
    /\ Forall (fun e => is_cancel e = false) new
    /\ (forall pre e post,
           new = pre ++ e :: post -> is_order STOCK_BUY e = true ->
           exists before q after,
             pre = before ++ q :: after
             /\ filled_poll q = true
             /\ Forall (fun x => is_order STOCK_SELL x = false) (after ++ e :: post))
    /\ (Forall (fun e => filled_poll e = false) new ->
        r <> Ret true /\ Forall (fun e => is_order STOCK_BUY e = false) new)
    /\ (Forall (fun e => filled_poll e = false) new ->
        Exists (fun e => is_query e = true) new ->
        r = Ret false \/ r = Diverge)
    /\ ((150 <= fuel)%nat ->
        (forall item, item ∈ sell_list tv cp ++ buy_list tv cp ->
                      item.2 <= 100000 * Z.of_nat fuel) ->
        r <> Diverge).
Proof.
  intros Hsells Hrun.
  destruct (execute_two_phases _ _ _ _ _ _ _ Hsells Hrun)
    as (sold & bought & Ht & Hsold & Hbought & Hentry).
  exists (sold ++ bought). split; [done|]. split; [|split; [|split; [|split]]].
  - apply Forall_app. split.
    + eapply Forall_impl; [exact Hsold|]. by intros ? [? _].
    + eapply Forall_impl; [exact Hbought|]. by intros ? [? _].
  - intros pre e post Heq He.
    apply app_eq_inv in Heq as [(k & Hpre & Hk) | (k & Hpre & Hk)].
    + destruct k as [|e' k].
      * simpl in Hk. rewrite app_nil_r in Hpre. subst pre.
        destruct Hentry as (ws & q & -> & Hq); [left; by rewrite <- Hk|].
        exists ws, q, []. split; [done|]. split; [done|]. simpl. rewrite Hk.
        eapply Forall_impl; [exact Hbought|]. by intros ? [_ ?].
      * injection Hk as <- _. rewrite Hpre in Hsold.
        apply Forall_app in Hsold as [_ Hsold]. apply Forall_cons in Hsold as [[_ Hno] _].
        congruence.
    + destruct Hentry as (ws & q & -> & Hq); [left; rewrite Hk; by destruct k|].
      exists ws, q, k. split; [by rewrite Hpre, <- app_assoc|]. split; [done|].
      rewrite <- Hk. eapply Forall_impl; [exact Hbought|]. by intros ? [_ ?].
  - intros Hnone.
    assert (~ (bought <> [] \/ r = Ret true)) as Hno.
    { intros Hg. destruct (Hentry Hg) as (ws & q & -> & Hq).
      apply Forall_app in Hnone as [Hnone _]. apply Forall_app in Hnone as [_ Hnone].
      rewrite Forall_singleton in Hnone. congruence. }
    split; [tauto|].
    destruct bought as [|b bought]; [|exfalso; apply Hno; by left].
    rewrite app_nil_r. eapply Forall_impl; [exact Hsold|]. by intros ? [_ ?].
  - intros Hnone Hquery.
    by apply (execute_rebalance_timeout gw fuel tv cp w r w' (sold ++ bought)).
  - intros Hfuel Hvol Hr.
    pose proof (execute_rebalance_comes_back gw fuel tv cp Hfuel Hvol w) as Hback.
    rewrite Hrun in Hback. done.
Qed.

(** The scenario of the specification on a gateway whose sell order never
    trades: 150 polls, false, one sell order and no buy order. *)
Example scenario_sell_timeout :
  let run := execute_rebalance quoted_but_stuck 150 scenario_plan scenario_holdings idle_world in
  run.1 = Ret false
  /\ List.filter is_any_order (trace run.2) = [EvOrderStock "B" STOCK_SELL 200 9 "sell_stock"]
  /\ polls (trace run.2) = 150
  /\ clock run.2 = 300.
Proof. vm_compute. repeat split; reflexivity. Qed.

(** The same scenario with every order filled at once: quote, sell, poll,
    then quote, buy, poll. *)
Example scenario_call_order :
  let run := execute_rebalance quoted_and_filled 150 scenario_plan scenario_holdings idle_world in
  run.1 = Ret true
  /\ trace run.2
     = [EvFullTick ["B"]; EvOrderStock "B" STOCK_SELL 200 9 "sell_stock";
        EvQueryOrders (Some []);
        EvFullTick ["A"]; EvOrderStock "A" STOCK_BUY 200 10 "buy_stock";
        EvQueryOrders (Some [])].
Proof. vm_compute. repeat split; reflexivity. Qed.

Lemma sells_fill_before_buys_witness :
  sell_list scenario_plan scenario_holdings <> []
  /\ Exists (fun e => is_query e = true)
       (trace (execute_rebalance quoted_but_stuck 150 scenario_plan scenario_holdings
                 idle_world).2)
  /\ Forall (fun e => filled_poll e = false)
       (trace (execute_rebalance quoted_but_stuck 150 scenario_plan scenario_holdings
                 idle_world).2)
  /\ (execute_rebalance quoted_but_stuck 150 scenario_plan scenario_holdings
        idle_world).1 = Ret false
  /\ Forall (fun e => is_order STOCK_BUY e = false)
       (trace (execute_rebalance quoted_but_stuck 150 scenario_plan scenario_holdings
                 idle_world).2)
  /\ Forall (fun e => is_cancel e = false)
       (trace (execute_rebalance quoted_but_stuck 150 scenario_plan scenario_holdings
                 idle_world).2).
Proof.
  assert (sell_list scenario_plan scenario_holdings <> []) as Hsells
    by (vm_compute; discriminate).
  assert (Exists (fun e => is_query e = true)
            (trace (execute_rebalance quoted_but_stuck 150 scenario_plan
                      scenario_holdings idle_world).2)) as Hquery
    by (apply (bool_decide_unpack _); vm_compute; exact I).
  assert (Forall (fun e => filled_poll e = false)
            (trace (execute_rebalance quoted_but_stuck 150 scenario_plan
                      scenario_holdings idle_world).2)) as Hnone
    by (apply (bool_decide_unpack _); vm_compute; exact I).
  assert (Forall (fun item : string * Z => item.2 <= 100000 * Z.of_nat 150)
            (sell_list scenario_plan scenario_holdings
               ++ buy_list scenario_plan scenario_holdings)) as Hvol
    by (apply (bool_decide_unpack _); vm_compute; exact I).
  destruct (sells_fill_before_buys quoted_but_stuck 150 scenario_plan scenario_holdings
              idle_world _ _ Hsells (surjective_pairing _))
    as (new & Ht & Hcancel & _ & Hbuy & Htimeout & Hfuel).
  change (trace idle_world ++ new) with new in Ht. rewrite Ht in Hquery, Hnone |- *.
  split; [done|]. split; [done|]. split; [done|]. split; [|split; [|done]].
  - destruct (Htimeout Hnone Hquery) as [Hr | Hr]; [done|].
    exfalso. apply Hfuel; [lia | | done].
    intros item Hitem. by apply (proj1 (Forall_forall _ _) Hvol).
  - by apply Hbuy.
Defined.

End SellBeforeBuy.


(** ** The trading calendar *)

Section CalendarProperties.
Import Py Calendar Reference Scenario.
Implicit Types (env : Env) (d : date) (s : State).

(** The static tier never raises, leaves the state alone, and answers
    [fallback_verdict]. *)
Lemma fallback_answer env d s :
  _is_trading_day_fallback env d s = (Ret (fallback_verdict env d), s).
Proof.
  unfold _is_trading_day_fallback, fallback_verdict, try_except, bind, of_option.
  destruct (Z.leb_spec 5 (weekday d)) as [Hwe|Hwd].
  - destruct (Z.ltb_spec (weekday d) 5); [lia|]. done.
  - destruct (Z.ltb_spec (weekday d) 5); [|lia].
    destruct (holidays env d) as [[|]|]; simpl; try done.
    destruct (workdays env d) as [[|]|]; simpl; done.
Qed.

(** Weekends are never trading days in the static tier. *)
Lemma fallback_weekend env d s :
  5 <= weekday d -> _is_trading_day_fallback env d s = (Ret false, s).
Proof.
  intros Hwe. rewrite fallback_answer. unfold fallback_verdict.
  by destruct (Z.ltb_spec (weekday d) 5); [lia|].
Qed.

(** A listed holiday is not a trading day, also on a weekday. *)
Lemma fallback_holiday env d s :
  holidays env d = Some true -> _is_trading_day_fallback env d s = (Ret false, s).
Proof.
  intros Hh. rewrite fallback_answer. unfold fallback_verdict. rewrite Hh.
  rewrite (bool_decide_eq_false_2 (Some true = Some false)) by done.
  by rewrite andb_false_r.
Qed.

(** Any other weekday is a trading day. *)
Lemma fallback_plain_weekday env d s :
  weekday d < 5 -> holidays env d = Some false -> is_Some (workdays env d) ->
  _is_trading_day_fallback env d s = (Ret true, s).
Proof.
  intros Hwd Hh Hw. rewrite fallback_answer. unfold fallback_verdict. rewrite Hh.
  destruct (Z.ltb_spec (weekday d) 5); [|lia].
  rewrite (bool_decide_eq_true_2 (Some false = Some false)) by done.
  by rewrite (bool_decide_eq_true_2 (is_Some (workdays env d))).
Qed.

(** A membership test that raises makes the static tier answer false. *)
Lemma fallback_error env d s :
  holidays env d = None \/ workdays env d = None ->
  _is_trading_day_fallback env d s = (Ret false, s).
Proof.
  intros Herr. rewrite fallback_answer. unfold fallback_verdict.
  destruct Herr as [-> | ->].
  - rewrite (bool_decide_eq_false_2 (None = Some false)) by done.
    by rewrite andb_false_r.
  - rewrite (bool_decide_eq_false_2 (is_Some None)); [by rewrite andb_false_r|].
    by intros [? ?].
Qed.

(** C2.  The static tier tests for a weekend before it looks at the
    compensatory-workday table, although its comment says that compensatory
    workdays are trading days: Sunday 2024-02-04, listed as a compensatory
    workday, is answered with false. *)
Theorem fallback_rejects_weekend_workday :
  workdays offline_env (ymd 2024 2 4) = Some true
  /\ weekday (ymd 2024 2 4) = 6
  /\ _is_trading_day_fallback offline_env (ymd 2024 2 4) fresh_state
     = (Ret false, fresh_state).
Proof. repeat split; vm_compute; reflexivity. Qed.

(** The other three clauses on the same tables. *)
Example fallback_other_clauses :
  (* Saturday 2024-01-06 *)
  (_is_trading_day_fallback offline_env (ymd 2024 1 6) fresh_state).1 = Ret false
  (* Monday 2024-01-01, a listed holiday *)
  /\ (_is_trading_day_fallback offline_env (ymd 2024 1 1) fresh_state).1 = Ret false
  (* Monday 2024-01-08 *)
  /\ (_is_trading_day_fallback offline_env (ymd 2024 1 8) fresh_state).1 = Ret true.
Proof. repeat split; vm_compute; reflexivity. Qed.

(** *** is_trading_day *)

Lemma comes_back_of_option {A} (e : exn) (o : option A) :
  comes_back (of_option e o : M State A).
Proof. destruct o; simpl; auto with comes_back. Qed.

Lemma comes_back_save env : comes_back (_save_cache_to_file env).
Proof.
  unfold _save_cache_to_file. apply comes_back_try_except; [|auto with comes_back].
  intros s. by destruct (file_writable env).
Qed.

Lemma comes_back_http_get env month_str : comes_back (http_get env month_str).
Proof. unfold http_get. destruct (requests_get env month_str); auto with comes_back. Qed.

(** The fetch never raises: both [except] clauses return [False]. *)
Lemma fetch_returns env y m s :
  exists b s', _fetch_and_cache_month env y m s = (Ret b, s').
Proof.
  unfold _fetch_and_cache_month. apply try_except_returns.
  apply comes_back_bind; [apply comes_back_http_get|].
  intros response. destruct (negb (response.1 =? 200)); [auto with comes_back|].
  apply comes_back_bind; [apply comes_back_of_option|]. intros data.
  apply comes_back_bind.
  { apply comes_back_fold_each. intros days day_data.
    case_bool_decide; [|auto with comes_back].
    destruct (jyrq day_data) as [date_str|]; [|auto with comes_back].
    destruct (truthy date_str); [|auto with comes_back].
    apply comes_back_bind; [apply comes_back_of_option|]. intros trading_day.
    unfold add_trading_day. auto with comes_back. }
  intros days. apply comes_back_bind.
  { intros s0. unfold lift. simpl. unfold mk_datetime.
    destruct (m =? 12); by repeat case_match. }
  intros next_month. unfold set_month.
  apply comes_back_bind; [auto with comes_back|]. intros _.
  apply comes_back_bind; [apply comes_back_save | auto with comes_back].
Qed.

(** The expiry check never raises and does not touch the state. *)
Lemma expired_returns env year_month s :
  exists b, _is_cache_expired env year_month s = (Ret b, s).
Proof.
  unfold _is_cache_expired, try_except, bind, get, of_option.
  destruct (_monthly_cache s !! year_month) as [entry|]; [|by eexists].
  destruct (expires_at entry) as [str|]; [|by eexists].
  destruct (negb (truthy str)); [by eexists|].
  destruct (fromisoformat env str); by eexists.
Qed.

(** A failed fetch is reported as [False] to the caller, not raised. *)
Lemma fetch_unreachable env y m s :
  requests_get env (format_0d 4 y +:+ "-" +:+ format_0d 2 m) = HttpTimeout
  \/ requests_get env (format_0d 4 y +:+ "-" +:+ format_0d 2 m) = HttpFailure ->
  _fetch_and_cache_month env y m s = (Ret false, s).
Proof.
  intros Hget. unfold _fetch_and_cache_month, try_except, bind, http_get.
  by destruct Hget as [-> | ->].
Qed.

(** C8, as the code has it.  [is_trading_day] never raises and returns a
    boolean.  The answer is true exactly when the date is in the in-memory
    set once the fetch has been tried, or the static tier accepts it; an
    error of the fetch or of the expiry check is absorbed on the way, and an
    error inside the static tier gives false. *)
Theorem is_trading_day_total env d s :
  exists b s',
    is_trading_day env d s = (Ret b, s')
    /\ (b = true <-> d ∈ _trading_days_cache s' \/ fallback_verdict env d = true).
Proof.
  unfold is_trading_day, is_trading_day_body, try_except.
  unfold bind at 1. unfold get at 1.
  case_bool_decide as Hin.
  { exists true, s. simpl. split; [done|]. split; auto. }
  assert (forall s1 : State,
             exists b,
               (if bool_decide (d ∈ _trading_days_cache s1)
                then ret true
                else _is_trading_day_fallback env d) s1 = (Ret b, s1)
               /\ (b = true <-> d ∈ _trading_days_cache s1 \/ fallback_verdict env d = true))
    as Hrest.
  { intros s1. case_bool_decide as Hin1.
    - exists true. split; [done|]. split; auto.
    - exists (fallback_verdict env d). rewrite fallback_answer. split; [done|].
      split; [auto | by intros [?|?]]. }
  unfold bind, get.
  destruct (bool_decide (_monthly_cache s !! strftime_Ym env d = None)).
  - simpl. destruct (fetch_returns env (year d) (month d) s) as (fetched & s1 & ->).
    simpl. destruct (Hrest s1) as (b & -> & Hb). by exists b, s1.
  - destruct (expired_returns env (strftime_Ym env d) s) as [stale ->].
    destruct stale.
    + destruct (fetch_returns env (year d) (month d) s) as (fetched & s1 & ->).
      simpl. destruct (Hrest s1) as (b & -> & Hb). by exists b, s1.
    + simpl. destruct (Hrest s) as (b & -> & Hb). by exists b, s.
Qed.

(** C8 as the specification words it fails at a fetch error: with the
    exchange out of reach, Monday 2024-01-08 is still answered with true. *)
Lemma fetch_error_is_not_fail_closed :
  requests_get offline_env "2024-01" = HttpTimeout
  /\ _fetch_and_cache_month offline_env 2024 1 fresh_state = (Ret false, fresh_state)
  /\ is_trading_day offline_env (ymd 2024 1 8) fresh_state = (Ret true, fresh_state).
Proof. repeat split; vm_compute; reflexivity. Qed.

End CalendarProperties.


(** ** The status store *)

Section Status.
Import Py StatusManager Reference Scenario.

Lemma truthy_spec (s : string) : truthy s = true <-> s <> "".
Proof.
  unfold truthy. destruct (String.eqb_spec s ""); simpl; split; intros; congruence.
Qed.

Lemma read_status_or_empty (d : Disk) :
  exists r, read_status d = (Ret r, d) /\ or_empty r = persisted d.
Proof.
  unfold read_status, persisted, bind, get.
  destruct (status_file d) as [| |status] eqn:Hf.
  - by exists None.
  - by exists None.
  - exists (Some status). split; [done|]. simpl. by case_bool_decide.
Qed.

(** C10.  When the status file can be written, [mark_completed] stores
    [is_running = false] and [last_status] according to the flag; it
    overwrites [error_message] exactly when the message is non-empty, also on
    success, and otherwise leaves the earlier [error_message]; every other
    field stays as it was. *)
Theorem mark_completed_frame (success : bool) (message : string) (d : Disk) :
  writable d = true ->
  exists new,
    mark_completed success message d
    = (Ret tt, {| status_file := Stored new; writable := true |})
    /\ new !! "is_running" = Some (JBool false)
    /\ new !! "last_status" = Some (JString (if success then "success" else "failed"))
    /\ (message <> "" -> new !! "error_message" = Some (JString message))
    /\ (message = "" -> new !! "error_message" = persisted d !! "error_message")
    /\ (forall key, key <> "is_running" -> key <> "last_status" ->
                    key <> "error_message" -> new !! key = persisted d !! key).
Proof.
  intros Hw. unfold mark_completed.
  destruct (read_status_or_empty d) as (r & Hread & Hr).
  unfold bind at 1. rewrite Hread, Hr.
  unfold write_status, try_except. rewrite Hw.
  eexists. split; [reflexivity|].
  destruct (truthy message) eqn:Hm.
  - apply truthy_spec in Hm.
    repeat split; intros; simplify_map_eq; done.
  - assert (message = "") as ->.
    { destruct (String.eqb_spec message ""); [done|]. unfold truthy in Hm.
      destruct (String.eqb_spec message ""); [done|]. discriminate. }
    repeat split; intros; simplify_map_eq; done.
Qed.

Lemma mark_completed_frame_witness :
  writable failed_disk = true
  /\ exists new,
    mark_completed true "" failed_disk
    = (Ret tt, {| status_file := Stored new; writable := true |})
    /\ new !! "is_running" = Some (JBool false)
    /\ new !! "last_status" = Some (JString "success")
    /\ ("" <> "" -> new !! "error_message" = Some (JString ""))
    /\ ("" = "" -> new !! "error_message" = persisted failed_disk !! "error_message")
    /\ (forall key, key <> "is_running" -> key <> "last_status" ->
                    key <> "error_message" -> new !! key = persisted failed_disk !! key).
Proof. split; [reflexivity | apply (mark_completed_frame true "" failed_disk); reflexivity]. Defined.

(** The message of a failed run outlives a later success without message. *)
Example stale_error_message :
  let after := (mark_completed true "" failed_disk).2 in
  persisted after !! "last_status" = Some (JString "success")
  /\ persisted after !! "error_message" = Some (JString "boom").
Proof. split; vm_compute; reflexivity. Qed.

(** When the file cannot be written the call changes nothing. *)
Lemma mark_completed_unwritable (success : bool) (message : string) (d : Disk) :
  writable d = false -> mark_completed success message d = (Ret tt, d).
Proof.
  intros Hw. unfold mark_completed.
  destruct (read_status_or_empty d) as (r & Hread & Hr).
  unfold bind at 1. rewrite Hread.
  unfold write_status, try_except. by rewrite Hw.
Qed.

End Status.

(** * Further properties *)

(** ** Holdings as reported by the broker *)

Section CurrentPosition.
Import Py Trader Reference Scenario.
Implicit Types (w : World) (positions : list XtPosition).

(** The loop of [get_current_position]: it makes no call, and the dict it
    ends with holds, besides what it started with, the entries of the
    positions with a positive volume. *)
Lemma current_position_loop positions (acc : gmap string Position) (n : Z) w :
  exists acc' n' w',
    fold_each positions (acc, n)
      (fun acc pos =>
         if pos_volume pos <=? 0
         then bind (log LogWarning) (fun _ => ret (acc.1, acc.2 + 1))
         else ret (<[pos_stock_code pos := position_entry pos]> acc.1, acc.2)) w
    = (Ret (acc', n'), w')
    /\ trace w' = trace w /\ clock w' = clock w
    /\ (forall code,
           is_Some (acc' !! code) <->
           is_Some (acc !! code)
           \/ exists pos, pos ∈ positions /\ pos_stock_code pos = code /\ 0 < pos_volume pos)
    /\ (forall code entry,
           acc' !! code = Some entry ->
           acc !! code = Some entry
           \/ exists pos, pos ∈ positions /\ pos_stock_code pos = code
                          /\ 0 < pos_volume pos /\ entry = position_entry pos).
Proof.
  revert acc n w. induction positions as [|pos positions IH]; intros acc n w.
  - exists acc, n, w. simpl. repeat split; try done.
    + by left.
    + intros [?|(pos & Hin & _)]; [done|]. by apply elem_of_nil in Hin.
    + by left.
  - cbn [fold_each]. unfold bind at 1.
    destruct (Z.leb_spec (pos_volume pos) 0) as [Hbad|Hgood].
    + rewrite bind_log. cbn [ret fst snd].
      match goal with
      | |- context [fold_each positions (acc, ?n0) _ ?w0] =>
          destruct (IH acc n0 w0) as (acc' & n' & w' & -> & Ht & Hc & Hdom & Hval)
      end.
      exists acc', n', w'. split; [done|]. split; [done|]. split; [done|]. split.
      * intros code. rewrite Hdom. split.
        -- intros [?|(p & Hin & ? & ?)]; [by left|]. right. exists p. split; [by right | done].
        -- intros [?|(p & Hin & Hcode & Hvol)]; [by left|].
           apply elem_of_cons in Hin as [->|Hin]; [lia|]. right. eauto.
      * intros code entry Hentry.
        destruct (Hval code entry Hentry) as [?|(p & Hin & ? & ? & ?)]; [by left|].
        right. exists p. split; [by right | done].
    + cbn [ret fst snd].
      destruct (IH (<[pos_stock_code pos := position_entry pos]> acc) n w)
        as (acc' & n' & w' & -> & Ht & Hc & Hdom & Hval).
      exists acc', n', w'. split; [done|]. split; [done|]. split; [done|]. split.
      * intros code. rewrite Hdom. rewrite lookup_insert_is_Some. split.
        -- intros [[Hcode|[_ ?]]|(p & Hin & ? & ?)].
           ++ right. exists pos. split; [by left | done].
           ++ by left.
           ++ right. exists p. split; [by right | done].
        -- intros [?|(p & Hin & Hcode & Hvol)].
           ++ left. destruct (decide (pos_stock_code pos = code)); [by left | by right].
           ++ apply elem_of_cons in Hin as [->|Hin]; [left; by left|]. right. eauto.
      * intros code entry Hentry.
        destruct (Hval code entry Hentry) as [Hacc|(p & Hin & ? & ? & ?)].
        -- apply lookup_insert_Some in Hacc as [[Hcode <-]|[_ ?]]; [|by left].
           right. exists pos. split; [by left | done].
        -- right. exists p. split; [by right | done].
Qed.

(** X1.  [get_current_position] makes one call, the position query of the
    broker, and guards nothing: when the query raises, the same exception
    leaves the method, and when the broker answers [None] the loop raises
    [TypeError].  On a list of positions the method returns: a stock is in
    the dict exactly when some reported position of that stock has a positive
    volume; every entry is copied from such a position, so no entry has a
    volume of zero or less. *)
Theorem current_position_keeps_positive_volumes (br : Broker) w :
  exists r w',
    get_current_position br w = (r, w')
    /\ trace w' = trace w ++ [EvQueryPositions]
    /\ clock w' = clock w + Z.of_N (xt_seconds br (trace w))
    /\ match xt_query_stock_positions br (trace w) with
       | Ret (Some positions) =>
           exists held,
             r = Ret held
             /\ (forall code,
                    is_Some (held !! code) <->
                    exists pos, pos ∈ positions /\ pos_stock_code pos = code
                                /\ 0 < pos_volume pos)
             /\ (forall code entry,
                    held !! code = Some entry ->
                    0 < volume entry
                    /\ exists pos, pos ∈ positions /\ pos_stock_code pos = code
                                   /\ entry = position_entry pos)
       | Ret None => r = Raise TypeError
       | Raise e => r = Raise e
       | Diverge => r = Diverge
       end.
Proof.
  unfold get_current_position. unfold bind at 1, session_call at 1.
  destruct (xt_query_stock_positions br (trace w)) as [[positions|]|e|];
    try (by eexists _, _).
  unfold bind at 1, ret at 1. unfold bind at 1.
  match goal with
  | |- context [fold_each positions _ _ ?w0] =>
      destruct (current_position_loop positions ∅ 0 w0)
        as (held & n & w1 & -> & Ht & Hc & Hdom & Hval)
  end.
  cbn [fst snd trace clock] in *.
  assert ((forall code,
              is_Some (held !! code) <->
              exists pos, pos ∈ positions /\ pos_stock_code pos = code
                          /\ 0 < pos_volume pos)
          /\ (forall code entry,
                 held !! code = Some entry ->
                 0 < volume entry
                 /\ exists pos, pos ∈ positions /\ pos_stock_code pos = code
                                /\ entry = position_entry pos)) as [Hdom' Hval'].
  { split.
    - intros code. rewrite Hdom, lookup_empty. split; [intros [[? ?]|?]; done | by right].
    - intros code entry Hentry.
      destruct (Hval code entry Hentry) as [Hemp|(pos & Hin & Hcode & Hvol & ->)];
        [by rewrite lookup_empty in Hemp | split; [done | eauto]]. }
  destruct (0 <? n); eexists _, _; (split; [reflexivity|]); simpl;
    (split; [done|]); (split; [done|]); by exists held.
Qed.

(** A position without shares is left out. *)
Example current_position_of_two :
  (get_current_position two_positions idle_world).1
  = Ret (<["A" := {| volume := 100; can_use_volume := 100; market_value := 0;
                     avg_price := 0 |}]> ∅)
  /\ logs (get_current_position two_positions idle_world).2
     = [LogWarning; LogInfo; LogInfo].
Proof. split; vm_compute; reflexivity. Qed.

End CurrentPosition.

(** ** More on order splitting *)

Section SplittingMore.
Import Py Trader Reference Scenario.

(** What the loop returns, when it returns: the parts it appends are
    positive, none above the limit, and add up to what remained. *)
Lemma split_loop_parts (fuel : nat) (max_per_order remaining : Z) (splits parts : list Z) :
  0 < max_per_order ->
  split_loop fuel max_per_order remaining splits = Ret parts ->
  exists new,
    parts = splits ++ new
    /\ Forall (fun p => 0 < p <= max_per_order) new
    /\ total new = Z.max remaining 0.
Proof.
  intros Hmax. revert remaining splits.
  induction fuel as [|fuel IH]; intros remaining splits; cbn [split_loop].
  - destruct (Z.ltb_spec 0 remaining); [done|]. intros [= <-].
    exists []. rewrite app_nil_r. repeat split; [constructor | unfold total; simpl; lia].
  - destruct (Z.ltb_spec 0 remaining).
    2:{ intros [= <-]. exists []. rewrite app_nil_r.
        repeat split; [constructor | unfold total; simpl; lia]. }
    destruct (Z.ltb_spec max_per_order remaining); intros Hrun.
    + destruct (IH _ _ Hrun) as (new & -> & Hnew & Hsum).
      exists (max_per_order :: new). split; [by rewrite <- app_assoc|]. split.
      * constructor; [lia | done].
      * unfold total in *. simpl. lia.
    + destruct (IH _ _ Hrun) as (new & -> & Hnew & Hsum).
      exists (remaining :: new). split; [by rewrite <- app_assoc|]. split.
      * constructor; [lia | done].
      * unfold total in *. simpl. lia.
Qed.

Lemma total_bounds_parts (parts : list Z) (p : Z) :
  Forall (fun q => 0 < q) parts -> p ∈ parts -> p <= total parts.
Proof.
  unfold total. induction 1 as [|q parts Hq Hpos IH]; intros Hin.
  - by apply elem_of_nil in Hin.
  - assert (0 <= foldr Z.add 0 parts).
    { clear -Hpos. induction Hpos; simpl; lia. }
    apply elem_of_cons in Hin as [->|Hin]; simpl; [lia|]. specialize (IH Hin). lia.
Qed.

(** X2.  For every positive limit, [_split_order_volume] hands a volume at
    or below the limit back as the single part (also a volume of zero or
    less); a larger volume is cut into volume/limit parts, rounded up, that
    are positive, at most the limit, and add up to the volume. *)
Theorem split_order_volume_any_limit (v max_per_order : Z) (fuel : nat) :
  0 < max_per_order ->
  v <= max_per_order * Z.of_nat fuel ->
  exists parts,
    _split_order_volume fuel v max_per_order = Ret parts
    /\ (v <= max_per_order -> parts = [v])
    /\ (0 < v ->
        total parts = v
        /\ Forall (fun p => 0 < p <= max_per_order) parts
        /\ Z.of_nat (length parts) = (v + max_per_order - 1) / max_per_order).
Proof.
  intros Hmax Hfuel.
  destruct (Z.leb_spec v max_per_order) as [Hle|Hgt].
  - exists [v]. unfold _split_order_volume.
    destruct (Z.leb_spec v max_per_order); [|lia].
    split; [done|]. split; [done|]. intros Hv. split; [unfold total; simpl; lia|].
    split; [repeat constructor; lia|]. simpl.
    apply (Z.div_unique _ _ _ (v - 1)); lia.
  - pose proof (split_order_volume_closed_form v max_per_order fuel
                  ltac:(lia) Hmax Hfuel) as Hform. cbv zeta in Hform.
    set (k := Z.to_nat ((v - 1) / max_per_order)) in *.
    pose proof (Z.div_mod (v - 1) max_per_order ltac:(lia)) as Hdm.
    pose proof (Z.mod_pos_bound (v - 1) max_per_order Hmax) as Hmod.
    assert (Hq : 0 <= (v - 1) / max_per_order) by (apply Z.div_pos; lia).
    assert (Hk : Z.of_nat k = (v - 1) / max_per_order) by (unfold k; lia).
    eexists. split; [exact Hform|]. split; [lia|]. intros _. split; [|split].
    + rewrite total_app, total_replicate. unfold total. simpl. lia.
    + apply Forall_app. split; [apply Forall_replicate; lia|].
      apply Forall_singleton. nia.
    + rewrite length_app, length_replicate. simpl.
      apply (Z.div_unique _ _ _ ((v - 1) mod max_per_order)); nia.
Qed.

Lemma split_order_volume_any_limit_witness :
  0 < 7 /\ 20 <= 7 * Z.of_nat 3
  /\ exists parts,
    _split_order_volume 3 20 7 = Ret parts
    /\ (20 <= 7 -> parts = [20])
    /\ (0 < 20 ->
        total parts = 20
        /\ Forall (fun p => 0 < p <= 7) parts
        /\ Z.of_nat (length parts) = (20 + 7 - 1) / 7).
Proof.
  split; [lia|]. split; [simpl; lia|].
  apply (split_order_volume_any_limit 20 7 3); simpl; lia.
Defined.

Lemma split_loop_spins (fuel : nat) (max_per_order remaining : Z) (splits : list Z) :
  max_per_order <= 0 -> 0 < remaining ->
  split_loop fuel max_per_order remaining splits = Diverge.
Proof.
  intros Hmax. revert remaining splits.
  induction fuel as [|fuel IH]; intros remaining splits Hrem; cbn [split_loop].
  - by destruct (Z.ltb_spec 0 remaining); [|lia].
  - destruct (Z.ltb_spec 0 remaining); [|lia].
    destruct (Z.ltb_spec max_per_order remaining); [|lia].
    apply IH. lia.
Qed.

(** X3.  With a limit of zero or less, [_split_order_volume] never returns
    for a positive volume: the loop appends the limit for ever, whatever the
    fuel. *)
Theorem split_order_volume_bad_limit_never_returns (v max_per_order : Z) (fuel : nat) :
  max_per_order <= 0 -> 0 < v ->
  _split_order_volume fuel v max_per_order = Diverge.
Proof.
  intros Hmax Hv. unfold _split_order_volume.
  destruct (Z.leb_spec v max_per_order); [lia|]. by apply split_loop_spins.
Qed.

Lemma split_order_volume_bad_limit_never_returns_witness :
  0 <= 0 /\ 0 < 5 /\ _split_order_volume 1000 5 0 = Diverge.
Proof.
  split; [lia|]. split; [lia|].
  apply (split_order_volume_bad_limit_never_returns 5 0 1000); lia.
Defined.

End SplittingMore.

(** ** More on target volumes *)

Section TargetVolumesMore.
Import Py Trader Reference Scenario.
Implicit Types (gw : Gateway) (w : World) (rows : list (string * float)).

Lemma round_to_hundred_multiple (volume : float) (v : Z) :
  _round_to_hundred volume = Ret v -> v mod 100 = 0.
Proof.
  unfold _round_to_hundred, outcome_bind.
  destruct (Py.round (volume / 100)%float) as [n| |]; [|done|done].
  intros [= <-]. apply Z_mod_mult.
Qed.

Lemma round_to_hundred_comes_back (volume : float) :
  _round_to_hundred volume <> Diverge.
Proof.
  unfold _round_to_hundred, outcome_bind, Py.round.
  destruct (float_value (volume / 100)%float); [done|].
  by destruct (is_nan (volume / 100)%float).
Qed.

(** The per-row loop of [calculate_target_volume] on the quotes
    [realtime_data]: it makes no call; when it ends with a plan, the plan
    holds, besides what it started with, exactly the rows that were not
    skipped, each with a multiple of 100, and every quoted row had a third
    ask level. *)
Lemma target_volume_loop (realtime_data : gmap string Tick) (total_asset : float)
    rows (acc : gmap string Z) w r w' :
  fold_each rows acc
    (fun target_volumes row =>
       match realtime_data !! row.1 with
       | Some tick =>
           bind (lift (index (askPrice tick) 2))
             (fun price =>
                if (price =? 0)%float
                then bind (log LogWarning) (fun _ => ret target_volumes)
                else
                  bind (lift (_round_to_hundred (total_asset * row.2 / price)%float))
                    (fun target_volume =>
                       bind (log LogInfo)
                         (fun _ => ret (<[row.1 := target_volume]> target_volumes))))
       | None => bind (log LogWarning) (fun _ => ret target_volumes)
       end) w = (r, w') ->
  trace w' = trace w /\ clock w' = clock w /\ r <> Diverge
  /\ forall plan, r = Ret plan ->
       (forall code, is_Some (plan !! code) <->
                     is_Some (acc !! code)
                     \/ (code ∈ rows.*1 /\ is_skipped realtime_data code = false))
       /\ (forall code vol, plan !! code = Some vol ->
                            acc !! code = Some vol \/ vol mod 100 = 0)
       /\ (forall row tick, row ∈ rows -> realtime_data !! row.1 = Some tick ->
                            is_Some (askPrice tick !! 2%nat)).
Proof.
  revert acc w r w'. induction rows as [|row rows IH]; intros acc w r w'.
  - simpl. intros [= <- <-]. split; [done|]. split; [done|]. split; [done|].
    intros plan [= <-]. split; [|split].
    + intros code. split; [by left|]. intros [?|[Hin _]]; [done|].
      by apply elem_of_nil in Hin.
    + by left.
    + intros ? ? Hin. by apply elem_of_nil in Hin.
  - cbn [fold_each]. intros Hrun.
    apply bind_inv in Hrun as [(acc1 & w1 & Hrow & Hrun) | Hstop].
    + assert (trace w1 = trace w /\ clock w1 = clock w
              /\ (forall code, is_Some (acc1 !! code) <->
                               is_Some (acc !! code)
                               \/ (code = row.1 /\ is_skipped realtime_data code = false))
              /\ (forall code vol, acc1 !! code = Some vol ->
                                   acc !! code = Some vol \/ vol mod 100 = 0)
              /\ (forall tick, realtime_data !! row.1 = Some tick ->
                               is_Some (askPrice tick !! 2%nat))) as (Ht1 & Hc1 & Hdom1 & Hval1 & Hlad1).
      { unfold is_skipped. revert Hrow.
        destruct (realtime_data !! row.1) as [tick|] eqn:Hq.
        2:{ rewrite bind_log. intros [= <- <-]. repeat split; try done.
            - by left.
            - intros [?|[-> Hs]]; [done|]. by rewrite Hq in Hs.
            - by left. }
        unfold bind at 1, lift, index.
        destruct (askPrice tick !! 2%nat) as [price|] eqn:Hp; [|done].
        destruct (price =? 0)%float eqn:Hz.
        { rewrite bind_log. intros [= <- <-]. repeat split; try done.
          - by left.
          - intros [?|[-> Hs]]; [done|]. rewrite Hq, Hp in Hs. congruence.
          - by left.
          - intros ? [= <-]. by rewrite Hp. }
        unfold bind at 1.
        destruct (_round_to_hundred (total_asset * row.2 / price)%float)
          as [v| |] eqn:Hround; [|done|done].
        rewrite bind_log. intros [= <- <-]. repeat split; try done.
        - rewrite lookup_insert_is_Some. intros [<-|[_ ?]]; [|by left].
          right. split; [done|]. by rewrite Hq, Hp.
        - intros [?|[-> _]].
          + rewrite lookup_insert_is_Some.
            destruct (decide (row.1 = code)); [by left | by right].
          + rewrite lookup_insert_is_Some. by left.
        - intros code vol Hl. apply lookup_insert_Some in Hl as [[_ <-]|[_ ?]]; [|by left].
          right. by eapply round_to_hundred_multiple.
        - intros ? [= <-]. by rewrite Hp. }
      destruct (IH _ _ _ _ Hrun) as (Ht & Hc & Hr & Hplan).
      split; [congruence|]. split; [congruence|]. split; [done|].
      intros plan Hret. destruct (Hplan plan Hret) as (Hdom & Hval & Hlad).
      split; [|split].
      * intros code. rewrite Hdom, Hdom1. rewrite fmap_cons, elem_of_cons. tauto.
      * intros code vol Hl. destruct (Hval code vol Hl) as [Hl1|?]; [|by right].
        by apply Hval1.
      * intros row' tick Hin Hq. apply elem_of_cons in Hin as [->|Hin]; [by apply Hlad1|].
        by eapply Hlad.
    + assert (trace w' = trace w /\ clock w' = clock w /\ r <> Diverge
              /\ forall plan, r <> Ret plan) as (Ht & Hc & Hr & Hno).
      { destruct Hstop as [(e & Hrow & ->)|[Hrow ->]].
        - assert (trace w' = trace w /\ clock w' = clock w) as [? ?]; [|done].
          revert Hrow. destruct (realtime_data !! row.1) as [tick|].
          2:{ by rewrite bind_log. }
          unfold bind at 1, lift, index.
          destruct (askPrice tick !! 2%nat) as [price|]; [|by intros [= _ <-]].
          destruct (price =? 0)%float; [by rewrite bind_log|].
          unfold bind at 1.
          destruct (_round_to_hundred (total_asset * row.2 / price)%float) as [v| |];
            [by rewrite bind_log | by intros [= _ <-] | done].
        - exfalso. revert Hrow. destruct (realtime_data !! row.1) as [tick|].
          2:{ by rewrite bind_log. }
          unfold bind at 1, lift, index.
          destruct (askPrice tick !! 2%nat) as [price|]; [|done].
          destruct (price =? 0)%float; [by rewrite bind_log|].
          unfold bind at 1.
          destruct (_round_to_hundred (total_asset * row.2 / price)%float) as [v| |] eqn:Hround;
            [by rewrite bind_log | done |].
          by destruct (round_to_hundred_comes_back (total_asset * row.2 / price)%float). }
      split; [done|]. split; [done|]. split; [done|].
      intros plan Hret. by destruct (Hno plan).
Qed.

(** [calculate_target_volume] as its quote call followed by the loop. *)
Lemma target_volume_run gw rows (total_asset : float) w r w' :
  calculate_target_volume gw rows total_asset w = (r, w') ->
  trace w' = trace w ++ [EvFullTick rows.*1]
  /\ clock w' = clock w
  /\ r <> Diverge
  /\ forall plan, r = Ret plan ->
       match gw_get_full_tick gw (trace w) rows.*1 with
       | None => plan = ∅
       | Some realtime_data =>
           (forall code, is_Some (plan !! code) <->
                         code ∈ rows.*1 /\ is_skipped realtime_data code = false)
           /\ (forall code vol, plan !! code = Some vol -> vol mod 100 = 0)
           /\ (forall row tick, row ∈ rows -> realtime_data !! row.1 = Some tick ->
                                is_Some (askPrice tick !! 2%nat))
       end.
Proof.
  unfold calculate_target_volume. rewrite bind_log. intros Hrun.
  apply bind_inv in Hrun as [(fetched & w1 & Hq & Hrun) | [(e & Hq & _) | (Hq & _)]].
  2,3: match type of Hq with
       | try_except _ _ ?w0 = _ =>
           destruct (fetch_quotes gw rows.*1 w0) as (? & Hq' & _); congruence
       end.
  match type of Hq with
  | try_except _ _ ?w0 = _ =>
      destruct (fetch_quotes gw rows.*1 w0) as (w1' & Hq' & Ht1 & Hc1)
  end.
  rewrite Hq' in Hq. injection Hq as <- <-. cbn [trace clock] in Ht1, Hc1.
  destruct (gw_get_full_tick gw (trace w) rows.*1) as [realtime_data|].
  2:{ injection Hrun as <- <-. split; [done|]. split; [done|]. split; [done|].
      by intros plan [= <-]. }
  apply target_volume_loop in Hrun as (Ht & Hc & Hr & Hplan).
  split; [congruence|]. split; [congruence|]. split; [done|].
  intros plan Hret. destruct (Hplan plan Hret) as (Hdom & Hval & Hlad).
  split; [|split; [|done]].
  - intros code. rewrite Hdom, lookup_empty. split; [|by right].
    intros [[? ?]|?]; done.
  - intros code vol Hl. destruct (Hval code vol Hl) as [Hemp|?]; [|done].
    by rewrite lookup_empty in Hemp.
Qed.

(** X4.  [calculate_target_volume] makes exactly one gateway call, the
    batch quote for the full stock list, and always comes back.  When it
    returns a plan, the plan holds exactly the stocks of the rows that were
    not skipped, every target volume is a multiple of 100, and the plan is
    empty if the quote call failed. *)
Theorem target_volume_plan_shape gw rows (total_asset : float) w :
  let run := calculate_target_volume gw rows total_asset w in
  trace run.2 = trace w ++ [EvFullTick rows.*1]
  /\ clock run.2 = clock w
  /\ run.1 <> Diverge
  /\ forall plan, run.1 = Ret plan ->
       match gw_get_full_tick gw (trace w) rows.*1 with
       | None => plan = ∅
       | Some realtime_data =>
           (forall code, is_Some (plan !! code) <->
                         code ∈ rows.*1 /\ is_skipped realtime_data code = false)
           /\ (forall code vol, plan !! code = Some vol -> vol mod 100 = 0)
       end.
Proof.
  cbv zeta.
  destruct (calculate_target_volume gw rows total_asset w) as [r w'] eqn:Hrun.
  apply target_volume_run in Hrun as (Ht & Hc & Hr & Hplan). cbn [fst snd].
  split; [done|]. split; [done|]. split; [done|].
  intros plan Hret. specialize (Hplan plan Hret).
  destruct (gw_get_full_tick gw (trace w) rows.*1); [|done].
  by destruct Hplan as (? & ? & _).
Qed.

(** X5.  A quote that carries fewer than three ask levels is not skipped:
    the whole computation ends in an exception and no plan is returned. *)
Theorem short_ask_ladder_raises gw rows (total_asset : float) w
    (realtime_data : gmap string Tick) (row : string * float) (tick : Tick) :
  gw_get_full_tick gw (trace w) rows.*1 = Some realtime_data ->
  row ∈ rows ->
  realtime_data !! row.1 = Some tick ->
  askPrice tick !! 2%nat = None ->
  exists e, (calculate_target_volume gw rows total_asset w).1 = Raise e.
Proof.
  intros Hq Hin Htick Hshort.
  destruct (calculate_target_volume gw rows total_asset w) as [r w'] eqn:Hrun.
  apply target_volume_run in Hrun as (_ & _ & Hr & Hplan). cbn [fst].
  destruct r as [plan|e|]; [|by exists e|done].
  specialize (Hplan plan eq_refl). rewrite Hq in Hplan.
  destruct Hplan as (_ & _ & Hlad).
  destruct (Hlad row tick Hin Htick) as [price Hprice]. congruence.
Qed.

Lemma short_ask_ladder_raises_witness :
  exists e, (calculate_target_volume short_ladder two_rows 1000000 idle_world).1 = Raise e.
Proof.
  eapply (short_ask_ladder_raises short_ladder two_rows 1000000 idle_world _
            ("600000.SH", 0.5%float)).
  - reflexivity.
  - by left.
  - reflexivity.
  - reflexivity.
Defined.

End TargetVolumesMore.

(** ** More on the fill-wait *)

Section FillWaitMore.
Import Py Trader Reference Scenario.
Implicit Types (gw : Gateway) (w : World).

(** The loop gives up only once the ceiling has passed. *)
Lemma wait_loop_gives_up_late gw (fuel : nat)
    (start_time max_wait_time check_interval : Z) w w' :
  wait_loop gw fuel start_time max_wait_time check_interval w = (Ret false, w') ->
  max_wait_time <= clock w' - start_time.
Proof.
  revert w w'. induction fuel as [|fuel IH]; intros w w'.
  - simpl. unfold bind, time_time.
    destruct (Z.ltb_spec (clock w - start_time) max_wait_time); simpl; [done|].
    intros [= <-]. simpl. lia.
  - cbn [wait_loop]. unfold bind at 1, time_time at 1.
    destruct (Z.ltb_spec (clock w - start_time) max_wait_time); simpl.
    2:{ intros [= <-]. simpl. lia. }
    unfold bind at 1.
    pose proof (poll_spec gw check_interval w) as Hstep.
    destruct (poll gw check_interval w) as [r1 w1]. simpl in Hstep.
    inversion Hstep as [w0 Hf Ht Hc Hl | w0 Hf Hci Ht Hc Hl | w0 Hf Hci Ht]; subst; simpl;
      [done | apply IH | done].
Qed.

(** X6.  Whatever the gateway answers, the fill-wait only asks for the
    order list and sleeps.  It returns true only right after a query that
    showed every order filled, and false only when the ceiling has passed
    without any query having shown that. *)
Theorem fill_wait_outcomes gw (fuel : nat) (max_wait_time check_interval : Z) w :
  let run := wait_for_orders_completion gw fuel max_wait_time check_interval w in
  exists new,
    trace run.2 = trace w ++ new
    /\ Forall (fun e => is_query e || is_sleep e = true) new
    /\ (run.1 = Ret true -> exists ws q, new = ws ++ [q] /\ filled_poll q = true)
    /\ (run.1 = Ret false ->
        max_wait_time <= clock run.2 - clock w
        /\ Forall (fun e => filled_poll e = false) new).
Proof.
  cbv zeta.
  destruct (wait_for_orders_completion gw fuel max_wait_time check_interval w)
    as [r w'] eqn:Hrun. cbn [fst snd].
  destruct (wait_shape _ _ _ _ _ _ _ Hrun) as (new & Ht & Hkind & Htrue & Hfalse).
  exists new. split; [done|]. split; [done|]. split; [done|].
  intros ->. split; [|by apply Hfalse].
  unfold wait_for_orders_completion in Hrun.
  unfold bind at 1, time_time at 1 in Hrun. rewrite bind_log in Hrun.
  by apply wait_loop_gives_up_late in Hrun.
Qed.

(** X7.  With a negative interval the wait cannot sleep: its first poll
    either shows every order filled, and true is returned, or the call ends
    in the [ValueError] of [time.sleep]; it never polls a second time. *)
Theorem negative_interval_aborts gw (fuel : nat) (max_wait_time check_interval : Z) w :
  0 < max_wait_time ->
  check_interval < 0 ->
  let run := wait_for_orders_completion gw (S fuel) max_wait_time check_interval w in
  trace run.2 = trace w ++ [EvQueryOrders (gw_query_stock_orders gw (trace w))]
  /\ (if filled_poll (EvQueryOrders (gw_query_stock_orders gw (trace w)))
      then run.1 = Ret true
      else run.1 = Raise ValueError).
Proof.
  intros Hmax Hci. cbv zeta.
  destruct (wait_for_orders_completion gw (S fuel) max_wait_time check_interval w)
    as [r w'] eqn:Hrun. cbn [fst snd].
  unfold wait_for_orders_completion in Hrun.
  unfold bind at 1, time_time at 1 in Hrun. rewrite bind_log in Hrun.
  cbn [wait_loop] in Hrun. unfold bind at 1, time_time at 1 in Hrun. cbn [clock] in Hrun.
  destruct (Z.ltb_spec (clock w - clock w) max_wait_time); [|lia].
  unfold bind at 1 in Hrun.
  match type of Hrun with
  | context [poll gw check_interval ?w0] =>
      pose proof (poll_spec gw check_interval w0) as Hstep;
      destruct (poll gw check_interval w0) as [r1 w1]
  end.
  cbn [fst snd trace] in Hstep.
  inversion Hstep as [w0 Hf Ht Hc Hl | w0 Hf Hci' Ht Hc Hl | w0 Hf Hci' Ht]; subst;
    cbn [trace] in *; [| lia |].
  - injection Hrun as <- <-. by rewrite Hf.
  - injection Hrun as <- <-. by rewrite Hf.
Qed.

Lemma negative_interval_aborts_witness :
  0 < 10 /\ -2 < 0
  /\ trace (wait_for_orders_completion stuck 1 10 (-2) idle_world).2
     = trace idle_world ++ [EvQueryOrders (gw_query_stock_orders stuck (trace idle_world))]
  /\ (if filled_poll (EvQueryOrders (gw_query_stock_orders stuck (trace idle_world)))
      then (wait_for_orders_completion stuck 1 10 (-2) idle_world).1 = Ret true
      else (wait_for_orders_completion stuck 1 10 (-2) idle_world).1 = Raise ValueError).
Proof.
  split; [lia|]. split; [lia|].
  apply (negative_interval_aborts stuck 0 10 (-2) idle_world); lia.
Defined.

End FillWaitMore.

(** ** What a rebalance orders *)

Section Orders.
Import Py Trader Reference Scenario.
Implicit Types (gw : Gateway) (w : World) (tv : gmap string Z) (cp : gmap string Position).

Lemma emits_iter_in {A} (P : Event -> Prop) (xs : list A) (body : A -> M World unit) :
  (forall x, x ∈ xs -> emits P (body x)) -> emits P (iter xs body).
Proof.
  induction xs as [|x xs IH]; intros Hbody; simpl.
  - apply emits_ret.
  - apply emits_bind.
    + apply Hbody. by left.
    + intros _. apply IH. intros y Hy. apply Hbody. by right.
Qed.

Lemma emits_impl {A} (P Q : Event -> Prop) (m : M World A) :
  (forall e, P e -> Q e) -> emits P m -> emits Q m.
Proof.
  intros HPQ Hm w r w' Hrun. destruct (Hm _ _ _ Hrun) as (new & Ht & HP).
  exists new. split; [done|]. by eapply Forall_impl.
Qed.

(** The parts of a split, when the split returns, are positive and none is
    larger than the volume or than the limit. *)
Lemma split_parts_within (fuel : nat) (vol : Z) (parts : list Z) :
  0 < vol ->
  _split_order_volume fuel vol 100000 = Ret parts ->
  Forall (fun p => 0 < p <= vol /\ p <= 100000) parts.
Proof.
  intros Hvol. unfold _split_order_volume.
  destruct (Z.leb_spec vol 100000).
  - intros [= <-]. repeat constructor; lia.
  - intros Hrun. apply split_loop_parts in Hrun as (new & -> & Hnew & Hsum); [|done].
    simpl. apply Forall_forall. intros p Hp.
    rewrite Forall_forall in Hnew. pose proof (Hnew p Hp).
    assert (p <= total new).
    { apply total_bounds_parts; [|done]. apply Forall_forall. intros q Hq.
      by destruct (Hnew q Hq). }
    lia.
Qed.

(** The orders placed for one stock of a list. *)
Lemma place_within gw (fuel : nat) (side : Side) (orders : list (string * Z))
    (code : string) (listed : Z) (price : float) :
  (code, listed) ∈ orders -> 0 < listed -> (price =? 0)%float = false ->
  emits (order_within side orders) (place gw fuel side code listed price).
Proof.
  intros Hin Hpos Hprice. unfold place.
  destruct (_is_star_market code) eqn:Hstar.
  - intros w r w' Hrun.
    apply bind_inv in Hrun as [(splits & w1 & Hsplit & Hrun) | [(e & Hsplit & ->) | (Hsplit & ->)]].
    2,3: injection Hsplit as _ <-; exists []; rewrite app_nil_r; split; [done | constructor].
    unfold lift in Hsplit. injection Hsplit as Hsplit <-.
    pose proof (split_parts_within _ _ _ Hpos Hsplit) as Hparts.
    revert w r w' Hrun. change (emits (order_within side orders)
      (bind (log LogInfo)
         (fun _ => iter (imap (fun i split_volume => (S i, split_volume)) splits)
            (fun numbered =>
               bind (order_stock gw code side numbered.2 price
                       (remark_of side +:+ "_split_" +:+ pretty numbered.1))
                    (fun _ => log LogInfo))))).
    apply emits_bind; [apply emits_log|]. intros _.
    apply emits_iter_in. intros [i p] Hp.
    apply elem_of_lookup_imap_1 in Hp as (j & q & [= -> ->] & Hq).
    apply list_elem_of_lookup_2 in Hq. rewrite Forall_forall in Hparts.
    destruct (Hparts q Hq) as [? ?].
    apply emits_bind; [|intros _; apply emits_log].
    intros w r w'. unfold order_stock.
    destruct (gw_order_stock gw (trace w)); intros [= <- <-]; simpl;
      eexists; (split; [reflexivity|]); repeat constructor; eauto.
  - apply emits_bind; [|intros _; apply emits_log].
    intros w r w'. unfold order_stock.
    destruct (gw_order_stock gw (trace w)); intros [= <- <-]; simpl;
      eexists; (split; [reflexivity|]); repeat constructor; eauto with lia; congruence.
Qed.

End Orders.

Section OrdersMore.
Import Py Trader Reference Scenario.
Implicit Types (gw : Gateway) (w : World) (tv : gmap string Z) (cp : gmap string Position).

Lemma emits_wait (P : Event -> Prop) gw (fuel : nat) (max_wait_time check_interval : Z) :
  (forall e, is_query e || is_sleep e = true -> P e) ->
  emits P (wait_for_orders_completion gw fuel max_wait_time check_interval).
Proof.
  intros HP w r w' Hrun.
  destruct (wait_shape _ _ _ _ _ _ _ Hrun) as (new & Ht & Hkind & _).
  exists new. split; [done|]. by eapply Forall_impl.
Qed.

Lemma emits_fetch_quotes (P : Event -> Prop) gw (stock_list : list string) :
  (forall e, is_any_order e = false -> P e) ->
  emits P (try_except (bind (get_full_tick gw stock_list) (fun d => ret (Some d)))
             (fun _ => bind (log LogError) (fun _ => ret None))).
Proof.
  intros HP w r w' Hrun.
  destruct (fetch_quotes gw stock_list w) as (w1 & Hq & Ht & _).
  rewrite Hq in Hrun. injection Hrun as _ <-.
  eexists. split; [exact Ht|]. repeat constructor. by apply HP.
Qed.

(** The orders of one phase, for a list of positive volumes. *)
Lemma phase_orders_within gw (fuel : nat) (side : Side) (orders : list (string * Z)) :
  Forall (fun item => 0 < item.2) orders ->
  emits (order_within side orders) (phase gw fuel side orders).
Proof.
  intros Hpos. unfold phase.
  do 3 (apply emits_bind; [apply emits_log | intros _]).
  apply emits_bind; [apply emits_fetch_quotes; by intros []|].
  intros [realtime_data|]; [|apply emits_ret].
  apply emits_bind.
  { apply emits_iter_in. intros [code listed] Hin. cbn [fst snd].
    destruct (realtime_data !! code) as [tick|]; [|apply emits_log].
    apply emits_bind; [apply emits_lift|]. intros price.
    destruct (price =? 0)%float eqn:Hprice; [apply emits_log|].
    apply place_within; [done | | done].
    rewrite Forall_forall in Hpos. by apply (Hpos (code, listed)). }
  intros _. apply emits_bind; [apply emits_log | intros _].
  apply emits_bind; [apply emits_wait; by intros []|].
  intros [|]; [apply emits_ret|].
  apply emits_bind; [apply emits_log | intros _; apply emits_ret].
Qed.

Lemma sell_list_positive tv cp : Forall (fun item => 0 < item.2) (sell_list tv cp).
Proof.
  apply Forall_forall. intros [code vol] Hin.
  apply elem_of_sell_list in Hin as (pos & _ & Hlt & ->). simpl. lia.
Qed.

Lemma buy_list_positive tv cp : Forall (fun item => 0 < item.2) (buy_list tv cp).
Proof.
  apply Forall_forall. intros [code vol] Hin.
  apply elem_of_buy_list in Hin as (target & _ & Hlt & ->). simpl. lia.
Qed.

(** X8.  Every order that [execute_rebalance] submits is a sell order for
    an entry of the sell list or a buy order for an entry of the buy list:
    its volume is positive and no larger than the entry's, its price is not
    zero, and an order for a STAR-market stock is for at most 100000
    shares.  This holds on every gateway and also when the call ends in an
    exception. *)
Theorem rebalance_orders_are_listed gw (fuel : nat) tv cp w :
  exists new,
    trace (execute_rebalance gw fuel tv cp w).2 = trace w ++ new
    /\ Forall (fun e => is_any_order e = true ->
                        order_within STOCK_SELL (sell_list tv cp) e
                        \/ order_within STOCK_BUY (buy_list tv cp) e) new.
Proof.
  destruct (execute_rebalance gw fuel tv cp w) as [r w'] eqn:Hrun. cbn [snd].
  revert w r w' Hrun.
  change (emits (fun e => is_any_order e = true ->
                          order_within STOCK_SELL (sell_list tv cp) e
                          \/ order_within STOCK_BUY (buy_list tv cp) e)
            (execute_rebalance gw fuel tv cp)).
  unfold execute_rebalance.
  do 3 (apply emits_bind; [apply emits_log | intros _]).
  apply emits_bind; [apply emits_iter; intros; apply emits_log | intros _].
  apply emits_bind; [apply emits_iter; intros; apply emits_log | intros _].
  apply emits_bind.
  { destruct (sell_list tv cp) as [|s sells] eqn:Hs; [apply emits_ret|].
    rewrite <- Hs. eapply emits_impl; [|apply phase_orders_within, sell_list_positive].
    intros e He _. by left. }
  intros [r|]; [apply emits_ret|].
  apply emits_bind.
  { destruct (buy_list tv cp) as [|b buys] eqn:Hb; [apply emits_ret|].
    rewrite <- Hb. eapply emits_impl; [|apply phase_orders_within, buy_list_positive].
    intros e He _. by right. }
  intros [r|]; [apply emits_ret|].
  do 3 (apply emits_bind; [apply emits_log | intros _]).
  apply emits_ret.
Qed.

(** X9.  When the batch quote call for the sell list fails,
    [execute_rebalance] returns false after that single call: nothing is
    ordered and the fill-wait is not entered. *)
Theorem sell_quote_outage_stops gw (fuel : nat) tv cp w :
  sell_list tv cp <> [] ->
  gw_get_full_tick gw (trace w) (sell_list tv cp).*1 = None ->
  exists w',
    execute_rebalance gw fuel tv cp w = (Ret false, w')
    /\ trace w' = trace w ++ [EvFullTick (sell_list tv cp).*1]
    /\ clock w' = clock w.
Proof.
  intros Hsells Hq. unfold execute_rebalance. rewrite !bind_log.
  unfold bind at 1.
  match goal with
  | |- context [iter (sell_list tv cp) _ ?w0] =>
      destruct (iter_log (sell_list tv cp) LogInfo w0) as (w1 & -> & Ht1 & Hc1)
  end.
  unfold bind at 1.
  destruct (iter_log (buy_list tv cp) LogInfo w1) as (w2 & -> & Ht2 & Hc2).
  cbn [trace clock] in Ht1, Hc1. rewrite Ht1 in Ht2. rewrite Hc1 in Hc2.
  destruct (sell_list tv cp) as [|s sells] eqn:Hs; [done|].
  unfold bind at 1. unfold phase. rewrite !bind_log. unfold bind at 1.
  match goal with
  | |- context [try_except _ _ ?w0] =>
      destruct (fetch_quotes gw (s :: sells).*1 w0) as (w3 & -> & Ht3 & Hc3)
  end.
  cbn [trace clock] in Ht3, Hc3 |- *. rewrite Ht2 in Ht3 |- *. rewrite Hq.
  eexists. split; [reflexivity|]. split; [done | congruence].
Qed.

Lemma sell_quote_outage_stops_witness :
  sell_list scenario_plan scenario_holdings <> []
  /\ gw_get_full_tick quote_outage (trace idle_world)
       (sell_list scenario_plan scenario_holdings).*1 = None
  /\ exists w',
    execute_rebalance quote_outage 0 scenario_plan scenario_holdings idle_world
    = (Ret false, w')
    /\ trace w' = trace idle_world ++ [EvFullTick (sell_list scenario_plan scenario_holdings).*1]
    /\ clock w' = clock idle_world.
Proof.
  split; [vm_compute; discriminate|]. split; [reflexivity|].
  apply (sell_quote_outage_stops quote_outage 0 scenario_plan scenario_holdings idle_world).
  - vm_compute. discriminate.
  - reflexivity.
Defined.

(** Keeping the key, [omap] keeps the keys apart. *)
Lemma omap_keys_sublist {A B} (f : string * A -> option (string * B))
    (l : list (string * A)) :
  (forall item result, f item = Some result -> result.1 = item.1) ->
  (omap f l).*1 `sublist_of` l.*1.
Proof.
  intros Hkey. induction l as [|item l IH]; simpl; [constructor|].
  destruct (f item) as [result|] eqn:Hf; simpl.
  - rewrite (Hkey _ _ Hf). by constructor.
  - by constructor.
Qed.

(** X10.  In the diff of [execute_rebalance] every stock has at most one
    entry per list, every entry has a positive volume, a sell entry is the
    excess of the usable holding over the target and so never more than the
    usable holding when the target is not negative, and a buy entry is the
    shortfall. *)
Theorem diff_entries tv cp :
  NoDup (sell_list tv cp).*1
  /\ NoDup (buy_list tv cp).*1
  /\ (forall code vol, (code, vol) ∈ sell_list tv cp ->
        0 < vol /\ vol = current_of cp code - target_of tv code
        /\ (0 <= target_of tv code -> vol <= current_of cp code))
  /\ (forall code vol, (code, vol) ∈ buy_list tv cp ->
        0 < vol /\ vol = target_of tv code - current_of cp code).
Proof.
  split; [|split; [|split]].
  - eapply sublist_NoDup; [apply (NoDup_fst_map_to_list cp)|].
    apply omap_keys_sublist. intros item result. simpl.
    destruct (_ <? _); [|done]. by intros [= <-].
  - eapply sublist_NoDup; [apply (NoDup_fst_map_to_list tv)|].
    apply omap_keys_sublist. intros item result. simpl.
    destruct (_ <? _); [|done]. by intros [= <-].
  - intros code vol Hin. apply elem_of_sell_list in Hin as (pos & Hc & Hlt & ->).
    unfold current_of. rewrite Hc. simpl. lia.
  - intros code vol Hin. apply elem_of_buy_list in Hin as (target & Ht & Hlt & ->).
    unfold target_of. rewrite Ht. simpl. lia.
Qed.

End OrdersMore.

(** ** STAR-market codes *)

Section StarMarket.
Import Py Trader Reference Scenario.

Lemma substring_whole (s : string) : String.substring 0 (String.length s) s = s.
Proof. induction s as [|c s IH]; simpl; [done | by rewrite IH]. Qed.

Lemma substring_skip (pre s : string) (m : nat) :
  String.substring (String.length pre) m (pre +:+ s) = String.substring 0 m s.
Proof. induction pre as [|c pre IH]; simpl; done. Qed.

Lemma length_string_app (s1 s2 : string) :
  String.length (s1 +:+ s2) = (String.length s1 + String.length s2)%nat.
Proof. induction s1 as [|c s1 IH]; simpl; [done | by rewrite IH]. Qed.

Lemma substring_split (s : string) (k : nat) :
  (k <= String.length s)%nat ->
  s = String.substring 0 k s +:+ String.substring k (String.length s - k) s.
Proof.
  revert k. induction s as [|c s IH]; intros k Hk; simpl in *.
  - by destruct k.
  - destruct k as [|k]; simpl.
    + by rewrite substring_whole.
    + change (String c s = String c (String.substring 0 k s
                +:+ String.substring k (String.length s - k) s)).
      f_equal. apply IH. lia.
Qed.

(** [s.endswith(p)] holds exactly when [s] is some text followed by [p]. *)
Lemma endswith_spec (s p : string) :
  endswith s p = true <-> exists pre, s = pre +:+ p.
Proof.
  unfold endswith. split.
  - intros [Hlen Heq]%andb_true_iff.
    apply Nat.leb_le in Hlen. apply String.eqb_eq in Heq.
    exists (String.substring 0 (String.length s - String.length p) s).
    pose proof (substring_split s (String.length s - String.length p) ltac:(lia)) as Hs.
    replace (String.length s - (String.length s - String.length p))%nat
      with (String.length p) in Hs by lia.
    by rewrite Heq in Hs.
  - intros [pre ->]. rewrite length_string_app.
    apply andb_true_iff. split; [apply Nat.leb_le; lia|].
    replace (String.length pre + String.length p - String.length p)%nat
      with (String.length pre) by lia.
    rewrite substring_skip, substring_whole. apply String.eqb_refl.
Qed.

(** X11.  [_is_star_market] accepts exactly the codes that read 688, any
    text, .SH: the two tests cannot overlap, so the shortest such code is
    688.SH. *)
Theorem star_market_codes (stock_code : string) :
  _is_star_market stock_code = true
  <-> exists middle, stock_code = "688" +:+ middle +:+ ".SH".
Proof.
  unfold _is_star_market, startswith. split.
  - intros [Hpre Hsuf]%andb_true_iff.
    apply endswith_spec in Hsuf as [pre Hsuf].
    destruct stock_code as [|a [|b [|c rest]]]; cbn [String.prefix] in Hpre;
      repeat (match type of Hpre with
              | context [Ascii.ascii_dec ?x ?y] =>
                  destruct (Ascii.ascii_dec x y) as [<-|]; [|done]
              end; cbn [String.prefix] in Hpre);
      try done.
    destruct pre as [|x [|y [|z pre]]]; try discriminate.
    injection Hsuf as _ _ _ ->. by exists pre.
  - intros [middle ->]. apply andb_true_iff. split; [by destruct middle|].
    apply endswith_spec. by exists ("688" +:+ middle).
Qed.

End StarMarket.

(** ** More on the status store *)

Section StatusMore.
Import Py StatusManager Reference Scenario.

Lemma write_status_result (status : gmap string JsonValue) (d : Disk) :
  write_status status d
  = (Ret tt, if writable d then {| status_file := Stored status; writable := true |} else d).
Proof. unfold write_status, try_except. by destruct (writable d). Qed.

Lemma update_run (d : Disk) (f : gmap string JsonValue -> gmap string JsonValue) :
  (r <- read_status ;; write_status (f (or_empty r)))%py d
  = (Ret tt, if writable d
             then {| status_file := Stored (f (persisted d)); writable := true |}
             else d).
Proof.
  destruct (read_status_or_empty d) as (r & Hread & Hr).
  unfold bind. rewrite Hread, Hr. apply write_status_result.
Qed.

(** X13.  One run as the scheduler records it, on a status file that can
    be written: [mark_running] then [mark_completed].  While the run is
    under way the file shows [is_running = true] next to the verdict and
    the message of the run before; afterwards it shows [is_running = false],
    the start time of this run and its verdict; [next_run_time] is never
    touched, and the message of the earlier run stays when this run gives
    none. *)
Theorem run_cycle_status (now message : string) (success : bool) (d : Disk) :
  writable d = true ->
  exists mid final,
    mark_running now d = (Ret tt, {| status_file := Stored mid; writable := true |})
    /\ mark_completed success message {| status_file := Stored mid; writable := true |}
       = (Ret tt, {| status_file := Stored final; writable := true |})
    /\ mid !! "is_running" = Some (JBool true)
    /\ mid !! "last_run_time" = Some (JString now)
    /\ mid !! "last_status" = persisted d !! "last_status"
    /\ mid !! "error_message" = persisted d !! "error_message"
    /\ final !! "is_running" = Some (JBool false)
    /\ final !! "last_run_time" = Some (JString now)
    /\ final !! "last_status" = Some (JString (if success then "success" else "failed"))
    /\ final !! "error_message"
       = (if truthy message then Some (JString message)
          else persisted d !! "error_message")
    /\ final !! "next_run_time" = persisted d !! "next_run_time".
Proof.
  intros Hw. unfold mark_running, mark_completed.
  rewrite (update_run d (fun st => <["last_run_time" := JString now]>
                                     (<["is_running" := JBool true]> st))).
  rewrite Hw. eexists. eexists. split; [reflexivity|].
  split.
  { rewrite (update_run _ (fun st =>
       if truthy message
       then <["error_message" := JString message]>
              (<["last_status" := JString (if success then "success" else "failed")]>
                 (<["is_running" := JBool false]> st))
       else <["last_status" := JString (if success then "success" else "failed")]>
              (<["is_running" := JBool false]> st))).
    reflexivity. }
  set (old := persisted d). unfold persisted. simpl.
  destruct (truthy message); repeat split; by simplify_map_eq.
Qed.

Lemma run_cycle_status_witness :
  writable failed_disk = true
  /\ exists mid final,
    mark_running "2024-01-16 09:25:00" failed_disk
    = (Ret tt, {| status_file := Stored mid; writable := true |})
    /\ mark_completed true "" {| status_file := Stored mid; writable := true |}
       = (Ret tt, {| status_file := Stored final; writable := true |})
    /\ mid !! "is_running" = Some (JBool true)
    /\ mid !! "last_run_time" = Some (JString "2024-01-16 09:25:00")
    /\ mid !! "last_status" = persisted failed_disk !! "last_status"
    /\ mid !! "error_message" = persisted failed_disk !! "error_message"
    /\ final !! "is_running" = Some (JBool false)
    /\ final !! "last_run_time" = Some (JString "2024-01-16 09:25:00")
    /\ final !! "last_status" = Some (JString (if true then "success" else "failed"))
    /\ final !! "error_message"
       = (if truthy "" then Some (JString "")
          else persisted failed_disk !! "error_message")
    /\ final !! "next_run_time" = persisted failed_disk !! "next_run_time".
Proof.
  split; [reflexivity|].
  apply (run_cycle_status "2024-01-16 09:25:00" "" true failed_disk). reflexivity.
Defined.

End StatusMore.

(** ** The status store on any file *)

Section StatusAnyFile.
Import Py StatusManager StatusStore Reference Scenario.
Implicit Types (d : Store) (status : Value).

Lemma read_status_run d : read_status d = (Ret (document_of d), d).
Proof.
  unfold read_status, document_of, bind, get, try_except.
  by destruct (content d).
Qed.

Lemma write_status_run status d :
  write_status status d
  = (Ret tt,
     {| content := match fate d (writes d) with
                   | Succeeds => Holds status
                   | OpenFails => content d
                   | DumpFails => Garbled
                   end;
        fate := fate d;
        writes := S (writes d) |}).
Proof. unfold write_status, try_except. by destruct (fate d (writes d)). Qed.

(** An update starts from the object in the file or from the empty dict,
    unless the file holds a document that is true and no object. *)
Lemma or_empty_document d :
  if foreign d
  then forall key value, set_item (or_empty (document_of d)) key value = Raise TypeError
  else or_empty (document_of d) = VDict (recorded d).
Proof.
  unfold foreign, document_of, recorded, or_empty.
  destruct (content d) as [| |document]; try done.
  destruct document as [fields| | | | | |]; simpl.
  - case_bool_decide as Hempty; simpl; [by rewrite Hempty | done].
  - by destruct (negb _).
  - by destruct (truthy s).
  - by destruct (negb _).
  - by destruct (negb _).
  - by destruct b.
  - done.
Qed.

Lemma update_next_run_run (next_run_time : string) d :
  update_next_run next_run_time d
  = if foreign d then (Raise TypeError, d)
    else (Ret tt, written d (<["next_run_time" := JString next_run_time]> (recorded d))).
Proof.
  unfold update_next_run. unfold bind at 1. rewrite read_status_run.
  pose proof (or_empty_document d) as Hdoc. destruct (foreign d).
  - unfold bind, lift. by rewrite Hdoc.
  - rewrite Hdoc. unfold bind, lift. cbn [set_item]. by rewrite write_status_run.
Qed.

Lemma mark_running_run (now : string) d :
  mark_running now d
  = if foreign d then (Raise TypeError, d)
    else (Ret tt, written d (running now (recorded d))).
Proof.
  unfold mark_running. unfold bind at 1. rewrite read_status_run.
  pose proof (or_empty_document d) as Hdoc. destruct (foreign d).
  - unfold bind, lift. by rewrite Hdoc.
  - rewrite Hdoc. unfold bind, lift. cbn [set_item]. by rewrite write_status_run.
Qed.

Lemma mark_completed_run (success : bool) (message : string) d :
  mark_completed success message d
  = if foreign d then (Raise TypeError, d)
    else (Ret tt, written d (completed success message (recorded d))).
Proof.
  unfold mark_completed. unfold bind at 1. rewrite read_status_run.
  pose proof (or_empty_document d) as Hdoc. destruct (foreign d).
  - unfold bind, lift. by rewrite Hdoc.
  - rewrite Hdoc. unfold bind, lift, completed. cbn [set_item].
    destruct (truthy message); cbn [set_item ret]; by rewrite write_status_run.
Qed.

(** A file that an update has gone through takes the next update too. *)
Lemma written_not_foreign d (fields : gmap string JsonValue) :
  foreign d = false -> foreign (written d fields) = false.
Proof.
  unfold foreign, written. cbn [content].
  by destruct (fate d (writes d)).
Qed.


(** A status file that holds a list: the run cannot be marked. *)
Example mark_running_on_a_list :
  (mark_running "2024-01-15 09:25:00"
     {| content := Holds (VList 1); fate := fun _ => Succeeds; writes := 0 |}).1
  = Raise TypeError
  /\ (mark_running "2024-01-15 09:25:00"
        {| content := Holds (VList 0); fate := fun _ => Succeeds; writes := 0 |}).1
     = Ret tt
  /\ content (mark_running "2024-01-15 09:25:00"
                {| content := Holds (VDict ∅); fate := fun _ => DumpFails; writes := 0 |}).2
     = Garbled.
Proof. repeat split; vm_compute; reflexivity. Qed.

(** On a disk of [StatusManager] the two stores agree: the same outcome,
    and the same file afterwards. *)
Lemma store_of_read (d0 : Disk) :
  (StatusStore.read_status (store_of d0)).1
  = Ret (match status_file d0 with Stored fields => VDict fields | _ => VNone end)
  /\ (StatusManager.read_status d0).1
     = Ret (match status_file d0 with Stored fields => Some fields | _ => None end).
Proof.
  rewrite read_status_run. unfold StatusManager.read_status, bind, get, try_except.
  unfold document_of, store_of. cbn [content]. by destruct (status_file d0).
Qed.

Lemma recorded_store_of (d0 : Disk) : recorded (store_of d0) = persisted d0.
Proof. unfold recorded, persisted, store_of. cbn [content]. by destruct (status_file d0). Qed.

Lemma foreign_store_of (d0 : Disk) : foreign (store_of d0) = false.
Proof. unfold foreign, store_of. cbn [content]. by destruct (status_file d0). Qed.

Lemma written_store_of (d0 : Disk) (fields : gmap string JsonValue) :
  content (written (store_of d0) fields)
  = content (store_of (if writable d0
                       then {| status_file := Stored fields; writable := true |}
                       else d0)).
Proof. unfold written, store_of. cbn [content fate writes]. by destruct (writable d0). Qed.

Lemma store_of_agrees (d0 : Disk) (next_run_time now message : string) (success : bool) :
  forall (old : M Disk unit) (new : M Store unit),
    (old, new)
      ∈ [(StatusManager.update_next_run next_run_time, StatusStore.update_next_run next_run_time);
         (StatusManager.mark_running now, StatusStore.mark_running now);
         (StatusManager.mark_completed success message,
          StatusStore.mark_completed success message)] ->
    (new (store_of d0)).1 = (old d0).1
    /\ content (new (store_of d0)).2 = content (store_of (old d0).2).
Proof.
  intros old new Hin.
  repeat (apply elem_of_cons in Hin as [[= -> ->] | Hin]); [| | |by apply elem_of_nil in Hin].
  - rewrite update_next_run_run, foreign_store_of, recorded_store_of.
    unfold StatusManager.update_next_run.
    rewrite (update_run d0 (fun st => <["next_run_time" := JString next_run_time]> st)).
    split; [done|]. apply written_store_of.
  - rewrite mark_running_run, foreign_store_of, recorded_store_of.
    unfold StatusManager.mark_running.
    rewrite (update_run d0 (fun st => <["last_run_time" := JString now]>
                                        (<["is_running" := JBool true]> st))).
    split; [done|]. apply written_store_of.
  - rewrite mark_completed_run, foreign_store_of, recorded_store_of.
    unfold StatusManager.mark_completed.
    rewrite (update_run d0 (fun st =>
       let st := <["last_status" := JString (if success then "success" else "failed")]>
                   (<["is_running" := JBool false]> st) in
       if truthy message then <["error_message" := JString message]> st else st)).
    split; [done|]. apply written_store_of.
Qed.

End StatusAnyFile.

(** ** The caches of the calendar *)

Section CalendarCaches.
Import Py Calendar Reference Scenario.
Implicit Types (env : Env) (d : date) (s : State).
Lemma save_result env s :
  _save_cache_to_file env s
  = (Ret tt, {| _trading_days_cache := _trading_days_cache s;
                _monthly_cache := _monthly_cache s;
                cache_file := saved env (_monthly_cache s) (cache_file s) |}).
Proof.
  unfold _save_cache_to_file, try_except, saved.
  destruct (file_writable env); [done|]. by destruct s.
Qed.

(** The loop over the days of an answer: it adds every parsed day to the
    in-memory set and touches nothing else; it raises at the first listed
    date that does not parse, the days before it staying in the set. *)
Lemma fetch_loop env (data : list DayData) (days : list date) s :
  exists r s',
    fold_each data days
      (fun days day_data =>
         if bool_decide (jybz day_data = Some "1") then
           match jyrq day_data with
           | Some date_str =>
               if truthy date_str then
                 (trading_day <- of_option ValueError (strptime_Ymd env date_str) ;;
                  add_trading_day trading_day ;;
                  ret (days ++ [trading_day]))%py
               else ret days
           | None => ret days
           end
         else ret days) s = (r, s')
    /\ _trading_days_cache s ⊆ _trading_days_cache s'
    /\ _monthly_cache s' = _monthly_cache s
    /\ cache_file s' = cache_file s
    /\ match mapM (strptime_Ymd env) (listed_days data) with
       | Some parsed =>
           r = Ret (days ++ parsed)
           /\ _trading_days_cache s' = list_to_set parsed ∪ _trading_days_cache s
       | None => r = Raise ValueError
       end.
Proof.
  revert days s. induction data as [|day_data data IH]; intros days s.
  { exists (Ret days), s. simpl. rewrite app_nil_r.
    repeat split; [done | set_solver]. }
  cbn [fold_each listed_days omap list_omap].
  fold (listed_days data).
  destruct (bool_decide (jybz day_data = Some "1")).
  2:{ unfold bind at 1. unfold ret at 1. apply IH. }
  destruct (jyrq day_data) as [date_str|].
  2:{ unfold bind at 1. unfold ret at 1. apply IH. }
  destruct (truthy date_str).
  2:{ unfold bind at 1. unfold ret at 1. apply IH. }
  cbn [mapM]. unfold bind at 1. unfold bind at 1.
  destruct (strptime_Ymd env date_str) as [trading_day|]; simpl.
  2:{ exists (Raise ValueError), s. done. }
  unfold bind at 1. unfold add_trading_day at 1, modify at 1. unfold ret at 1.
  edestruct IH as (r & s' & -> & Hsub & Hm & Hf & Hr).
  exists r, s'. split; [reflexivity|]. simpl in *.
  split; [set_solver|]. split; [done|]. split; [done|].
  destruct (mapM (strptime_Ymd env) (listed_days data)) as [parsed|]; simpl.
  - destruct Hr as [-> ->]. rewrite <- app_assoc. split; [done|].
    apply leibniz_equiv. set_solver.
  - done.
Qed.

(** X14.  [_fetch_and_cache_month] never raises.  It returns [True] exactly
    when the exchange answers with status 200 and a JSON body, every listed
    date parses and the first day of the following month is a date; then the
    listed days are added to the in-memory set, the month is recorded with
    that first day as its expiry, and the monthly cache is written to the
    file if the file can be written.  Otherwise it returns [False] and
    leaves the monthly cache and the file alone, while days parsed before
    the failure stay in the in-memory set. *)
Theorem fetch_and_cache_month_spec env (y m : Z) s :
  exists b s',
    _fetch_and_cache_month env y m s = (Ret b, s')
    /\ _trading_days_cache s ⊆ _trading_days_cache s'
    /\ match fetched_days env y m, next_month_start y m with
       | Some days, Ret expires =>
           b = true
           /\ _trading_days_cache s' = list_to_set days ∪ _trading_days_cache s
           /\ _monthly_cache s'
              = <[month_key y m := month_entry env days expires]> (_monthly_cache s)
           /\ cache_file s' = saved env (_monthly_cache s') (cache_file s)
       | _, _ =>
           b = false
           /\ _monthly_cache s' = _monthly_cache s
           /\ cache_file s' = cache_file s
       end.
Proof.
  unfold _fetch_and_cache_month, fetched_days, http_get, try_except.
  fold (month_key y m). unfold bind at 1.
  destruct (requests_get env (month_key y m)) as [| |status_code [data|]];
    try (by exists false, s).
  2:{ cbn [raise ret fst snd]. destruct (status_code =? 200); by exists false, s. }
  cbn [ret fst snd]. destruct (status_code =? 200); [|by exists false, s].
  cbn [negb of_option]. unfold bind at 1. unfold ret at 1. unfold bind at 1.
  destruct (fetch_loop env data [] s) as (r & s1 & -> & Hsub & Hm & Hf & Hr).
  destruct (mapM (strptime_Ymd env) (listed_days data)) as [days|].
  2:{ subst r. by exists false, s1. }
  destruct Hr as [-> Hset]. rewrite app_nil_l.
  unfold bind at 1, lift at 1. fold (next_month_start y m).
  destruct (next_month_start y m) as [expires|e|] eqn:Hnext.
  2:{ by exists false, s1. }
  2:{ unfold next_month_start, mk_datetime in Hnext. by repeat case_match. }
  unfold bind at 1. unfold set_month at 1, modify at 1.
  unfold bind at 1. rewrite save_result. cbn [ret].
  eexists true, _. split; [reflexivity|]. cbn.
  rewrite Hm, Hf. done.
Qed.


Lemma extends_refl s : extends s s.
Proof. by split. Qed.

Lemma extends_trans s1 s2 s3 : extends s1 s2 -> extends s2 s3 -> extends s1 s3.
Proof. intros [? ?] [? ?]. split; set_solver. Qed.

(** A fetch comes back with a boolean and loses nothing. *)
Lemma fetch_extends env (y m : Z) s :
  exists b s', _fetch_and_cache_month env y m s = (Ret b, s') /\ extends s s'.
Proof.
  unfold _fetch_and_cache_month, http_get, try_except. unfold bind at 1.
  destruct (requests_get env _) as [| |status_code [data|]];
    try (by exists false, s).
  2:{ cbn [raise ret fst snd]. destruct (status_code =? 200); by exists false, s. }
  cbn [ret fst snd]. destruct (status_code =? 200); [|by exists false, s].
  cbn [negb of_option]. unfold bind at 1. unfold ret at 1. unfold bind at 1.
  destruct (fetch_loop env data [] s) as (r & s1 & -> & Hsub & Hm & Hf & Hr).
  assert (extends s s1) as Hext by (split; [done | by rewrite Hm]).
  destruct r as [days|e|]; [|by exists false, s1|].
  2:{ destruct (mapM (strptime_Ymd env) (listed_days data)) as [?|];
        [destruct Hr as [? _]|]; discriminate. }
  unfold bind at 1, lift at 1.
  destruct (if m =? 12 then mk_datetime (y + 1) 1 1 else mk_datetime y (m + 1) 1)
    as [expires|e|] eqn:Hnext.
  2:{ by exists false, s1. }
  2:{ unfold mk_datetime in Hnext. by repeat case_match. }
  unfold bind at 1. unfold set_month at 1, modify at 1.
  unfold bind at 1. rewrite save_result. cbn [ret].
  eexists true, _. split; [reflexivity|].
  destruct Hext as [Hd Hk]. split; simpl; [done|]. set_solver.
Qed.

(** The three ways through [is_trading_day]: the date is in the in-memory
    set; or the month is cached and fresh, and nothing is fetched; or a fetch
    is made first.  In the last two the answer is that of the in-memory set
    after the fetch, if any, or else of the static tier. *)
Lemma is_trading_day_cases env d s :
  (d ∈ _trading_days_cache s /\ is_trading_day env d s = (Ret true, s))
  \/ ((d ∉ _trading_days_cache s)
      /\ exists s',
          is_trading_day env d s
          = (Ret (bool_decide (d ∈ _trading_days_cache s') || fallback_verdict env d), s')
          /\ ((s' = s
               /\ is_Some (_monthly_cache s !! strftime_Ym env d)
               /\ _is_cache_expired env (strftime_Ym env d) s = (Ret false, s))
              \/ ((_monthly_cache s !! strftime_Ym env d = None
                   \/ _is_cache_expired env (strftime_Ym env d) s = (Ret true, s))
                  /\ exists b, _fetch_and_cache_month env (year d) (month d) s = (Ret b, s')))).
Proof.
  destruct (decide (d ∈ _trading_days_cache s)) as [Hin|Hin].
  { left. split; [done|].
    unfold is_trading_day, is_trading_day_body, try_except, bind, get.
    by rewrite bool_decide_eq_true_2. }
  right. split; [done|].
  assert (forall s1 : State,
             (if bool_decide (d ∈ _trading_days_cache s1)
              then ret true
              else _is_trading_day_fallback env d) s1
             = (Ret (bool_decide (d ∈ _trading_days_cache s1) || fallback_verdict env d), s1))
    as Hrest.
  { intros s1. case_bool_decide; [done|]. by rewrite fallback_answer. }
  unfold is_trading_day, is_trading_day_body, try_except.
  unfold bind at 1. unfold get at 1. rewrite bool_decide_eq_false_2 by done.
  unfold bind, get.
  case_bool_decide as Hmonth.
  - cbn [ret]. destruct (fetch_extends env (year d) (month d) s) as (b & s1 & Hfetch & _).
    rewrite Hfetch. cbn [ret]. rewrite Hrest. exists s1. split; [done|].
    right. split; [by left | by exists b].
  - destruct (expired_returns env (strftime_Ym env d) s) as [stale Hstale].
    rewrite Hstale. destruct stale.
    + destruct (fetch_extends env (year d) (month d) s) as (b & s1 & Hfetch & _).
      rewrite Hfetch. cbn [ret]. rewrite Hrest. exists s1. split; [done|].
      right. split; [by right | by exists b].
    + cbn [ret]. rewrite Hrest. exists s. split; [done|]. left.
      split; [done|]. split; [|done].
      by destruct (_monthly_cache s !! strftime_Ym env d); [eexists|].
Qed.

Lemma is_trading_day_extends env d s :
  exists b s', is_trading_day env d s = (Ret b, s') /\ extends s s'.
Proof.
  destruct (is_trading_day_cases env d s) as [[_ Hrun] | (_ & s' & Hrun & Hhow)].
  - exists true, s. split; [done | apply extends_refl].
  - eexists _, s'. split; [exact Hrun|].
    destruct Hhow as [(-> & _) | (_ & b & Hfetch)]; [apply extends_refl|].
    destruct (fetch_extends env (year d) (month d) s) as (b' & s1 & Hfetch' & Hext).
    congruence.
Qed.

(** X15.  Queries never shrink the caches: after any sequence of
    [is_trading_day] calls no trading day and no month has left them, so a
    day that the in-memory set holds is answered with [True] from then on,
    without a request and without a change of state. *)
Theorem cached_day_stays_trading env d (queries : list date) s :
  d ∈ _trading_days_cache s ->
  exists s',
    iter queries (fun query => is_trading_day env query ;; ret tt)%py s = (Ret tt, s')
    /\ extends s s'
    /\ is_trading_day env d s' = (Ret true, s').
Proof.
  intros Hin.
  assert (exists s', iter queries (fun query => is_trading_day env query ;; ret tt)%py s
                     = (Ret tt, s') /\ extends s s') as (s' & Hrun & Hext).
  { clear Hin. revert s. induction queries as [|query queries IH]; intros s.
    - exists s. split; [done | apply extends_refl].
    - cbn [iter]. unfold bind at 1. unfold bind at 1.
      destruct (is_trading_day_extends env query s) as (b & s1 & -> & Hext1).
      cbn [ret]. destruct (IH s1) as (s' & -> & Hext2).
      exists s'. split; [done|]. by eapply extends_trans. }
  exists s'. split; [done|]. split; [done|].
  destruct (is_trading_day_cases env d s') as [[_ Hrun'] | (Hout & _)]; [done|].
  destruct Hext as [Hdays _]. set_solver.
Qed.

Lemma cached_day_stays_trading_witness :
  ymd 2024 1 2 ∈ _trading_days_cache january_cached
  /\ exists s',
    iter [ymd 2024 1 1; ymd 2024 3 4]
      (fun query => is_trading_day exchange_env query ;; ret tt)%py january_cached
    = (Ret tt, s')
    /\ extends january_cached s'
    /\ is_trading_day exchange_env (ymd 2024 1 2) s' = (Ret true, s').
Proof.
  assert (ymd 2024 1 2 ∈ _trading_days_cache january_cached) as Hin.
  { vm_compute. set_solver. }
  split; [exact Hin|].
  exact (cached_day_stays_trading exchange_env (ymd 2024 1 2)
           [ymd 2024 1 1; ymd 2024 3 4] january_cached Hin).
Defined.

(** X16.  While a month is in the monthly cache and its expiry lies ahead,
    [is_trading_day] sends no request and changes nothing: a date of that
    month outside the in-memory set is decided by the static tier alone, so
    a weekday that the exchange listed as closed is a trading day unless the
    holiday table lists it. *)
Theorem fresh_month_is_not_fetched env d s (entry : MonthEntry)
    (expires_at_str : string) (expires : datetime) :
  _monthly_cache s !! strftime_Ym env d = Some entry ->
  expires_at entry = Some expires_at_str ->
  expires_at_str <> "" ->
  fromisoformat env expires_at_str = Some expires ->
  datetime_ge (datetime_now env) expires = false ->
  is_trading_day env d s
  = (Ret (bool_decide (d ∈ _trading_days_cache s) || fallback_verdict env d), s).
Proof.
  intros Hmonth Hexp Hstr Hiso Hfresh.
  assert (_is_cache_expired env (strftime_Ym env d) s = (Ret false, s)) as Hnot.
  { unfold _is_cache_expired, try_except, bind, get. rewrite Hmonth, Hexp.
    unfold truthy. destruct (String.eqb_spec expires_at_str ""); [done|].
    cbn [negb]. rewrite Hiso. cbn [of_option ret]. by rewrite Hfresh. }
  destruct (is_trading_day_cases env d s) as [[Hin Hrun] | (Hout & s' & Hrun & Hhow)].
  { rewrite Hrun. by rewrite bool_decide_eq_true_2. }
  destruct Hhow as [(-> & _) | ([Hnone | Hstale] & _)]; [done | congruence | congruence].
Qed.

Lemma fresh_month_is_not_fetched_witness :
  is_trading_day exchange_env (ymd 2024 1 1) january_cached
  = (Ret (bool_decide (ymd 2024 1 1 ∈ _trading_days_cache january_cached)
          || fallback_verdict exchange_env (ymd 2024 1 1)), january_cached).
Proof.
  apply (fresh_month_is_not_fetched exchange_env (ymd 2024 1 1) january_cached
           (month_entry exchange_env [ymd 2024 1 2; ymd 2024 1 3]
              {| dt_date := ymd 2024 2 1; dt_seconds := 0 |})
           "2024-02-01T0" {| dt_date := ymd 2024 2 1; dt_seconds := 0 |}).
  - vm_compute. reflexivity.
  - reflexivity.
  - discriminate.
  - reflexivity.
  - reflexivity.
Defined.

(** New Year's Day 2024, a Monday that the exchange listed as closed, is
    answered with true once January has been fetched, the static tables not
    knowing the holiday. *)
Example closed_day_of_a_fetched_month :
  (is_trading_day exchange_env (ymd 2024 1 1) january_cached).1 = Ret true
  /\ (is_trading_day exchange_env (ymd 2024 1 2) january_cached).1 = Ret true
  /\ (is_trading_day exchange_env (ymd 2024 1 6) january_cached).1 = Ret false.
Proof. repeat split; vm_compute; reflexivity. Qed.

End CalendarCaches.

(** ** Refreshing, saving and loading the calendar *)

Section CalendarFile.
Import Py Calendar Reference Scenario.
Implicit Types (env : Env) (d : date) (s : State).

Lemma preload_returns env s :
  exists s', _preload_current_and_next_month env s = (Ret tt, s').
Proof.
  unfold _preload_current_and_next_month, try_except. unfold bind at 1.
  destruct (fetch_extends env (year (dt_date (datetime_now env)))
              (month (dt_date (datetime_now env))) s) as (b1 & s1 & -> & _).
  unfold bind at 1.
  match goal with
  | |- context [_fetch_and_cache_month env ?y ?m s1] =>
      destruct (fetch_extends env y m s1) as (b2 & s2 & -> & _)
  end.
  by exists s2.
Qed.

(** X17.  [refresh_calendar] always returns [True]: its [except] branch is
    out of reach, the preload and the save swallowing their own errors.
    When the file can be written it ends up holding the monthly cache as
    refreshed.  With the exchange out of reach the call still reports
    success, having emptied both caches and overwritten the file with no
    month at all. *)
Theorem refresh_calendar_reports_success env s :
  exists s',
    refresh_calendar env s = (Ret true, s')
    /\ (file_writable env = true ->
        exists file, cache_file s' = Some file /\ months file = _monthly_cache s')
    /\ ((forall month_str, requests_get env month_str = HttpTimeout
                           \/ requests_get env month_str = HttpFailure) ->
        s' = {| _trading_days_cache := ∅;
                _monthly_cache := ∅;
                cache_file := saved env ∅ (cache_file s) |}).
Proof.
  unfold refresh_calendar, try_except. unfold bind at 1.
  unfold clear_caches at 1, modify at 1.
  set (s0 := {| _trading_days_cache := ∅; _monthly_cache := ∅;
                cache_file := cache_file s |}).
  unfold bind at 1.
  destruct (preload_returns env s0) as (s1 & Hpre). rewrite Hpre.
  unfold bind at 1. rewrite save_result. cbn [ret].
  eexists. split; [reflexivity|]. split.
  - intros Hw. unfold saved. rewrite Hw. cbn. by eexists.
  - intros Hoff.
    assert (s1 = s0) as ->; [|done].
    revert Hpre. unfold _preload_current_and_next_month, try_except, bind.
    rewrite (fetch_unreachable env _ _ s0) by apply Hoff.
    rewrite (fetch_unreachable env _ _ s0) by apply Hoff.
    cbn. congruence.
Qed.

(** Loading the days of one month. *)
Lemma load_days env (strs : list string) s :
  exists r s',
    iter strs (fun date_str =>
                 trading_day <- of_option ValueError (strptime_Ymd env date_str) ;;
                 add_trading_day trading_day)%py s = (r, s')
    /\ r <> Diverge
    /\ _monthly_cache s' = _monthly_cache s
    /\ cache_file s' = cache_file s
    /\ (Forall (fun str => is_Some (strptime_Ymd env str)) strs ->
        r = Ret tt
        /\ forall d, d ∈ _trading_days_cache s'
                     <-> d ∈ _trading_days_cache s
                         \/ exists str, str ∈ strs /\ strptime_Ymd env str = Some d).
Proof.
  revert s. induction strs as [|str strs IH]; intros s.
  { exists (Ret tt), s. do 4 (split; [done|]). intros _. split; [done|].
    intros d. split; [tauto|].
    intros [?|(str & Hin & _)]; [done|]. by apply elem_of_nil in Hin. }
  cbn [iter]. unfold bind at 1. unfold bind at 1.
  destruct (strptime_Ymd env str) as [trading_day|] eqn:Hparse; cbn [of_option ret raise].
  2:{ exists (Raise ValueError), s. do 4 (split; [done|]).
      intros Hall. apply Forall_cons in Hall as [[? Hsome] _]. congruence. }
  unfold add_trading_day at 1, modify at 1.
  edestruct IH as (r & s' & -> & Hr & Hm & Hf & Hok).
  exists r, s'. split; [reflexivity|]. cbn in *. do 3 (split; [done|]).
  intros Hall. apply Forall_cons in Hall as [_ Hall].
  destruct (Hok Hall) as [-> Hiff]. split; [done|].
  intros d. rewrite Hiff. split.
  - intros [Hin | (str' & Hin & Hp)].
    + apply elem_of_union in Hin as [Hin | Hin]; [|by left].
      apply elem_of_singleton in Hin as ->. right. exists str. split; [by left | done].
    + right. exists str'. split; [by right | done].
  - intros [Hin | (str' & Hin & Hp)].
    + left. set_solver.
    + apply elem_of_cons in Hin as [-> | Hin].
      * left. rewrite Hparse in Hp. set_solver.
      * right. by exists str'.
Qed.

(** Loading month after month. *)
Lemma load_months env (entries : list (string * MonthEntry)) s :
  exists r s',
    iter entries
      (fun month =>
         iter (trading_days month.2)
           (fun date_str =>
              trading_day <- of_option ValueError (strptime_Ymd env date_str) ;;
              add_trading_day trading_day))%py s = (r, s')
    /\ r <> Diverge
    /\ _monthly_cache s' = _monthly_cache s
    /\ cache_file s' = cache_file s
    /\ (Forall (fun month => Forall (fun str => is_Some (strptime_Ymd env str))
                               (trading_days month.2)) entries ->
        r = Ret tt
        /\ forall d, d ∈ _trading_days_cache s'
                     <-> d ∈ _trading_days_cache s
                         \/ exists month str, month ∈ entries
                                              /\ str ∈ trading_days month.2
                                              /\ strptime_Ymd env str = Some d).
Proof.
  revert s. induction entries as [|month entries IH]; intros s.
  { exists (Ret tt), s. do 4 (split; [done|]). intros _. split; [done|].
    intros d. split; [tauto|].
    intros [?|(month & str & Hin & _)]; [done|]. by apply elem_of_nil in Hin. }
  cbn [iter]. unfold bind at 1.
  destruct (load_days env (trading_days month.2) s) as (r1 & s1 & -> & Hr1 & Hm1 & Hf1 & Hok1).
  destruct r1 as [[]|e|]; [| |done].
  2:{ exists (Raise e), s1. do 4 (split; [done|]).
      intros Hall. apply Forall_cons in Hall as [Hall _].
      by destruct (Hok1 Hall) as [? _]. }
  destruct (IH s1) as (r & s' & -> & Hr & Hm & Hf & Hok).
  exists r, s'. split; [reflexivity|].
  split; [done|]. split; [congruence|]. split; [congruence|].
  intros Hall. apply Forall_cons in Hall as [Hall1 Hall].
  destruct (Hok Hall) as [-> Hiff]. destruct (Hok1 Hall1) as [_ Hiff1].
  split; [done|]. intros d. rewrite Hiff, Hiff1. split.
  - intros [[Hin | (str & Hin & Hp)] | (month' & str & Hin & Hstr & Hp)].
    + by left.
    + right. exists month, str. split; [by left | done].
    + right. exists month', str. split; [by right | done].
  - intros [Hin | (month' & str & Hin & Hstr & Hp)]; [by left; left|].
    apply elem_of_cons in Hin as [-> | Hin].
    + left. right. by exists str.
    + right. by exists month', str.
Qed.

(** X18.  What [_save_cache_to_file] writes, [_load_cache_from_file] reads
    back, also into another instance of the service: the monthly cache is
    the saved one, and if every stored date string parses the in-memory set
    holds exactly the dates stored.  The load never raises; when a stored
    string does not parse it stops there, the monthly cache already
    replaced. *)
Theorem cache_file_round_trip env s :
  file_writable env = true ->
  exists s1,
    _save_cache_to_file env s = (Ret tt, s1)
    /\ forall restarted,
        cache_file restarted = cache_file s1 ->
        exists s',
          _load_cache_from_file env restarted = (Ret tt, s')
          /\ _monthly_cache s' = _monthly_cache s
          /\ cache_file s' = cache_file s1
          /\ ((forall key entry, _monthly_cache s !! key = Some entry ->
                 Forall (fun str => is_Some (strptime_Ymd env str)) (trading_days entry)) ->
              forall d, d ∈ _trading_days_cache s'
                        <-> exists key entry str,
                              _monthly_cache s !! key = Some entry
                              /\ str ∈ trading_days entry
                              /\ strptime_Ymd env str = Some d).
Proof.
  intros Hw. eexists. split; [apply save_result|].
  unfold saved. rewrite Hw. cbn [cache_file].
  intros restarted Hfile.
  unfold _load_cache_from_file, try_except. unfold bind at 1, get at 1.
  rewrite Hfile. unfold bind at 1, modify at 1. cbn [months].
  set (s0 := {| _trading_days_cache := ∅; _monthly_cache := _monthly_cache s;
                cache_file := cache_file restarted |}).
  destruct (load_months env (map_to_list (_monthly_cache s)) s0)
    as (r & s' & -> & Hr & Hm & Hf & Hok).
  assert (exists r', (match r with Raise _ => ret tt s' | _ => (r, s') end) = (Ret tt, s')
                     /\ (r = Ret tt -> r' = r)) as (r' & Hrun & _).
  { destruct r as [[]|e|]; [by exists (Ret tt) | by exists (Ret tt) | done]. }
  exists s'. split.
  { destruct r as [[]|e|]; done. }
  split; [done|]. split; [by rewrite Hf, <- Hfile|].
  intros Hparse.
  destruct Hok as [_ Hiff].
  { apply Forall_forall. intros [key entry] Hin.
    apply elem_of_map_to_list in Hin. by eapply Hparse. }
  intros d. rewrite Hiff. split.
  - intros [Hin | ([key entry] & str & Hin & Hstr & Hp)]; [set_solver|].
    apply elem_of_map_to_list in Hin. by exists key, entry, str.
  - intros (key & entry & str & Hin & Hstr & Hp). right.
    exists (key, entry), str. split; [by apply elem_of_map_to_list | done].
Qed.

Lemma cache_file_round_trip_witness :
  file_writable exchange_env = true
  /\ exists s1,
    _save_cache_to_file exchange_env january_cached = (Ret tt, s1)
    /\ forall restarted,
        cache_file restarted = cache_file s1 ->
        exists s',
          _load_cache_from_file exchange_env restarted = (Ret tt, s')
          /\ _monthly_cache s' = _monthly_cache january_cached
          /\ cache_file s' = cache_file s1
          /\ ((forall key entry, _monthly_cache january_cached !! key = Some entry ->
                 Forall (fun str => is_Some (strptime_Ymd exchange_env str))
                   (trading_days entry)) ->
              forall d, d ∈ _trading_days_cache s'
                        <-> exists key entry str,
                              _monthly_cache january_cached !! key = Some entry
                              /\ str ∈ trading_days entry
                              /\ strptime_Ymd exchange_env str = Some d).
Proof.
  split; [reflexivity|].
  apply (cache_file_round_trip exchange_env january_cached). reflexivity.
Defined.

End CalendarFile.

(** ** Dates and ordinals *)

Section Dates.
Import Py Calendar Reference Scenario.
Implicit Types (d : date) (y m n o : Z).

Lemma days_before_year_succ y :
  _days_before_year (y + 1) = _days_before_year y + 365 + (if _is_leap y then 1 else 0).
Proof.
  unfold _days_before_year, _is_leap. cbv zeta.
  replace (y + 1 - 1) with y by lia.
  destruct (Z.eqb_spec (y mod 4) 0), (Z.eqb_spec (y mod 100) 0), (Z.eqb_spec (y mod 400) 0);
    cbn [negb andb orb]; Z.div_mod_to_equations; lia.
Qed.

Lemma days_before_year_mono y1 y2 :
  y1 <= y2 -> _days_before_year y1 <= _days_before_year y2.
Proof. unfold _days_before_year. cbv zeta. intros. Z.div_mod_to_equations. lia. Qed.

(** The month and day part of [_ord2ymd], checked day by day for a common
    and for a leap year. *)
Lemma ord2ymd_month_day y n (leapyear : bool) :
  0 <= n < 365 -> leapyear = _is_leap y ->
  let d :=
    (let m := Z.shiftr (n + 50) 5 in
     let preceding := nth (Z.to_nat m) _DAYS_BEFORE_MONTH 0
                      + (if (2 <? m) && leapyear then 1 else 0) in
     if n <? preceding
     then
       let m := m - 1 in
       let preceding := preceding
                        - (nth (Z.to_nat m) _DAYS_IN_MONTH 0
                           + (if (m =? 2) && leapyear then 1 else 0)) in
       {| year := y; month := m; day := n - preceding + 1 |}
     else {| year := y; month := m; day := n - preceding + 1 |}) in
  year d = y
  /\ 1 <= month d <= 12
  /\ 1 <= day d <= _days_in_month y (month d)
  /\ _days_before_month y (month d) + day d = n + 1.
Proof.
  intros Hn Hleap.
  assert (forallb
            (fun n =>
               forallb
                 (fun leapyear : bool =>
                    let m := Z.shiftr (n + 50) 5 in
                    let preceding := nth (Z.to_nat m) _DAYS_BEFORE_MONTH 0
                                     + (if (2 <? m) && leapyear then 1 else 0) in
                    let md :=
                      if n <? preceding
                      then (m - 1,
                            n - (preceding
                                 - (nth (Z.to_nat (m - 1)) _DAYS_IN_MONTH 0
                                    + (if (m - 1 =? 2) && leapyear then 1 else 0))) + 1)
                      else (m, n - preceding + 1) in
                    (1 <=? md.1) && (md.1 <=? 12) && (1 <=? md.2)
                    && (md.2 <=? (if (md.1 =? 2) && leapyear then 29
                                  else nth (Z.to_nat md.1) _DAYS_IN_MONTH 0))
                    && (nth (Z.to_nat md.1) _DAYS_BEFORE_MONTH 0
                        + (if (2 <? md.1) && leapyear then 1 else 0) + md.2 =? n + 1))
                 [true; false])
            (seqZ 0 365) = true) as Htable by (vm_compute; reflexivity).
  rewrite forallb_forall in Htable.
  specialize (Htable n). rewrite <- list_elem_of_In in Htable.
  specialize (Htable ltac:(apply elem_of_seqZ; lia)).
  rewrite forallb_forall in Htable.
  specialize (Htable leapyear). rewrite <- list_elem_of_In in Htable.
  specialize (Htable ltac:(destruct leapyear; set_solver)).
  cbv zeta in Htable |- *.
  unfold _days_in_month, _days_before_month. rewrite <- Hleap.
  destruct (n <? _) ; cbn [year month day fst snd] in *;
    repeat (apply andb_prop in Htable as [Htable ?]); lia.
Qed.

(** [_ord2ymd] inverts [toordinal] and gives a date of the calendar. *)
Lemma ord2ymd_spec o :
  1 <= o ->
  toordinal (_ord2ymd o) = o
  /\ 1 <= year (_ord2ymd o)
  /\ (o <= _MAXORDINAL -> year (_ord2ymd o) <= 9999)
  /\ 1 <= month (_ord2ymd o) <= 12
  /\ 1 <= day (_ord2ymd o) <= _days_in_month (year (_ord2ymd o)) (month (_ord2ymd o)).
Proof.
  intros Ho. unfold _ord2ymd, _MAXORDINAL, _DI400Y, _DI100Y, _DI4Y. cbv zeta.
  set (n0 := o - 1).
  set (n400 := n0 / 146097). set (r400 := n0 mod 146097).
  set (n100 := r400 / 36524). set (r100 := r400 mod 36524).
  set (n4 := r100 / 1461). set (r4 := r100 mod 1461).
  set (n1 := r4 / 365). set (n := r4 mod 365).
  assert (0 <= n400 /\ 0 <= r400 < 146097 /\ n0 = 146097 * n400 + r400) as (H400 & Hr400 & E400).
  { subst n400 r400. Z.div_mod_to_equations. lia. }
  assert (0 <= n100 <= 4 /\ 0 <= r100 < 36524 /\ r400 = 36524 * n100 + r100) as (H100 & Hr100 & E100).
  { subst n100 r100. Z.div_mod_to_equations. lia. }
  assert (0 <= n4 <= 24 /\ 0 <= r4 < 1461 /\ r100 = 1461 * n4 + r4) as (H4 & Hr4 & E4).
  { subst n4 r4. Z.div_mod_to_equations. lia. }
  assert (0 <= n1 <= 4 /\ 0 <= n < 365 /\ r4 = 365 * n1 + n) as (H1 & Hn & E1).
  { subst n1 n. Z.div_mod_to_equations. lia. }
  clearbody n400 r400 n100 r100 n4 r4 n1 n.
  set (y := n400 * 400 + 1 + (n100 * 100 + n4 * 4 + n1)).
  destruct ((n1 =? 4) || (n100 =? 4)) eqn:Hlast.
  - (* the last day of a leap year or of a 400-year cycle *)
    assert (_is_leap (y - 1) = true /\ _days_before_year y = o) as [Hleap Hdby].
    { apply orb_prop in Hlast as [Hlast | Hlast]; apply Z.eqb_eq in Hlast.
      - assert (n = 0) by lia. 
        split.
        + unfold _is_leap. subst y.
          replace ((n400 * 400 + 1 + (n100 * 100 + n4 * 4 + n1) - 1) mod 4) with 0
            by (Z.div_mod_to_equations; lia).
          destruct (Z.eqb_spec ((n400 * 400 + 1 + (n100 * 100 + n4 * 4 + n1) - 1) mod 100) 0) as [E|E];
            [|done].
          cbn [Z.eqb negb andb orb].
          apply Z.eqb_eq. revert E. Z.div_mod_to_equations. lia.
        + unfold _days_before_year. cbv zeta. subst y. Z.div_mod_to_equations. lia.
      - assert (r100 = 0) by lia. assert (n4 = 0 /\ n1 = 0 /\ n = 0) as (-> & -> & ->) by lia.
        split.
        + unfold _is_leap. subst y.
          replace ((n400 * 400 + 1 + (n100 * 100 + 0 * 4 + 0) - 1) mod 400) with 0
            by (Z.div_mod_to_equations; lia).
          replace ((n400 * 400 + 1 + (n100 * 100 + 0 * 4 + 0) - 1) mod 4) with 0
            by (Z.div_mod_to_equations; lia).
          cbn [Z.eqb negb andb orb]. by rewrite orb_true_r.
        + unfold _days_before_year. cbv zeta. subst y. Z.div_mod_to_equations. lia. }
    cbn [year month day]. unfold toordinal. cbn [year month day].
    pose proof (days_before_year_succ (y - 1)) as Hsucc.
    replace (y - 1 + 1) with y in Hsucc by lia. rewrite Hleap in Hsucc.
    assert (_days_before_month (y - 1) 12 = 335) as ->.
    { unfold _days_before_month. by rewrite Hleap. }
    assert (_days_in_month (y - 1) 12 = 31) as -> by reflexivity.
    subst y. lia.
  - apply orb_false_elim in Hlast as [Hn1 Hn100].
    apply Z.eqb_neq in Hn1, Hn100.
    assert (_days_before_year y = n0 - n) as Hdby.
    { unfold _days_before_year. cbv zeta. subst y. Z.div_mod_to_equations. lia. }
    assert ((n1 =? 3) && (negb (n4 =? 24) || (n100 =? 3)) = _is_leap y) as Hleap.
    { unfold _is_leap. subst y.
      destruct (Z.eqb_spec n1 3), (Z.eqb_spec n4 24), (Z.eqb_spec n100 3),
        (Z.eqb_spec ((n400 * 400 + 1 + (n100 * 100 + n4 * 4 + n1)) mod 4) 0),
        (Z.eqb_spec ((n400 * 400 + 1 + (n100 * 100 + n4 * 4 + n1)) mod 100) 0),
        (Z.eqb_spec ((n400 * 400 + 1 + (n100 * 100 + n4 * 4 + n1)) mod 400) 0);
        cbn [negb andb orb]; try reflexivity; exfalso;
        Z.div_mod_to_equations; lia. }
    pose proof (ord2ymd_month_day y n _ Hn Hleap) as Hmd. cbv zeta in Hmd.
    destruct Hmd as (Hy & Hm & Hd & Hord).
    unfold toordinal. rewrite Hy. split; [lia|]. split; [lia|]. split; [|done].
    intros Hmax. subst y. lia.
Qed.

(** The months of a year follow one another without gap or overlap. *)
Lemma months_in_order y m m' :
  1 <= m <= 12 -> 1 <= m' <= 12 ->
  0 <= _days_before_month y m
  /\ 28 <= _days_in_month y m
  /\ _days_before_month y m + _days_in_month y m <= 365 + (if _is_leap y then 1 else 0)
  /\ (m < m' -> _days_before_month y m + _days_in_month y m <= _days_before_month y m').
Proof.
  intros Hm Hm'.
  assert (forallb
            (fun m =>
               forallb
                 (fun m' =>
                    forallb
                      (fun leapyear : bool =>
                         let before m :=
                           nth (Z.to_nat m) _DAYS_BEFORE_MONTH 0
                           + (if (2 <? m) && leapyear then 1 else 0) in
                         let within m :=
                           if (m =? 2) && leapyear then 29
                           else nth (Z.to_nat m) _DAYS_IN_MONTH 0 in
                         (0 <=? before m) && (28 <=? within m)
                         && (before m + within m <=? 365 + (if leapyear then 1 else 0))
                         && ((m' <=? m) || (before m + within m <=? before m')))
                      [true; false])
                 (seqZ 1 12))
            (seqZ 1 12) = true) as Htable by (vm_compute; reflexivity).
  rewrite forallb_forall in Htable.
  specialize (Htable m). rewrite <- list_elem_of_In in Htable.
  specialize (Htable ltac:(apply elem_of_seqZ; lia)).
  rewrite forallb_forall in Htable.
  specialize (Htable m'). rewrite <- list_elem_of_In in Htable.
  specialize (Htable ltac:(apply elem_of_seqZ; lia)).
  rewrite forallb_forall in Htable.
  specialize (Htable (_is_leap y)). rewrite <- list_elem_of_In in Htable.
  specialize (Htable ltac:(destruct (_is_leap y); set_solver)).
  cbv zeta in Htable. unfold _days_before_month, _days_in_month.
  repeat (apply andb_prop in Htable as [Htable ?]).
  destruct (Z.leb_spec m' m); [lia|]. cbn [orb] in *. lia.
Qed.

Lemma toordinal_in_year d :
  valid_date d ->
  _days_before_year (year d) < toordinal d <= _days_before_year (year d + 1).
Proof.
  intros (Hy & Hm & Hd). unfold toordinal. rewrite days_before_year_succ.
  pose proof (months_in_order (year d) (month d) (month d) Hm Hm). lia.
Qed.

(** On dates of the calendar the comparison of [(year, month, day)] is the
    comparison of the ordinals. *)
Lemma date_le_ordinal d1 d2 :
  valid_date d1 -> valid_date d2 ->
  date_le d1 d2 = true <-> toordinal d1 <= toordinal d2.
Proof.
  intros Hv1 Hv2.
  pose proof (toordinal_in_year d1 Hv1) as Hb1.
  pose proof (toordinal_in_year d2 Hv2) as Hb2.
  destruct Hv1 as (Hy1 & Hm1 & Hd1), Hv2 as (Hy2 & Hm2 & Hd2).
  unfold date_le.
  destruct (Z.ltb_spec (year d1) (year d2)) as [Hlt|Hge].
  { pose proof (days_before_year_mono (year d1 + 1) (year d2)). cbn [orb]. split; [lia|done]. }
  destruct (Z.eqb_spec (year d1) (year d2)) as [Heq|Hne].
  2:{ pose proof (days_before_year_mono (year d2 + 1) (year d1)). cbn [orb andb].
      split; [done|lia]. }
  cbn [orb andb]. unfold toordinal. rewrite Heq.
  pose proof (months_in_order (year d2) (month d1) (month d2) Hm1 Hm2) as (_ & _ & _ & H12).
  pose proof (months_in_order (year d2) (month d2) (month d1) Hm2 Hm1) as (_ & _ & _ & H21).
  rewrite Heq in Hd1.
  destruct (Z.ltb_spec (month d1) (month d2)); [cbn [orb]; split; [lia|done]|].
  destruct (Z.eqb_spec (month d1) (month d2)) as [Hmeq|Hmne]; cbn [orb andb].
  - rewrite Hmeq. rewrite Z.leb_le. lia.
  - split; [done|]. lia.
Qed.

Lemma toordinal_inj d1 d2 :
  valid_date d1 -> valid_date d2 -> toordinal d1 = toordinal d2 -> d1 = d2.
Proof.
  intros Hv1 Hv2 Heq.
  assert (date_le d1 d2 = true) as H12 by (apply date_le_ordinal; [done..|lia]).
  assert (date_le d2 d1 = true) as H21 by (apply date_le_ordinal; [done..|lia]).
  unfold date_le in *. destruct d1 as [y1 m1 dd1], d2 as [y2 m2 dd2]. cbn in *.
  assert (y1 = y2 /\ m1 = m2 /\ dd1 = dd2) as (-> & -> & ->); [|done].
  destruct (Z.ltb_spec y1 y2), (Z.ltb_spec y2 y1), (Z.eqb_spec y1 y2), (Z.eqb_spec y2 y1),
    (Z.ltb_spec m1 m2), (Z.ltb_spec m2 m1), (Z.eqb_spec m1 m2), (Z.eqb_spec m2 m1),
    (Z.leb_spec dd1 dd2), (Z.leb_spec dd2 dd1); cbn [orb andb] in *; try discriminate; lia.
Qed.

Lemma toordinal_range d : valid_date d -> 1 <= toordinal d <= _MAXORDINAL.
Proof.
  intros Hv. pose proof (toordinal_in_year d Hv) as Hb. destruct Hv as (Hy & _).
  pose proof (days_before_year_mono 1 (year d)).
  pose proof (days_before_year_mono (year d + 1) 10000).
  change (_days_before_year 1) with 0 in *.
  change (_days_before_year 10000) with 3652059 in *.
  unfold _MAXORDINAL. lia.
Qed.

(** [d + timedelta(days=days)]: the date that many days later, or an
    [OverflowError] outside the calendar. *)
Lemma date_add_spec d (days : Z) :
  match date_add d days with
  | Ret d' =>
      valid_date d' /\ toordinal d' = toordinal d + days
  | Raise e =>
      e = OverflowError /\ (toordinal d + days < 1 \/ _MAXORDINAL < toordinal d + days)
  | Diverge => False
  end.
Proof.
  unfold date_add. cbv zeta.
  destruct (Z.ltb_spec 0 (toordinal d + days)); cbn [andb]; [|split; [done|lia]].
  destruct (Z.leb_spec (toordinal d + days) _MAXORDINAL); [|split; [done|lia]].
  destruct (ord2ymd_spec (toordinal d + days)) as (Hord & Hy & Hmax & Hm & Hd); [lia|].
  split; [|done]. split; [|done]. split; [done | by apply Hmax].
Qed.

End Dates.

(** ** Searching the calendar *)

Section CalendarSearch.
Import Py Calendar Reference Scenario.
Implicit Types (env : Env) (d : date) (s : State).

(** One query with what it tells: the caches grow; a date answered with
    true is in the in-memory set afterwards or accepted by the static tier; a
    date answered with false was not in the set before and is rejected by
    the static tier. *)
Lemma is_trading_day_answer env d s :
  exists b s',
    is_trading_day env d s = (Ret b, s')
    /\ extends s s'
    /\ (b = true -> d ∈ _trading_days_cache s' \/ fallback_verdict env d = true)
    /\ (b = false -> (d ∉ _trading_days_cache s) /\ fallback_verdict env d = false).
Proof.
  destruct (is_trading_day_extends env d s) as (b & s' & Hrun & Hext).
  exists b, s'. split; [done|]. split; [done|].
  destruct (is_trading_day_cases env d s) as [[Hin Hrun'] | (Hout & s1 & Hrun' & _)].
  - assert (b = true /\ s' = s) as [-> ->] by (rewrite Hrun in Hrun'; by simplify_eq).
    split; [by left | done].
  - assert (b = bool_decide (d ∈ _trading_days_cache s') || fallback_verdict env d) as ->.
    { rewrite Hrun in Hrun'. by simplify_eq. }
    split.
    + intros Hb. apply orb_prop in Hb as [Hb | Hb]; [left | by right].
      by apply bool_decide_eq_true in Hb.
    + intros Hb. apply orb_false_elim in Hb as [_ Hb]. done.
Qed.

(** The loop of [get_next_trading_day], from any round on. *)
Lemma next_trading_day_loop_spec env (rounds : nat) (current_date : date)
    (found_count skip_days : Z) s :
  valid_date current_date ->
  exists r s',
    next_trading_day_loop env rounds current_date found_count skip_days s = (r, s')
    /\ r <> Diverge
    /\ extends s s'
    /\ (forall found, r = Ret (Some found) ->
          valid_date found
          /\ toordinal current_date < toordinal found <= toordinal current_date + Z.of_nat rounds
          /\ (found ∈ _trading_days_cache s' \/ fallback_verdict env found = true)
          /\ skip_days <= found_count + (toordinal found - toordinal current_date))
    /\ (skip_days <= found_count + 1 ->
        forall d, valid_date d ->
                  toordinal current_date < toordinal d
                  /\ match r with
                     | Ret (Some found) => toordinal d < toordinal found
                     | _ => toordinal d <= toordinal current_date + Z.of_nat rounds
                     end ->
                  (d ∉ _trading_days_cache s) /\ fallback_verdict env d = false).
Proof.
  revert current_date found_count s.
  induction rounds as [|rounds IH]; intros current_date found_count s Hvalid.
  { exists (Ret None), s. split; [done|]. split; [done|]. split; [apply extends_refl|].
    split; [done|]. intros _ d _ [? ?]. lia. }
  cbn [next_trading_day_loop]. unfold bind at 1, lift at 1.
  pose proof (date_add_spec current_date 1) as Hadd.
  destruct (date_add current_date 1) as [next|e|]; [| |done].
  2:{ destruct Hadd as [-> Hover].
      exists (Raise OverflowError), s. split; [done|]. split; [done|].
      split; [apply extends_refl|]. split; [done|].
      intros _ d Hv [Hafter _]. pose proof (toordinal_range d Hv).
      pose proof (toordinal_range current_date Hvalid). lia. }
  destruct Hadd as [Hvnext Hnext].
  unfold bind at 1.
  destruct (is_trading_day_answer env next s) as (b & s1 & -> & Hext1 & Hyes & Hno).
  assert (forall d, valid_date d -> toordinal current_date < toordinal d ->
                    d = next \/ toordinal next < toordinal d) as Hsplit.
  { intros d Hv Hafter. destruct (decide (toordinal d = toordinal next)) as [Heq|Hne].
    - left. by apply toordinal_inj.
    - right. lia. }
  destruct b.
  - destruct (Z.leb_spec skip_days (found_count + 1)) as [Henough|Hmore].
    + exists (Ret (Some next)), s1. split; [done|]. split; [done|]. split; [done|].
      split.
      * intros found Heq. assert (found = next) as -> by congruence.
        split; [done|]. split; [lia|]. split; [by apply Hyes | lia].
      * intros _ d Hv [Hafter Hbefore]. lia.
    + destruct (IH next (found_count + 1) s1 Hvnext) as (r & s' & -> & Hr & Hext & Hfound & _).
      exists r, s'. split; [done|]. split; [done|].
      split; [by eapply extends_trans|]. split.
      * intros found ->. destruct (Hfound found eq_refl) as (Hv & Hrange & Htrading & Hcount).
        split; [done|]. split; [lia|]. split; [done | lia].
      * intros Hskip. lia.
  - destruct (IH next found_count s1 Hvnext) as (r & s' & -> & Hr & Hext & Hfound & Hfirst).
    exists r, s'. split; [done|]. split; [done|].
    split; [by eapply extends_trans|]. split.
    + intros found ->. destruct (Hfound found eq_refl) as (Hv & Hrange & Htrading & Hcount).
      split; [done|]. split; [lia|]. split; [done | lia].
    + intros Hskip d Hv [Hafter Hbefore].
      destruct (Hsplit d Hv Hafter) as [-> | Hlater]; [by apply Hno|].
      destruct (Hfirst Hskip d Hv) as [Hout Hstatic].
      { split; [done|]. destruct r as [[found|]|e|]; lia. }
      split; [|done]. destruct Hext1 as [Hdays _]. set_solver.
Qed.

(** At the last day of the calendar the first step overflows. *)
Lemma next_trading_day_loop_overflow env (rounds : nat) (current_date : date)
    (found_count skip_days : Z) s :
  _MAXORDINAL <= toordinal current_date ->
  next_trading_day_loop env (S rounds) current_date found_count skip_days s
  = (Raise OverflowError, s).
Proof.
  intros Hmax. cbn [next_trading_day_loop]. unfold bind at 1, lift at 1.
  pose proof (date_add_spec current_date 1) as Hadd.
  destruct (date_add current_date 1) as [next|e|]; [|by destruct Hadd as [-> _]|done].
  destruct Hadd as [Hv Hord]. pose proof (toordinal_range next Hv). lia.
Qed.

(** X19.  [get_next_trading_day] never raises and never shrinks the caches.
    A date it returns lies one to thirty days after [from_date] and is a
    trading day by the in-memory set or by the static tier; since each day
    counts once at most, nothing is found when [skip_days] exceeds 30.  For
    [skip_days] up to 1 the date returned is the first such day: every day
    in between, or every day of the thirty when [None] is returned, is
    rejected by the static tier and was not in the in-memory set.  At the end
    of the calendar the step to the next day overflows and the answer is
    [None]. *)
Theorem get_next_trading_day_spec env (from_date : date) (skip_days : Z) s :
  valid_date from_date ->
  exists r s',
    get_next_trading_day env from_date skip_days s = (Ret r, s')
    /\ extends s s'
    /\ (forall found, r = Some found ->
          valid_date found
          /\ toordinal from_date < toordinal found <= toordinal from_date + 30
          /\ (found ∈ _trading_days_cache s' \/ fallback_verdict env found = true))
    /\ (30 < skip_days -> r = None)
    /\ (_MAXORDINAL <= toordinal from_date -> r = None /\ s' = s)
    /\ (skip_days <= 1 ->
        forall d, valid_date d ->
                  toordinal from_date < toordinal d
                  /\ match r with
                     | Some found => toordinal d < toordinal found
                     | None => toordinal d <= toordinal from_date + 30
                     end ->
                  (d ∉ _trading_days_cache s) /\ fallback_verdict env d = false).
Proof.
  intros Hvalid. unfold get_next_trading_day, try_except. cbv zeta.
  destruct (next_trading_day_loop_spec env 30 from_date 0 skip_days s Hvalid)
    as (r & s' & Hrun & Hr & Hext & Hfound & Hfirst).
  pose proof (next_trading_day_loop_overflow env 29 from_date 0 skip_days s) as Hend.
  rewrite Hrun.
  exists (match r with Ret found => found | _ => None end), s'.
  split; [by destruct r as [found|e|]|]. split; [done|].
  split.
  { intros found Hsome. destruct r as [[found'|]|e|]; try done.
    injection Hsome as ->. destruct (Hfound found eq_refl) as (Hv & Hrange & Htrading & _).
    split; [done|]. split; [lia | done]. }
  split.
  { intros Hskip. destruct r as [[found|]|e|]; try done.
    destruct (Hfound found eq_refl) as (_ & Hrange & _ & Hcount). lia. }
  split.
  { intros Hmax. rewrite (Hend Hmax) in Hrun. by injection Hrun as <- <-. }
  intros Hskip d Hv Hd. apply (Hfirst ltac:(lia) d Hv).
  destruct r as [[found|]|e|]; [done | | | done]; destruct Hd; split; lia.
Qed.

Lemma get_next_trading_day_spec_witness :
  valid_date (ymd 2024 1 5)
  /\ exists r s',
    get_next_trading_day offline_env (ymd 2024 1 5) 1 fresh_state = (Ret r, s')
    /\ extends fresh_state s'
    /\ (forall found, r = Some found ->
          valid_date found
          /\ toordinal (ymd 2024 1 5) < toordinal found <= toordinal (ymd 2024 1 5) + 30
          /\ (found ∈ _trading_days_cache s' \/ fallback_verdict offline_env found = true))
    /\ (30 < 1 -> r = None)
    /\ (_MAXORDINAL <= toordinal (ymd 2024 1 5) -> r = None /\ s' = fresh_state)
    /\ (1 <= 1 ->
        forall d, valid_date d ->
                  toordinal (ymd 2024 1 5) < toordinal d
                  /\ match r with
                     | Some found => toordinal d < toordinal found
                     | None => toordinal d <= toordinal (ymd 2024 1 5) + 30
                     end ->
                  (d ∉ _trading_days_cache fresh_state)
                  /\ fallback_verdict offline_env d = false).
Proof.
  assert (valid_date (ymd 2024 1 5)) as Hvalid.
  { unfold valid_date. vm_compute. intuition discriminate. }
  split; [exact Hvalid|].
  exact (get_next_trading_day_spec offline_env (ymd 2024 1 5) 1 fresh_state Hvalid).
Defined.

(** From Friday 2024-01-05 the next trading day is Monday 2024-01-08, and
    the fifth one Friday 2024-01-12; from the last day of the calendar there
    is none. *)
Example next_trading_days_offline :
  (get_next_trading_day offline_env (ymd 2024 1 5) 1 fresh_state).1
  = Ret (Some (ymd 2024 1 8))
  /\ (get_next_trading_day offline_env (ymd 2024 1 5) 5 fresh_state).1
     = Ret (Some (ymd 2024 1 12))
  /\ (get_next_trading_day offline_env (ymd 9999 12 31) 1 fresh_state).1 = Ret None.
Proof. repeat split; vm_compute; reflexivity. Qed.

(** The loop of [get_trading_days], from any date on. *)
Lemma trading_days_loop_spec env (fuel : nat) (current_date end_date : date)
    (trading_days : list date) s :
  valid_date current_date -> valid_date end_date ->
  Z.max 0 (toordinal end_date - toordinal current_date + 1) < Z.of_nat fuel ->
  exists r s',
    trading_days_loop env fuel current_date end_date trading_days s = (r, s')
    /\ extends s s'
    /\ (toordinal end_date = _MAXORDINAL -> r = Raise OverflowError)
    /\ (toordinal end_date < _MAXORDINAL ->
        exists found,
          r = Ret (trading_days ++ found)
          /\ (forall d, d ∈ found ->
                valid_date d
                /\ toordinal current_date <= toordinal d <= toordinal end_date
                /\ (d ∈ _trading_days_cache s' \/ fallback_verdict env d = true))
          /\ (forall d, valid_date d ->
                        toordinal current_date <= toordinal d <= toordinal end_date ->
                        d ∈ _trading_days_cache s \/ fallback_verdict env d = true ->
                        d ∈ found)
          /\ StronglySorted (fun d1 d2 => toordinal d1 < toordinal d2) found).
Proof.
  revert current_date trading_days s.
  induction fuel as [|fuel IH]; intros current_date trading_days s Hvc Hve Hfuel; [lia|].
  pose proof (toordinal_range current_date Hvc) as Hrc.
  pose proof (toordinal_range end_date Hve) as Hre.
  cbn [trading_days_loop].
  destruct (date_le current_date end_date) eqn:Hle.
  2:{ assert (toordinal end_date < toordinal current_date) as Hpast.
      { destruct (Z.le_gt_cases (toordinal current_date) (toordinal end_date)) as [Hin|?]; [|lia].
        apply (date_le_ordinal _ _ Hvc Hve) in Hin. congruence. }
      exists (Ret trading_days), s. split; [done|]. split; [apply extends_refl|].
      split; [lia|]. intros _. exists []. rewrite app_nil_r. split; [done|].
      split; [intros d Hin; by apply elem_of_nil in Hin|].
      split; [intros; lia | constructor]. }
  apply (date_le_ordinal _ _ Hvc Hve) in Hle.
  unfold bind at 1.
  destruct (is_trading_day_answer env current_date s) as (b & s1 & -> & Hext1 & Hyes & Hno).
  unfold bind at 1, lift at 1.
  pose proof (date_add_spec current_date 1) as Hadd.
  destruct (date_add current_date 1) as [next|e|]; [| |done].
  2:{ destruct Hadd as [-> Hover].
      exists (Raise OverflowError), s1. split; [done|]. split; [done|].
      split; [done|]. lia. }
  destruct Hadd as [Hvn Hnext].
  destruct (IH next (if b then trading_days ++ [current_date] else trading_days) s1 Hvn Hve)
    as (r & s' & -> & Hext & Hmax & Hfound); [lia|].
  exists r, s'. split; [done|]. split; [by eapply extends_trans|]. split; [done|].
  intros Hbelow. destruct (Hfound Hbelow) as (found & -> & Hsound & Hcomplete & Hsorted).
  exists ((if b then [current_date] else []) ++ found).
  split; [by destruct b; rewrite <- ?app_assoc|].
  split; [|split].
  - intros d Hin. apply elem_of_app in Hin as [Hin | Hin].
    + destruct b; [|by apply elem_of_nil in Hin].
      apply list_elem_of_singleton in Hin as ->. split; [done|]. split; [lia|].
      destruct (Hyes eq_refl) as [Hcached | Hstatic]; [left | by right].
      destruct Hext as [Hdays _]. set_solver.
    + destruct (Hsound d Hin) as (Hv & Hrange & Htrading). split; [done|]. split; [lia | done].
  - intros d Hv Hrange Htrading.
    destruct (decide (toordinal d = toordinal current_date)) as [Heq | Hne].
    + assert (d = current_date) as -> by by apply toordinal_inj.
      destruct b; [set_solver|]. destruct (Hno eq_refl) as [Hout Hstatic].
      destruct Htrading; [done | congruence].
    + apply elem_of_app. right. apply (Hcomplete d Hv); [lia|].
      destruct Htrading as [Hcached | Hstatic]; [left | by right].
      destruct Hext1 as [Hdays _]. set_solver.
  - destruct b; [|done]. cbn [app]. constructor; [done|].
    apply Forall_forall. intros d Hin. destruct (Hsound d Hin) as (_ & Hrange & _). lia.
Qed.

(** X20.  With fuel for every day of the range and one turn more,
    [get_trading_days] returns a list and never shrinks the caches.  For an
    [end_date] before the last day of the calendar the list is in ascending
    order without repetition, holds only days of the range that the
    in-memory set holds afterwards or the static tier accepts, and misses no
    day of the range that the set held before or the static tier accepts.
    When [end_date] is the last day of the calendar the step past it
    overflows and the list is empty, whatever the range holds. *)
Theorem get_trading_days_spec env (fuel : nat) (start_date end_date : date) s :
  valid_date start_date -> valid_date end_date ->
  Z.max 0 (toordinal end_date - toordinal start_date + 1) < Z.of_nat fuel ->
  exists found s',
    get_trading_days env fuel start_date end_date s = (Ret found, s')
    /\ extends s s'
    /\ (end_date = {| year := 9999; month := 12; day := 31 |} -> found = [])
    /\ (end_date <> {| year := 9999; month := 12; day := 31 |} ->
        (forall d, d ∈ found ->
           valid_date d
           /\ toordinal start_date <= toordinal d <= toordinal end_date
           /\ (d ∈ _trading_days_cache s' \/ fallback_verdict env d = true))
        /\ (forall d, valid_date d ->
                      toordinal start_date <= toordinal d <= toordinal end_date ->
                      d ∈ _trading_days_cache s \/ fallback_verdict env d = true ->
                      d ∈ found)
        /\ StronglySorted (fun d1 d2 => toordinal d1 < toordinal d2) found).
Proof.
  intros Hvs Hve Hfuel. unfold get_trading_days, try_except.
  destruct (trading_days_loop_spec env fuel start_date end_date [] s Hvs Hve Hfuel)
    as (r & s' & -> & Hext & Hmax & Hfound).
  pose proof (toordinal_range end_date Hve) as Hre.
  assert (valid_date {| year := 9999; month := 12; day := 31 |}) as Hvlast.
  { unfold valid_date. vm_compute. intuition discriminate. }
  destruct (decide (toordinal end_date = _MAXORDINAL)) as [Hlast | Hbefore].
  - rewrite (Hmax Hlast). exists [], s'. split; [done|]. split; [done|]. split; [done|].
    intros Hne. destruct Hne. by apply toordinal_inj.
  - destruct Hfound as (found & -> & Hsound & Hcomplete & Hsorted); [lia|].
    exists found, s'. split; [done|]. split; [done|]. split.
    + intros ->. done.
    + done.
Qed.

Lemma get_trading_days_spec_witness :
  valid_date (ymd 2024 1 5) /\ valid_date (ymd 2024 1 9)
  /\ Z.max 0 (toordinal (ymd 2024 1 9) - toordinal (ymd 2024 1 5) + 1) < Z.of_nat 10
  /\ exists found s',
    get_trading_days offline_env 10 (ymd 2024 1 5) (ymd 2024 1 9) fresh_state
    = (Ret found, s')
    /\ extends fresh_state s'
    /\ (ymd 2024 1 9 = {| year := 9999; month := 12; day := 31 |} -> found = [])
    /\ (ymd 2024 1 9 <> {| year := 9999; month := 12; day := 31 |} ->
        (forall d, d ∈ found ->
           valid_date d
           /\ toordinal (ymd 2024 1 5) <= toordinal d <= toordinal (ymd 2024 1 9)
           /\ (d ∈ _trading_days_cache s' \/ fallback_verdict offline_env d = true))
        /\ (forall d, valid_date d ->
                      toordinal (ymd 2024 1 5) <= toordinal d <= toordinal (ymd 2024 1 9) ->
                      d ∈ _trading_days_cache fresh_state
                      \/ fallback_verdict offline_env d = true ->
                      d ∈ found)
        /\ StronglySorted (fun d1 d2 => toordinal d1 < toordinal d2) found).
Proof.
  assert (valid_date (ymd 2024 1 5)) as Hstart.
  { unfold valid_date. vm_compute. intuition discriminate. }
  assert (valid_date (ymd 2024 1 9)) as Hend.
  { unfold valid_date. vm_compute. intuition discriminate. }
  assert (Z.max 0 (toordinal (ymd 2024 1 9) - toordinal (ymd 2024 1 5) + 1) < Z.of_nat 10)
    as Hfuel by (vm_compute; reflexivity).
  split; [exact Hstart|]. split; [exact Hend|]. split; [exact Hfuel|].
  exact (get_trading_days_spec offline_env 10 (ymd 2024 1 5) (ymd 2024 1 9) fresh_state
           Hstart Hend Hfuel).
Defined.

(** Friday 2024-01-05 to Tuesday 2024-01-09 offline: the weekend drops out.
    A range that ends with the calendar gives nothing. *)
Example trading_days_offline :
  (get_trading_days offline_env 10 (ymd 2024 1 5) (ymd 2024 1 9) fresh_state).1
  = Ret [ymd 2024 1 5; ymd 2024 1 8; ymd 2024 1 9]
  /\ (get_trading_days offline_env 10 (ymd 9999 12 27) (ymd 9999 12 31) fresh_state).1
     = Ret [].
Proof. repeat split; vm_compute; reflexivity. Qed.

End CalendarSearch.

(** ** The target rows of the day *)

Section TargetPosition.
Import Py Trader Runner Reference Scenario.

Lemma str_le_refl : Reflexive str_le.
Proof.
  intros a. unfold str_le, String.leb.
  assert (String.compare a a = Eq) as ->; [|done].
  induction a as [|c a IH]; [done|]. cbn [String.compare].
  unfold Ascii.compare. by rewrite N.compare_refl.
Qed.

Lemma str_le_total : Total str_le.
Proof. intros a b. apply String.leb_total. Qed.

Lemma str_compare_trans (a b c : string) :
  String.compare a b <> Gt -> String.compare b c <> Gt -> String.compare a c <> Gt.
Proof.
  revert b c. induction a as [|x a IH]; intros [|y b] [|z c]; cbn [String.compare]; try done.
  unfold Ascii.compare.
  destruct (N.compare_spec (Ascii.N_of_ascii x) (Ascii.N_of_ascii y)) as [Hxy|Hxy|Hxy];
    destruct (N.compare_spec (Ascii.N_of_ascii y) (Ascii.N_of_ascii z)) as [Hyz|Hyz|Hyz];
    destruct (N.compare_spec (Ascii.N_of_ascii x) (Ascii.N_of_ascii z)) as [Hxz|Hxz|Hxz];
    try done; try lia.
  apply IH.
Qed.

Lemma str_le_trans : Transitive str_le.
Proof.
  intros a b c. unfold str_le, String.leb. intros Hab Hbc.
  pose proof (str_compare_trans a b c) as Hac.
  destruct (String.compare a b), (String.compare b c), (String.compare a c);
    try done; exfalso; by apply Hac.
Qed.

(** The last item of a sorted list is its greatest. *)
Lemma last_of_sorted (l : list string) (x : string) :
  StronglySorted str_le l -> last l = Some x -> Forall (fun y => str_le y x) l.
Proof.
  induction 1 as [|y l Hsorted IH Hall]; intros Hlast; [done|].
  rewrite last_cons in Hlast. destruct (last l) as [z|] eqn:Hl.
  - injection Hlast as ->. constructor; [|by apply IH].
    rewrite Forall_forall in Hall. apply Hall. by apply last_Some_elem_of.
  - injection Hlast as ->. constructor; [apply str_le_refl|].
    destruct l as [|z l]; [done|]. rewrite last_cons in Hl. by destruct (last l).
Qed.

Lemma rows_of_nil (date : string) (df : list Row) :
  rows_of date df = [] <-> date ∉ row_date <$> df.
Proof.
  unfold rows_of. rewrite list_elem_of_fmap. split.
  - intros Hnil (row & -> & Hin).
    by apply (filter_nil_not_elem_of _ _ row Hnil).
  - intros Hout. destruct (filter _ df) as [|row rows] eqn:Hf; [done|].
    assert (row ∈ filter (fun row' => row_date row' = date) df) as Hrow
      by (rewrite Hf; by left).
    apply list_elem_of_filter in Hrow as [Hdate Hin]. destruct Hout. by exists row.
Qed.

Lemma available_dates_elem (date : string) (df : list Row) :
  date ∈ available_dates df <-> date ∈ row_date <$> df.
Proof.
  unfold available_dates. rewrite merge_sort_Permutation. apply elem_of_remove_dups.
Qed.

(** X21.  [get_target_position] never raises and makes no gateway call.  It
    returns the rows of today when there are any; otherwise the rows of the
    greatest date of the table in the order of strings, whether that date is
    before or after today.  The result is empty only for an empty table, so
    all rows of a result carry one date. *)
Theorem get_target_position_spec (today : string) (df : list Row) w :
  exists target w',
    get_target_position today df w = (Ret target, w')
    /\ trace w' = trace w /\ clock w' = clock w
    /\ (target = [] <-> df = [])
    /\ exists target_date,
        target = rows_of target_date df
        /\ (today ∈ row_date <$> df -> target_date = today)
        /\ (today ∉ row_date <$> df -> df <> [] ->
            target_date ∈ row_date <$> df
            /\ forall date, date ∈ row_date <$> df -> str_le date target_date).
Proof.
  unfold get_target_position. cbv zeta. rewrite bind_log.
  destruct (rows_of today df) as [|row rows] eqn:Htoday.
  - cbn [length Nat.eqb].
    destruct (available_dates df) as [|first others] eqn:Hdates.
    + cbn [length Nat.ltb Nat.leb]. rewrite bind_log. eexists [], _.
      split; [reflexivity|]. split; [done|]. split; [done|].
      assert (df = []) as ->.
      { destruct df as [|row df]; [done|].
        assert (row_date row ∈ available_dates (row :: df)) as Hin
          by (apply available_dates_elem; set_solver).
        rewrite Hdates in Hin. by apply elem_of_nil in Hin. }
      split; [done|]. exists today. split; [done|]. split; [done|]. done.
    + assert (exists latest, last (first :: others) = Some latest) as [latest Hlast].
      { destruct (last (first :: others)) as [latest|] eqn:Hl; [by eexists|].
        rewrite last_cons in Hl. by destruct (last others). }
      cbn [length Nat.ltb Nat.leb]. unfold bind at 1, lift at 1, last_item.
      rewrite Hlast. rewrite !bind_log. eexists _, _.
      split; [reflexivity|]. split; [done|]. split; [done|].
      assert (latest ∈ row_date <$> df) as Hlatest.
      { apply available_dates_elem. rewrite Hdates. by apply last_Some_elem_of. }
      split.
      { split; [|by intros ->].
        intros Hnil. apply rows_of_nil in Hnil. done. }
      exists latest. split; [done|]. split.
      { intros Hin. by apply rows_of_nil in Htoday. }
      intros _ _. split; [done|]. intros date Hdate.
      apply available_dates_elem in Hdate.
      assert (Forall (fun y => str_le y latest) (available_dates df)) as Hall.
      { apply last_of_sorted; [|by rewrite Hdates].
        unfold available_dates.
        apply (@StronglySorted_merge_sort _ str_le _ str_le_trans str_le_total). }
      rewrite Forall_forall in Hall. by apply Hall.
  - cbn [length Nat.eqb]. rewrite bind_log. eexists _, _.
    split; [reflexivity|]. split; [done|]. split; [done|].
    assert (today ∈ row_date <$> df) as Hin.
    { destruct (decide (today ∈ row_date <$> df)) as [?|Hout]; [done|].
      apply rows_of_nil in Hout. congruence. }
    split.
    { split; [done|]. intros ->. by apply elem_of_nil in Hin. }
    exists today. split; [done|]. split; [done|]. done.
Qed.

End TargetPosition.

(** ** Waiting for the open *)

Section WaitUntilOpen.
Import Py Trader Runner Reference Scenario.

(** While the clock stays within the day, the target time stays. *)
Lemma same_day (now later : Z) :
  now - now mod 86400 <= later < now - now mod 86400 + 86400 ->
  later - later mod 86400 = now - now mod 86400.
Proof. intros. Z.div_mod_to_equations. lia. Qed.

(** The loop, from any turn on: it sleeps half a minute at a time while
    more than a minute is left, and then the rest in one piece. *)
Lemma wait_until_open_loop (fuel : nat) (target_hour target_minute : Z) w :
  0 <= target_hour <= 23 -> 0 <= target_minute <= 59 ->
  (0 < fuel)%nat ->
  clock w - clock w mod 86400 + target_hour * 3600 + target_minute * 60 - clock w
  <= 30 * Z.of_nat fuel + 30 ->
  let target_time :=
    clock w - clock w mod 86400 + target_hour * 3600 + target_minute * 60 in
  exists w',
    _wait_until_open fuel target_hour target_minute w = (Ret tt, w')
    /\ logs w' = logs w
    /\ clock w' = Z.max (clock w) target_time
    /\ (target_time <= clock w -> trace w' = trace w)
    /\ (clock w < target_time ->
        exists (halves : nat) (rest : Z),
          trace w' = trace w ++ replicate halves (EvSleep 30) ++ [EvSleep rest]
          /\ 0 < rest <= 60
          /\ 30 * Z.of_nat halves + rest = target_time - clock w).
Proof.
  intros Hh Hm. revert w.
  induction fuel as [|fuel IH]; intros w Hpos Hfuel target_time; [lia|].
  cbn [_wait_until_open]. unfold bind at 1, time_time at 1.
  unfold bind at 1, lift at 1, replace_time.
  destruct (Z.leb_spec 0 target_hour); [|lia].
  destruct (Z.leb_spec target_hour 23); [|lia].
  destruct (Z.leb_spec 0 target_minute); [|lia].
  destruct (Z.leb_spec target_minute 59); [|lia].
  cbn [andb]. fold target_time.
  destruct (Z.leb_spec target_time (clock w)) as [Hpast|Hbefore].
  { exists w. split; [done|]. split; [done|]. split; [lia|]. split; [done|]. lia. }
  destruct (Z.ltb_spec 60 (target_time - clock w)) as [Hfar|Hnear].
  - unfold bind at 1, time_sleep. cbn [Z.ltb Z.compare].
    set (w1 := {| clock := clock w + 30; trace := trace w ++ [EvSleep 30]; logs := logs w |}).
    assert (clock w1 - clock w1 mod 86400 = clock w - clock w mod 86400) as Hday.
    { apply same_day. subst w1 target_time. cbn [clock].
      pose proof (Z.mod_pos_bound (clock w) 86400). lia. }
    destruct (IH w1) as (w' & Hrun & Hlogs & Hclock & _ & Htrace).
    { destruct fuel; [|lia]. subst target_time. cbn in Hfuel. lia. }
    { rewrite Hday. subst w1. cbn [clock]. subst target_time. lia. }
    rewrite Hday in Hclock, Htrace. fold target_time in Hclock, Htrace.
    exists w'. split; [exact Hrun|]. split; [done|].
    split; [subst w1; cbn [clock] in *; lia|]. split; [lia|].
    intros _. destruct Htrace as (halves & rest & Ht & Hrest & Hsum).
    { subst w1. cbn [clock]. lia. }
    exists (S halves), rest. split.
    { rewrite Ht. subst w1. cbn [trace replicate]. by rewrite <- app_assoc. }
    split; [done|]. subst w1. cbn [clock] in Hsum. lia.
  - destruct (Z.ltb_spec 0 (target_time - clock w)) as [_|]; [|lia].
    unfold time_sleep. destruct (Z.ltb_spec (target_time - clock w) 0); [lia|].
    eexists. split; [reflexivity|]. cbn [logs clock trace].
    split; [done|]. split; [lia|]. split; [lia|].
    intros _. exists 0%nat, (target_time - clock w). cbn [replicate app].
    split; [done|]. lia.
Qed.

(** X22.  [_wait_until_open] with its defaults, given fuel for every half
    minute on the way: started at or after 09:30 of the day it returns at
    once, without a sleep, and does not wait for the next day; started
    before, it sleeps in pieces of 30 seconds while more than a minute is
    left and then for the 1 to 60 seconds that remain, and returns at 09:30
    sharp. *)
Theorem wait_until_open_spec (fuel : nat) w :
  (0 < fuel)%nat ->
  opening (clock w) - clock w <= 30 * Z.of_nat fuel + 30 ->
  exists w',
    _wait_until_open fuel 9 30 w = (Ret tt, w')
    /\ clock w' = Z.max (clock w) (opening (clock w))
    /\ (opening (clock w) <= clock w -> w' = w)
    /\ (clock w < opening (clock w) ->
        exists (halves : nat) (rest : Z),
          trace w' = trace w ++ replicate halves (EvSleep 30) ++ [EvSleep rest]
          /\ 0 < rest <= 60
          /\ 30 * Z.of_nat halves + rest = opening (clock w) - clock w).
Proof.
  unfold opening. intros Hpos Hfuel.
  destruct (wait_until_open_loop fuel 9 30 w) as (w' & Hrun & Hlogs & Hclock & Hpast & Hbefore);
    [lia | lia | done | lia |].
  exists w'. split; [done|]. split; [lia|]. split.
  - intros Hlate. destruct w as [c t l], w' as [c' t' l']. cbn [clock trace logs] in *.
    f_equal; [lia | apply Hpast; lia | done].
  - intros Hearly. destruct Hbefore as (halves & rest & Ht & Hrest & Hsum); [lia|].
    exists halves, rest. split; [done|]. split; [done | lia].
Qed.

Lemma wait_until_open_spec_witness :
  (0 < 12)%nat
  /\ opening (clock nine_twenty_five) - clock nine_twenty_five <= 30 * Z.of_nat 12 + 30
  /\ exists w',
    _wait_until_open 12 9 30 nine_twenty_five = (Ret tt, w')
    /\ clock w' = Z.max (clock nine_twenty_five) (opening (clock nine_twenty_five))
    /\ (opening (clock nine_twenty_five) <= clock nine_twenty_five -> w' = nine_twenty_five)
    /\ (clock nine_twenty_five < opening (clock nine_twenty_five) ->
        exists (halves : nat) (rest : Z),
          trace w' = trace nine_twenty_five ++ replicate halves (EvSleep 30) ++ [EvSleep rest]
          /\ 0 < rest <= 60
          /\ 30 * Z.of_nat halves + rest
             = opening (clock nine_twenty_five) - clock nine_twenty_five).
Proof.
  assert (0 < 12)%nat as Hpos by lia.
  assert (opening (clock nine_twenty_five) - clock nine_twenty_five <= 30 * Z.of_nat 12 + 30)
    as Hfuel by (vm_compute; discriminate).
  split; [exact Hpos|]. split; [exact Hfuel|].
  exact (wait_until_open_spec 12 nine_twenty_five Hpos Hfuel).
Defined.

(** Started at 09:25:00 the wait sleeps eight times 30 seconds and then a
    full minute. *)
Example five_minutes_early :
  (_wait_until_open 12 9 30 nine_twenty_five).2
  = {| clock := 34200;
       trace := replicate 8 (EvSleep 30) ++ [EvSleep 60];
       logs := [] |}.
Proof. vm_compute. reflexivity. Qed.

End WaitUntilOpen.

(** ** A run of the scheduler *)

Section ExecuteTrading.
Import Py Trader Calendar StatusManager StatusStore Runner Reference Scenario.

(** *** Quiet code *)

Lemma quiet_ret {A} (a : A) : quiet (ret a).
Proof. by intros w r w' [= <- <-]. Qed.

Lemma quiet_raise {A} (e : exn) : quiet (raise e : M World A).
Proof. by intros w r w' [= <- <-]. Qed.

Lemma quiet_lift {A} (o : outcome A) : quiet (lift o).
Proof. by intros w r w' [= <- <-]. Qed.

Lemma quiet_log (l : LogLevel) : quiet (log l).
Proof. by intros w r w' [= <- <-]. Qed.

Lemma quiet_bind {A B} (m : M World A) (k : A -> M World B) :
  quiet m -> (forall a, quiet (k a)) -> quiet (bind m k).
Proof.
  intros Hm Hk w r w' Hrun.
  apply bind_inv in Hrun as [(a & w1 & Hm1 & Hk1) | [(e & Hm1 & ->) | (Hm1 & ->)]].
  - destruct (Hm _ _ _ Hm1) as [Ht1 Hc1]. destruct (Hk a _ _ _ Hk1) as [Ht2 Hc2].
    split; congruence.
  - by apply (Hm _ _ _ Hm1).
  - by apply (Hm _ _ _ Hm1).
Qed.

Lemma quiet_get_target_position (today : string) (df : list Row) :
  quiet (get_target_position today df).
Proof.
  unfold get_target_position. cbv zeta.
  apply quiet_bind; [apply quiet_log | intros _].
  destruct (_ =? _)%nat.
  - destruct (_ <? _)%nat.
    + apply quiet_bind; [apply quiet_lift | intros target_date].
      apply quiet_bind; [apply quiet_log | intros _].
      apply quiet_bind; [apply quiet_log | intros _]. apply quiet_ret.
    + apply quiet_bind; [apply quiet_log | intros _]. apply quiet_ret.
  - apply quiet_bind; [apply quiet_log | intros _]. apply quiet_ret.
Qed.

Lemma quiet_fold_each {A B} (xs : list A) (acc : B) (body : B -> A -> M World B) :
  (forall acc' x, quiet (body acc' x)) -> quiet (fold_each xs acc body).
Proof.
  intros Hbody. revert acc. induction xs as [|x xs IH]; intros acc; cbn [fold_each].
  - apply quiet_ret.
  - apply quiet_bind; [apply Hbody | intros acc'; apply IH].
Qed.

Lemma comes_back_get_target_position (today : string) (df : list Row) :
  comes_back (get_target_position today df).
Proof.
  unfold get_target_position. cbv zeta.
  apply comes_back_bind; [apply comes_back_log | intros _].
  destruct (_ =? _)%nat.
  - destruct (_ <? _)%nat.
    + apply comes_back_bind.
      { apply comes_back_lift. unfold last_item. by destruct (last _). }
      intros target_date.
      apply comes_back_bind; [apply comes_back_log | intros _].
      apply comes_back_bind; [apply comes_back_log | intros _]. apply comes_back_ret.
    + apply comes_back_bind; [apply comes_back_log | intros _]. apply comes_back_ret.
  - apply comes_back_bind; [apply comes_back_log | intros _]. apply comes_back_ret.
Qed.

(** *** The session calls *)

Lemma session_time_app (br : Broker) (history made more : list Event) :
  session_time br history (made ++ more)
  = session_time br history made + session_time br (history ++ made) more.
Proof.
  revert history. induction made as [|e made IH]; intros history.
  - cbn. by rewrite app_nil_r.
  - cbn [app session_time]. rewrite IH, <- app_assoc. cbn [app]. lia.
Qed.

Lemma session_time_nonneg (br : Broker) (history made : list Event) :
  0 <= session_time br history made.
Proof.
  revert history. induction made as [|e made IH]; intros history; cbn [session_time].
  - lia.
  - specialize (IH (history ++ [e])). lia.
Qed.

Lemma makes_quiet {A} (br : Broker) (m : M World A) : quiet m -> makes br [] m.
Proof.
  intros Hm w r w' Hrun. destruct (Hm _ _ _ Hrun) as [Ht Hc].
  exists []. rewrite app_nil_r. cbn. split; [done|]. split; [done|]. split; [lia|]. done.
Qed.

Lemma makes_bind {A B} (br : Broker) (calls1 calls2 : list Event)
    (m : M World A) (k : A -> M World B) :
  makes br calls1 m -> (forall a, makes br calls2 (k a)) ->
  makes br (calls1 ++ calls2) (bind m k).
Proof.
  intros Hm Hk w r w' Hrun.
  apply bind_inv in Hrun as [(a & w1 & Hm1 & Hk1) | [(e & Hm1 & ->) | (Hm1 & ->)]].
  - destruct (Hm _ _ _ Hm1) as (made1 & Ht1 & _ & Hc1 & Hall1).
    rewrite (Hall1 a eq_refl) in Ht1, Hc1.
    destruct (Hk a _ _ _ Hk1) as (made2 & Ht2 & Hp2 & Hc2 & Hall2).
    exists (calls1 ++ made2). split; [by rewrite Ht2, Ht1, <- app_assoc|].
    split; [by apply prefix_app|]. split.
    { rewrite session_time_app, Hc2, Hc1, Ht1. lia. }
    intros b Hb. by rewrite (Hall2 b Hb).
  - destruct (Hm _ _ _ Hm1) as (made1 & Ht1 & Hp1 & Hc1 & _).
    exists made1. split; [done|]. split; [by apply prefix_app_r|]. done.
  - destruct (Hm _ _ _ Hm1) as (made1 & Ht1 & Hp1 & Hc1 & _).
    exists made1. split; [done|]. split; [by apply prefix_app_r|]. done.
Qed.

Lemma makes_quiet_bind {A B} (br : Broker) (calls : list Event)
    (m : M World A) (k : A -> M World B) :
  quiet m -> (forall a, makes br calls (k a)) -> makes br calls (bind m k).
Proof. intros Hm Hk. apply (makes_bind br [] calls); [by apply makes_quiet | done]. Qed.

Lemma makes_bind_quiet {A B} (br : Broker) (calls : list Event)
    (m : M World A) (k : A -> M World B) :
  makes br calls m -> (forall a, quiet (k a)) -> makes br calls (bind m k).
Proof.
  intros Hm Hk. rewrite <- (app_nil_r calls).
  apply makes_bind; [done|]. intros a. by apply makes_quiet.
Qed.

Lemma makes_session_call {A} (br : Broker) (ev : Event)
    (answer : list Event -> outcome A) :
  makes br [ev] (session_call br ev answer).
Proof.
  intros w r w' [= <- <-]. exists [ev]. cbn. split; [done|]. split; [done|].
  split; [lia|]. done.
Qed.

Lemma makes_connect (br : Broker) : makes br [EvStart; EvConnect] (connect br).
Proof.
  unfold connect.
  apply makes_quiet_bind; [apply quiet_log | intros _].
  apply (makes_bind br [EvStart] [EvConnect]); [apply makes_session_call | intros _].
  apply makes_bind_quiet; [apply makes_session_call | intros connect_result].
  destruct (connect_result =? 0);
    (apply quiet_bind; [apply quiet_log | intros _]; apply quiet_ret).
Qed.

Lemma makes_get_account_info (br : Broker) :
  makes br [EvQueryAsset] (get_account_info br).
Proof.
  unfold get_account_info.
  apply makes_bind_quiet; [apply makes_session_call | intros res].
  apply quiet_bind.
  { destruct res; [apply quiet_ret | apply quiet_raise]. }
  intros asset. apply quiet_bind; [apply quiet_log | intros _]. apply quiet_ret.
Qed.

Lemma makes_get_current_position (br : Broker) :
  makes br [EvQueryPositions] (get_current_position br).
Proof.
  unfold get_current_position.
  apply makes_bind_quiet; [apply makes_session_call | intros res].
  apply quiet_bind.
  { destruct res; [apply quiet_ret | apply quiet_raise]. }
  intros positions. apply quiet_bind.
  { apply quiet_fold_each. intros acc pos. destruct (pos_volume pos <=? 0).
    - apply quiet_bind; [apply quiet_log | intros _]. apply quiet_ret.
    - apply quiet_ret. }
  intros built. apply quiet_bind.
  { destruct (0 <? built.2); [apply quiet_log | apply quiet_ret]. }
  intros _. apply quiet_bind; [apply quiet_log | intros _]. apply quiet_ret.
Qed.

Lemma comes_back_session_call {A} (br : Broker) (ev : Event)
    (answer : list Event -> outcome A) :
  (forall history, answer history <> Diverge) -> comes_back (session_call br ev answer).
Proof. intros Hanswer w. apply Hanswer. Qed.

Lemma comes_back_connect (br : Broker) : answering br -> comes_back (connect br).
Proof.
  intros Hbr. unfold connect.
  apply comes_back_bind; [apply comes_back_log | intros _].
  apply comes_back_bind; [apply comes_back_session_call; intros h; apply Hbr | intros _].
  apply comes_back_bind; [apply comes_back_session_call; intros h; apply Hbr|].
  intros connect_result.
  destruct (connect_result =? 0);
    (apply comes_back_bind; [apply comes_back_log | intros _]; apply comes_back_ret).
Qed.

Lemma comes_back_get_account_info (br : Broker) :
  answering br -> comes_back (get_account_info br).
Proof.
  intros Hbr. unfold get_account_info.
  apply comes_back_bind; [apply comes_back_session_call; intros h; apply Hbr | intros res].
  apply comes_back_bind.
  { destruct res; [apply comes_back_ret | apply comes_back_raise]. }
  intros asset. apply comes_back_bind; [apply comes_back_log | intros _].
  apply comes_back_ret.
Qed.

Lemma comes_back_get_current_position (br : Broker) :
  answering br -> comes_back (get_current_position br).
Proof.
  intros Hbr. unfold get_current_position.
  apply comes_back_bind; [apply comes_back_session_call; intros h; apply Hbr | intros res].
  apply comes_back_bind.
  { destruct res; [apply comes_back_ret | apply comes_back_raise]. }
  intros positions. apply comes_back_bind.
  { apply comes_back_fold_each. intros acc pos. destruct (pos_volume pos <=? 0).
    - apply comes_back_bind; [apply comes_back_log | intros _]. apply comes_back_ret.
    - apply comes_back_ret. }
  intros built. apply comes_back_bind.
  { destruct (0 <? built.2); [apply comes_back_log | apply comes_back_ret]. }
  intros _. apply comes_back_bind; [apply comes_back_log | intros _].
  apply comes_back_ret.
Qed.

(** *** The stages *)

Lemma slept_app (l1 l2 : list Event) : slept (l1 ++ l2) = slept l1 + slept l2.
Proof.
  induction l1 as [|e l1 IH]; [done|]. cbn [app slept foldr] in *.
  fold (slept (l1 ++ l2)). fold (slept l1). destruct e; lia.
Qed.

(** The wait, whatever its fuel: it only sleeps, never raises, and when it
    returns it is 09:30 or later. *)
Lemma wait_until_open_sleeps (fuel : nat) w r w' :
  _wait_until_open fuel 9 30 w = (r, w') ->
  exists sleeps,
    trace w' = trace w ++ sleeps
    /\ Forall (fun e => is_sleep e = true) sleeps
    /\ clock w' = clock w + slept sleeps
    /\ (forall e, r <> Raise e)
    /\ (r = Ret tt -> clock w' = Z.max (clock w) (opening (clock w))).
Proof.
  revert w. induction fuel as [|fuel IH]; intros w Hrun.
  { injection Hrun as <- <-. exists []. rewrite app_nil_r. cbn.
    split; [done|]. split; [done|]. split; [lia|]. done. }
  revert Hrun. cbn [_wait_until_open]. unfold bind at 1, time_time at 1.
  unfold bind at 1, lift at 1, replace_time.
  change ((0 <=? 9) && (9 <=? 23) && (0 <=? 30) && (30 <=? 59)) with true. cbv iota.
  replace (clock w - clock w mod 86400 + 9 * 3600 + 30 * 60) with (opening (clock w))
    by (unfold opening; lia).
  destruct (Z.leb_spec (opening (clock w)) (clock w)) as [Hpast|Hbefore].
  { unfold ret. intros [= <- <-]. exists []. rewrite app_nil_r. cbn.
    split; [done|]. split; [done|]. split; [lia|]. split; [done|]. lia. }
  destruct (Z.ltb_spec 60 (opening (clock w) - clock w)) as [Hfar|Hnear].
  - unfold bind at 1, time_sleep. change (30 <? 0) with false. cbv iota.
    set (w1 := {| clock := clock w + 30; trace := trace w ++ [EvSleep 30]; logs := logs w |}).
    intros Hrun.
    assert (opening (clock w1) = opening (clock w)) as Hday.
    { unfold opening. f_equal. apply same_day. subst w1. cbn [clock]. unfold opening in *.
      pose proof (Z.mod_pos_bound (clock w) 86400). lia. }
    destruct (IH w1 Hrun) as (sleeps & Ht & Hs & Hc & Hr & Hopen).
    exists (EvSleep 30 :: sleeps). subst w1. cbn [clock trace] in *.
    split; [by rewrite Ht, <- app_assoc|]. split; [by constructor|].
    split; [cbn [slept foldr]; fold (slept sleeps); lia|]. split; [done|].
    intros Hret. rewrite (Hopen Hret), Hday. lia.
  - destruct (Z.ltb_spec 0 (opening (clock w) - clock w)) as [_|]; [|lia].
    unfold time_sleep.
    destruct (Z.ltb_spec (opening (clock w) - clock w) 0); [lia|].
    intros [= <- <-]. exists [EvSleep (opening (clock w) - clock w)].
    cbn [clock trace slept foldr].
    split; [done|]. split; [by repeat constructor|]. split; [lia|]. split; [done|]. lia.
Qed.

(** The preparation makes the four session calls, in their order, and
    nothing else; the wait after it only sleeps. *)
Lemma prepare_run (ses : Session) (wait_fuel : nat) w r w' :
  prepare ses wait_fuel w = (r, w') ->
  exists session sleeps,
    trace w' = trace w ++ session ++ sleeps
    /\ session `prefix_of` session_calls
    /\ Forall (fun e => is_sleep e = true) sleeps
    /\ clock w' = clock w + session_time (xt_trader ses) (trace w) session + slept sleeps
    /\ (sleeps <> [] -> session = session_calls)
    /\ (forall prepared, r = Ret prepared ->
          session = session_calls
          /\ clock w'
             = Z.max (clock w + session_time (xt_trader ses) (trace w) session)
                     (opening (clock w + session_time (xt_trader ses) (trace w) session)))
    /\ (responsive ses -> (1140 <= wait_fuel)%nat -> r <> Diverge).
Proof.
  unfold prepare. intros Hrun.
  pose (before :=
    (df <- lift (load_latest_position ses) ;;
     df <- match df with
           | None => raise ValueError
           | Some df => if (length df =? 0)%nat then raise ValueError else ret df
           end ;;
     target_df <- get_target_position (today ses) df ;;
     (if (length target_df =? 0)%nat then raise ValueError else ret tt) ;;
     connected <- connect (xt_trader ses) ;;
     (if negb connected then raise RuntimeError else ret tt) ;;
     account_info <- get_account_info (xt_trader ses) ;;
     current_position <- get_current_position (xt_trader ses) ;;
     ret (target_df, account_info, current_position))%py).
  assert (makes (xt_trader ses) session_calls before) as Hmakes.
  { unfold before.
    apply makes_quiet_bind; [apply quiet_lift | intros df].
    apply makes_quiet_bind.
    { destruct df as [df|]; [|apply quiet_raise].
      destruct (_ =? _)%nat; [apply quiet_raise | apply quiet_ret]. }
    intros df'. apply makes_quiet_bind; [apply quiet_get_target_position | intros target_df].
    apply makes_quiet_bind.
    { destruct (_ =? _)%nat; [apply quiet_raise | apply quiet_ret]. }
    intros _.
    apply (makes_bind _ [EvStart; EvConnect] [EvQueryAsset; EvQueryPositions]);
      [apply makes_connect | intros connected].
    apply makes_quiet_bind.
    { destruct (negb connected); [apply quiet_raise | apply quiet_ret]. }
    intros _.
    apply (makes_bind _ [EvQueryAsset] [EvQueryPositions]);
      [apply makes_get_account_info | intros account_info].
    apply makes_bind_quiet; [apply makes_get_current_position | intros current_position].
    apply quiet_ret. }
  assert (responsive ses -> comes_back before) as Hback.
  { intros (Hload & Hbr). unfold before.
    apply comes_back_bind; [by apply comes_back_lift | intros df].
    apply comes_back_bind.
    { destruct df as [df|]; [|apply comes_back_raise].
      destruct (_ =? _)%nat; [apply comes_back_raise | apply comes_back_ret]. }
    intros df'. apply comes_back_bind.
    { apply comes_back_get_target_position. }
    intros target_df. apply comes_back_bind.
    { destruct (_ =? _)%nat; [apply comes_back_raise | apply comes_back_ret]. }
    intros _. apply comes_back_bind; [by apply comes_back_connect | intros connected].
    apply comes_back_bind.
    { destruct (negb connected); [apply comes_back_raise | apply comes_back_ret]. }
    intros _. apply comes_back_bind; [by apply comes_back_get_account_info|].
    intros account_info.
    apply comes_back_bind; [by apply comes_back_get_current_position|].
    intros current_position. apply comes_back_ret. }
  assert (prepare ses wait_fuel w
          = (prepared <- before ;; _wait_until_open wait_fuel 9 30 ;; ret prepared)%py w)
    as Hsplit.
  { unfold prepare, before, bind.
    destruct (load_latest_position ses) as [[df|]|e|]; cbn [lift raise ret]; try done.
    destruct (length df =? 0)%nat; [done|]. cbn [ret].
    destruct (get_target_position (today ses) df w) as [[target_df|e|] w1]; try done.
    destruct (length target_df =? 0)%nat; [done|]. cbn [ret].
    destruct (connect (xt_trader ses) w1) as [[connected|e|] w2]; try done.
    destruct (negb connected); [done|]. cbn [ret].
    destruct (get_account_info (xt_trader ses) w2) as [[account_info|e|] w3]; try done.
    by destruct (get_current_position (xt_trader ses) w3) as [[current_position|e|] w4]. }
  unfold prepare in Hsplit. rewrite Hsplit in Hrun. clear Hsplit.
  apply bind_inv in Hrun as [(prepared & w1 & Hb & Hrun) | [(e & Hb & ->) | (Hb & ->)]];
    destruct (Hmakes _ _ _ Hb) as (session & Ht1 & Hp1 & Hc1 & Hall).
  - rewrite (Hall prepared eq_refl) in Ht1, Hc1. clear Hall Hp1 session.
    apply bind_inv in Hrun as [([] & w2 & Hwait & Hrun) | [(e & Hwait & ->) | (Hwait & ->)]].
    + injection Hrun as <- <-.
      destruct (wait_until_open_sleeps _ _ _ _ Hwait) as (sleeps & Ht & Hs & Hc & _ & Hopen).
      exists session_calls, sleeps. rewrite Ht, Hc, Ht1, Hc1, <- app_assoc.
      split; [done|]. split; [done|]. split; [done|]. split; [done|]. split; [done|].
      split; [|done].
      intros _ _. split; [done|]. rewrite <- Hc1, <- Hc. by apply Hopen.
    + destruct (wait_until_open_sleeps _ _ _ _ Hwait) as (sleeps & Ht & Hs & Hc & Hr & _).
      by destruct (Hr e).
    + destruct (wait_until_open_sleeps _ _ _ _ Hwait) as (sleeps & Ht & Hs & Hc & _ & _).
      exists session_calls, sleeps. rewrite Ht, Hc, Ht1, Hc1, <- app_assoc.
      split; [done|]. split; [done|]. split; [done|]. split; [done|]. split; [done|].
      split; [done|].
      intros _ Hfuel _.
      destruct (wait_until_open_loop wait_fuel 9 30 w1) as (w2 & Hret & _);
        [lia | lia | lia | |congruence].
      pose proof (Z.mod_pos_bound (clock w1) 86400). lia.
  - exists session, []. rewrite app_nil_r. cbn.
    split; [done|]. split; [done|]. split; [done|]. split; [lia|]. done.
  - exists session, []. rewrite app_nil_r. cbn.
    split; [done|]. split; [done|]. split; [done|]. split; [lia|]. split; [done|].
    split; [done|].
    intros Hresp _ _. specialize (Hback Hresp w). by rewrite Hb in Hback.
Qed.

(** What [execute_rebalance] adds to the calls holds no session call. *)
Lemma phase_market gw (fuel : nat) (side : Side) (orders : list (string * Z)) :
  emits (fun e => is_session e = false) (phase gw fuel side orders).
Proof.
  intros w r w' Hrun.
  destruct (phase_shape _ _ _ _ _ _ _ Hrun) as (placed & waited & Ht & HP & HQ & _).
  eexists. split; [exact Ht|]. constructor; [done|]. apply Forall_app. split.
  - eapply Forall_impl; [exact HP|]. intros e He. by destruct e, side.
  - eapply Forall_impl; [exact HQ|]. intros e He. by destruct e.
Qed.

Lemma rebalance_market gw (fuel : nat) tv cp :
  emits (fun e => is_session e = false) (execute_rebalance gw fuel tv cp).
Proof.
  unfold execute_rebalance.
  do 3 (apply emits_bind; [apply emits_log | intros _]).
  apply emits_bind; [apply emits_iter; intros; apply emits_log | intros _].
  apply emits_bind; [apply emits_iter; intros; apply emits_log | intros _].
  apply emits_bind.
  { destruct (sell_list tv cp); [apply emits_ret | apply phase_market]. }
  intros [sold|]; [apply emits_ret|].
  apply emits_bind.
  { destruct (buy_list tv cp); [apply emits_ret | apply phase_market]. }
  intros [bought|]; [apply emits_ret|].
  do 3 (apply emits_bind; [apply emits_log | intros _]). apply emits_ret.
Qed.

Lemma on_world_inv {A} (m : M World A) sys r sys' :
  on_world m sys = (r, sys') ->
  exists w', m (world sys) = (r, w')
             /\ sys' = {| calendar := calendar sys; disk := disk sys; world := w' |}.
Proof.
  unfold on_world. destruct (m (world sys)) as [r0 w0]. intros [= <- <-]. by exists w0.
Qed.

(** The verdict is written and handed back. *)
Lemma verdict_run (success : bool) (message : string) sys :
  foreign (disk sys) = false ->
  (on_disk (mark_completed success message) ;; ret success)%py sys
  = (Ret success,
     {| calendar := calendar sys;
        disk := written (disk sys) (completed success message (recorded (disk sys)));
        world := world sys |}).
Proof. intros Hf. unfold bind, on_disk. by rewrite mark_completed_run, Hf. Qed.

(** Stage 3: the quote call comes first; a verdict that is handed back has
    been written to the status file with a message; the stage hangs only
    inside [execute_rebalance]. *)
Lemma trade_run gw (fuel : nat) (prepared : list Row * Asset * gmap string Position)
    sys r sys' :
  foreign (disk sys) = false ->
  trade gw fuel prepared sys = (r, sys') ->
  calendar sys' = calendar sys
  /\ (exists later,
        trace (world sys') = trace (world sys) ++ EvFullTick (weights prepared.1.1).*1 :: later
        /\ Forall (fun e => is_session e = false) later)
  /\ match r with
     | Ret success =>
         exists message,
           message <> ""
           /\ disk sys' = written (disk sys) (completed success message (recorded (disk sys)))
     | _ => disk sys' = disk sys
     end
  /\ (r = Diverge ->
      exists plan w1,
        calculate_target_volume gw (weights prepared.1.1) (total_asset prepared.1.2)
          (world sys) = (Ret plan, w1)
        /\ (execute_rebalance gw fuel plan prepared.2 w1).1 = Diverge).
Proof.
  intros Hf. unfold trade. cbv zeta. intros Hrun.
  apply bind_inv in Hrun as [(plan & sys1 & Hplan & Hrun) | [(e & Hplan & ->) | (Hplan & ->)]];
    apply on_world_inv in Hplan as (w1 & Hplan & ->);
    destruct (target_volume_run _ _ _ _ _ _ Hplan) as (Ht1 & _ & Hr1 & _).
  2:{ cbn [calendar disk world]. split; [done|]. split; [by exists []|]. done. }
  2:{ done. }
  case_bool_decide as Hempty.
  { rewrite verdict_run in Hrun by done. injection Hrun as <- <-. cbn [calendar disk world].
    split; [done|]. split; [by exists []|]. split.
    { eexists. split; [|reflexivity]. done. }
    done. }
  apply bind_inv in Hrun as [(success & sys2 & Hreb & Hrun) | [(e & Hreb & ->) | (Hreb & ->)]];
    apply on_world_inv in Hreb as (w2 & Hreb & ->);
    destruct (rebalance_market _ _ _ _ _ _ _ Hreb) as (new & Ht2 & Hnew);
    cbn [calendar disk world] in Ht2, Hreb.
  - destruct success; rewrite verdict_run in Hrun by done; injection Hrun as <- <-;
      cbn [calendar disk world].
    all: split; [done|]; split; [exists new; by rewrite Ht2, Ht1, <- app_assoc|].
    all: split; [eexists; (split; [|reflexivity]); done|].
    all: done.
  - cbn [calendar disk world]. split; [done|].
    split; [exists new; by rewrite Ht2, Ht1, <- app_assoc|]. done.
  - cbn [calendar disk world]. split; [done|].
    split; [exists new; by rewrite Ht2, Ht1, <- app_assoc|].
    split; [done|]. intros _. exists plan, w1. split; [done|]. by rewrite Hreb.
Qed.

Lemma trading_day_today_run env sys :
  exists (is_trading : bool) c',
    is_trading_day env (dt_date (datetime_now env)) (calendar sys) = (Ret is_trading, c')
    /\ is_trading_day_today env sys
       = (Ret is_trading, {| calendar := c'; disk := disk sys; world := world sys |}).
Proof.
  destruct (is_trading_day_extends env (dt_date (datetime_now env)) (calendar sys))
    as (b & c' & Hrun & _).
  exists b, c'. split; [done|].
  unfold is_trading_day_today, try_except, bind, on_calendar. by rewrite Hrun.
Qed.

(** The body of the [try]: preparation, wait and trade. *)
Lemma body_run gw ses (wait_fuel fuel : nat) sys r sys' :
  foreign (disk sys) = false ->
  (prepared <- on_world (prepare ses wait_fuel) ;; trade gw fuel prepared)%py sys
  = (r, sys') ->
  calendar sys' = calendar sys
  /\ match r with
     | Ret success =>
         exists message,
           message <> ""
           /\ disk sys' = written (disk sys) (completed success message (recorded (disk sys)))
     | _ => disk sys' = disk sys
     end
  /\ (exists session sleeps calls,
        trace (world sys') = trace (world sys) ++ session ++ sleeps ++ calls
        /\ session `prefix_of` session_calls
        /\ Forall (fun e => is_sleep e = true) sleeps
        /\ Forall (fun e => is_session e = false) calls
        /\ (sleeps ++ calls <> [] -> session = session_calls)
        /\ (calls <> [] ->
            clock (world sys) + session_time (xt_trader ses) (trace (world sys)) session
              + slept sleeps
            = Z.max (clock (world sys)
                     + session_time (xt_trader ses) (trace (world sys)) session)
                    (opening (clock (world sys)
                              + session_time (xt_trader ses) (trace (world sys)) session))
            /\ exists stock_list later, calls = EvFullTick stock_list :: later))
  /\ (responsive ses -> (1140 <= wait_fuel)%nat -> (150 <= fuel)%nat ->
      (forall tv cp,
          planned gw ses wait_fuel (world sys) = Some (tv, cp) ->
          forall item, item ∈ sell_list tv cp ++ buy_list tv cp ->
                       item.2 <= 100000 * Z.of_nat fuel) ->
      r <> Diverge).
Proof.
  intros Hf Hbody.
  apply bind_inv in Hbody
    as [(prepared & sys1 & Hprep & Htrade) | [(e & Hprep & ->) | (Hprep & ->)]];
    apply on_world_inv in Hprep as (w1 & Hprep & ->);
    destruct (prepare_run _ _ _ _ _ Hprep)
      as (session & sleeps & Ht & Hp & Hs & Hc & Hfull & Hopen & Hfuel).
  - apply trade_run in Htrade as (Hcal & (later & Hlater & Hmarket) & Hdisk & Hhang);
      [|exact Hf].
    cbn [calendar disk world] in Hcal, Hlater, Hdisk, Hhang.
    destruct (Hopen prepared eq_refl) as [-> Hready].
    split; [done|]. split; [done|]. split.
    { exists session_calls, sleeps, (EvFullTick (weights prepared.1.1).*1 :: later).
      split; [by rewrite Hlater, Ht, <- !app_assoc|]. split; [done|]. split; [done|].
      split; [by constructor|]. split; [done|].
      intros _. split; [|by eexists _, _]. by rewrite <- Hc. }
    intros _ _ Hfuel' Hvol Hr. destruct (Hhang Hr) as (plan & w2 & Hplan & Hdiv).
    assert (planned gw ses wait_fuel (world sys) = Some (plan, prepared.2)) as Hplanned.
    { unfold planned. by rewrite Hprep, Hplan. }
    pose proof (execute_rebalance_comes_back gw fuel plan prepared.2 Hfuel'
                  (Hvol _ _ Hplanned) w2) as Hback.
    done.
  - cbn [calendar disk world]. split; [done|]. split; [done|]. split; [|done].
    exists session, sleeps, []. rewrite !app_nil_r.
    split; [done|]. split; [done|]. split; [done|]. split; [done|]. split; [done|]. done.
  - cbn [calendar disk world]. split; [done|]. split; [done|]. split.
    { exists session, sleeps, []. rewrite !app_nil_r.
      split; [done|]. split; [done|]. split; [done|]. split; [done|]. split; [done|]. done. }
    intros Hresp Hwait _ _. by destruct (Hfuel Hresp Hwait).
Qed.

(** The [try] with its handler: what the body raises becomes a failed
    verdict with a message. *)
Lemma guarded_run gw ses (wait_fuel fuel : nat) sys r sys' :
  foreign (disk sys) = false ->
  try_except
    (prepared <- on_world (prepare ses wait_fuel) ;; trade gw fuel prepared)%py
    (fun e =>
       on_disk (mark_completed false ("执行调仓时发生错误: " +:+ str_of ses e)) ;;
       ret false)%py sys = (r, sys') ->
  exists r0 sys0,
    (prepared <- on_world (prepare ses wait_fuel) ;; trade gw fuel prepared)%py sys
    = (r0, sys0)
    /\ world sys' = world sys0
    /\ calendar sys' = calendar sys
    /\ (forall e, r <> Raise e)
    /\ (r = Diverge -> r0 = Diverge)
    /\ match r with
       | Ret success =>
           exists message,
             message <> ""
             /\ disk sys'
                = written (disk sys) (completed success message (recorded (disk sys)))
       | _ => disk sys' = disk sys
       end.
Proof.
  intros Hf. unfold try_except.
  destruct ((prepared <- on_world (prepare ses wait_fuel) ;; trade gw fuel prepared)%py sys)
    as [r0 sys0] eqn:Hbody.
  destruct (body_run _ _ _ _ _ _ _ Hf Hbody) as (Hcal & Hdisk & _ & _).
  intros Hrun. exists r0, sys0. split; [done|].
  destruct r0 as [success|e|].
  - injection Hrun as <- <-. done.
  - rewrite (verdict_run false _ sys0) in Hrun by (by rewrite Hdisk).
    injection Hrun as <- <-.
    cbn [calendar disk world]. split; [done|]. split; [done|]. split; [done|].
    split; [done|]. eexists. split; [|by rewrite Hdisk]. by destruct (str_of ses e).
  - injection Hrun as <- <-. done.
Qed.

(** *** The whole run *)


(** X24.  Before the open a run asks for no quote, places no order and
    makes no status query: the only broker calls before it are the session
    calls.  What [execute_trading] adds to the trace of broker calls and
    sleeps is: the session calls ([start], [connect], the asset query, the
    position query, in this order, or the first few of them when one fails),
    then a stretch of sleeps, then the calls of the market: quotes, orders,
    status queries and the sleeps between them.  Nothing follows a session
    that was cut short.  If there is any call of the market, the sleeps
    before it have brought the clock, read when the session calls were over,
    to 09:30 of that day, or the clock was already past it; and the first
    such call is the quote call for the plan.  (The request of the calendar
    to the exchange, the position file and the status file are not part of
    this trace.) *)
Theorem orders_wait_for_the_open env gw ses (wait_fuel fuel : nat) sys :
  exists session sleeps calls,
    trace (world (execute_trading env gw ses wait_fuel fuel sys).2)
    = trace (world sys) ++ session ++ sleeps ++ calls
    /\ session `prefix_of` session_calls
    /\ Forall (fun e => is_sleep e = true) sleeps
    /\ Forall (fun e => is_session e = false) calls
    /\ (sleeps ++ calls <> [] -> session = session_calls)
    /\ (calls <> [] ->
        clock (world sys) + session_time (xt_trader ses) (trace (world sys)) session
          + slept sleeps
        = Z.max (clock (world sys)
                 + session_time (xt_trader ses) (trace (world sys)) session)
                (opening (clock (world sys)
                          + session_time (xt_trader ses) (trace (world sys)) session))
        /\ exists stock_list later, calls = EvFullTick stock_list :: later).
Proof.
  assert (exists session sleeps calls : list Event,
             trace (world sys) = trace (world sys) ++ session ++ sleeps ++ calls
             /\ session `prefix_of` session_calls
             /\ Forall (fun e => is_sleep e = true) sleeps
             /\ Forall (fun e => is_session e = false) calls
             /\ (sleeps ++ calls <> [] -> session = session_calls)
             /\ (calls <> [] ->
                 clock (world sys)
                   + session_time (xt_trader ses) (trace (world sys)) session
                   + slept sleeps
                 = Z.max (clock (world sys)
                          + session_time (xt_trader ses) (trace (world sys)) session)
                         (opening (clock (world sys)
                                   + session_time (xt_trader ses) (trace (world sys))
                                       session))
                 /\ exists stock_list later, calls = EvFullTick stock_list :: later))
    as Hnothing.
  { exists [], [], []. cbn. rewrite app_nil_r.
    split; [done|]. split; [apply prefix_nil|]. done. }
  destruct (trading_day_today_run env sys) as (is_trading & c' & Hday & Htoday).
  unfold execute_trading. unfold bind at 1. rewrite Htoday.
  destruct is_trading; cbn [negb]; [|exact Hnothing].
  unfold bind at 1, on_disk at 1. rewrite mark_running_run. cbn [fst snd calendar disk world].
  destruct (foreign (disk sys)) eqn:Hf; cbn [fst snd]; [exact Hnothing|].
  match goal with
  | |- context [try_except ?body ?handler ?sys1] =>
      destruct (try_except body handler sys1) as [r sys'] eqn:Hrun
  end.
  apply guarded_run in Hrun as (r0 & sys0 & Hbody & Hworld & _);
    [|by apply written_not_foreign].
  apply body_run in Hbody as (_ & _ & Htrace & _); [|by apply written_not_foreign].
  cbn [calendar disk world snd] in *. rewrite Hworld. exact Htrace.
Qed.

(** A run on Monday 2024-01-15, started at 09:25:00 with the status file of
    a failed run: the session calls take four seconds, the plan of the day is
    bought at 09:30 and the status file ends as a success, its
    [error_message] replaced by the success message.  On the Saturday before,
    nothing happens. *)
Example monday_run :
  let run := execute_trading offline_env quoted_and_filled monday_session 12 150
               at_nine_twenty_five in
  run.1 = Ret true
  /\ clock (world run.2) = 34200
  /\ trace (world run.2)
     = session_calls
       ++ replicate 8 (EvSleep 30)
       ++ [EvSleep 56; EvFullTick ["A"; "B"]; EvFullTick ["A"; "B"];
           EvOrderStock "A" STOCK_BUY 300 10 "buy_stock";
           EvOrderStock "B" STOCK_BUY 300 10 "buy_stock";
           EvQueryOrders (Some [])]
  /\ recorded (disk run.2) !! "last_status" = Some (JString "success")
  /\ recorded (disk run.2) !! "error_message" = Some (JString "调仓执行成功")
  /\ recorded (disk run.2) !! "is_running" = Some (JBool false)
  /\ (execute_trading saturday_env quoted_and_filled monday_session 12 150
        at_nine_twenty_five).1 = Ret true
  /\ disk (execute_trading saturday_env quoted_and_filled monday_session 12 150
             at_nine_twenty_five).2 = store_of failed_disk.
Proof. repeat split; vm_compute; reflexivity. Qed.

(** The same Monday with a status file that holds a list: the run ends in
    [mark_running], before any call. *)
Example monday_run_on_a_list :
  let run := execute_trading offline_env quoted_and_filled monday_session 12 150
               {| calendar := fresh_state;
                  disk := {| content := Holds (VList 1); fate := fun _ => Succeeds;
                             writes := 0 |};
                  world := nine_twenty_five |} in
  run.1 = Raise TypeError
  /\ trace (world run.2) = []
  /\ content (disk run.2) = Holds (VList 1).
Proof. repeat split; vm_compute; reflexivity. Qed.

(** The conditions under which the run of that Monday comes back hold: the
    broker answers, and the plan it trades on is 300 shares of each of two
    stocks. *)
Example monday_run_has_fuel :
  responsive monday_session
  /\ forall tv cp,
      planned quoted_and_filled monday_session 1140 (world at_nine_twenty_five)
      = Some (tv, cp) ->
      forall item, item ∈ sell_list tv cp ++ buy_list tv cp ->
                   item.2 <= 100000 * Z.of_nat 150.
Proof.
  split; [by split|].
  intros tv cp Hplan.
  assert (planned quoted_and_filled monday_session 1140 (world at_nine_twenty_five)
          = Some (<["A" := 300]> (<["B" := 300]> ∅), ∅)) as Heq
    by (vm_compute; reflexivity).
  rewrite Heq in Hplan. injection Hplan as <- <-.
  assert (sell_list (<["A" := 300]> (<["B" := 300]> ∅)) ∅
            ++ buy_list (<["A" := 300]> (<["B" := 300]> ∅)) ∅
          = [("A", 300); ("B", 300)]) as -> by (vm_compute; reflexivity).
  intros item Hitem.
  repeat (apply elem_of_cons in Hitem as [-> | Hitem]); [cbn; lia | cbn; lia |].
  by apply elem_of_nil in Hitem.
Qed.

End ExecuteTrading.
